(** * SuiteCloud Backup: a shallow embedding of the backup manager, the
      SuiteCloud CLI wrapper and the [uploadFile] command flow.

    Source files embedded here:
    - [src/backupManager.ts]   (class [BackupManager], second listing)
    - [src/suiteCloudManager.ts] (class [SuiteCloudManager], both listings)
    - [src/extension.ts]       (commands [suitecloudbackup.uploadFile] and
                                [suitecloudbackup.restoreBackup])
    - [src/backupExplorer.ts]  ([formatTimeAgo] and the latest backup of
                                [getFileNodes])
    - the first listings of [BackupManager] (the same file) and of the
      command [suitecloudbackup.uploadFile] ([src/unnamed/part_003])

    Conventions.
    - A file's content is a list of bytes; what [fs.readFile(p, 'utf8')]
      returns is the list of code points of its UTF-8 decoding.
    - Paths, CLI output and messages are [string]s (code units below 256).
    - Node's [path] module, [JSON] and the external [suitecloud] executable
      are parameters of the development.
    - The file system is a finite map from paths to files and
      directories. What it refuses for reasons that the map does not show
      (permissions, a read-only or a full volume) is given along with it,
      as part of the state, and never changes.
    - Promise rejections and thrown exceptions are the [Throw] outcome.
    - Calls to [log], [outputChannel.appendLine] and [progress.report] have
      no influence on any result and are left out. *)

From Stdlib Require Import NArith Strings.Byte Strings.Ascii DecimalString Lia.
From stdpp Require Import gmap strings list fin_maps.

Local Open Scope string_scope.

(* ===================================================================== *)
(** ** Outcomes of asynchronous calls *)
(* ===================================================================== *)

(** A JavaScript [Error], known by its [message]; the error with which
    [child_process.exec] rejects also carries [stderr]. *)
Inductive error : Type :=
| Error (message : string)
| ExecError (message : string) (stderr : option string).

Definition message_of (e : error) : string :=
  match e with Error m => m | ExecError m _ => m end.

(** A settled promise: fulfilled with a value, or rejected. *)
Inductive outcome (A : Type) : Type :=
| Ok (a : A)
| Throw (e : error).
Arguments Ok {A} a.
Arguments Throw {A} e.

Definition is_ok {A} (o : outcome A) : bool :=
  match o with Ok _ => true | Throw _ => false end.

(* ===================================================================== *)
(** ** String helpers: the [String.prototype] methods the code calls *)
(* ===================================================================== *)

Module Str.

(** [s.startsWith(p)] *)
Fixpoint startsWith (p s : string) : bool :=
  match p with
  | EmptyString => true
  | String a p' =>
      match s with
      | EmptyString => false
      | String b s' => if Ascii.eqb a b then startsWith p' s' else false
      end
  end.

(** [s.includes(p)] *)
Fixpoint includes (p s : string) : bool :=
  if startsWith p s then true
  else match s with
       | EmptyString => false
       | String _ s' => includes p s'
       end.

(** [s.endsWith(p)]: some suffix of [s] is [p]. *)
Fixpoint endsWith (p s : string) : bool :=
  if String.eqb s p then true
  else match s with
       | EmptyString => false
       | String _ s' => endsWith p s'
       end.

(** [s.substring(n)] *)
Fixpoint drop (n : nat) (s : string) : string :=
  match n, s with
  | O, _ => s
  | S _, EmptyString => EmptyString
  | S k, String _ s' => drop k s'
  end.

(** [s.replace(/x/g, y)] for single characters, [f] deciding each one. *)
Fixpoint map (f : ascii -> ascii) (s : string) : string :=
  match s with
  | EmptyString => EmptyString
  | String a s' => String (f a) (map f s')
  end.

(** [s.split(sep)] for a non-empty separator: [cur] holds the current
    piece in reverse, [skip] counts the characters of a separator that
    was just recognised and still have to be passed over. *)
Fixpoint split_go (sep : string) (skip : nat) (cur : string) (s : string)
  : list string :=
  match s with
  | EmptyString => [String.rev cur]
  | String a s' =>
      match skip with
      | S k => split_go sep k cur s'
      | O =>
          if startsWith sep s
          then String.rev cur :: split_go sep (String.length sep - 1) EmptyString s'
          else split_go sep O (String a cur) s'
      end
  end.

Definition split (sep s : string) : list string :=
  split_go sep O EmptyString s.

(** [parts.join(sep)] *)
Fixpoint join (sep : string) (parts : list string) : string :=
  match parts with
  | [] => ""
  | [p] => p
  | p :: rest => p +:+ sep +:+ join sep rest
  end.

(** The white space of [\s] and of [trim], among code units below 256:
    TAB, LF, VT, FF, CR, SPACE and NBSP. *)
Definition is_space (a : ascii) : bool :=
  let n := N_of_ascii a in
  ((9 <=? n) && (n <=? 13) || (n =? 32) || (n =? 160))%N.

Fixpoint trimStart (s : string) : string :=
  match s with
  | EmptyString => EmptyString
  | String a s' => if is_space a then trimStart s' else s
  end.

(** [s.trim()] *)
Definition trim (s : string) : string :=
  String.rev (trimStart (String.rev (trimStart s))).

(** The longest prefix of non-white-space characters: what [(\S+)]
    captures at a given position. *)
Fixpoint nonspace_run (s : string) : string :=
  match s with
  | EmptyString => EmptyString
  | String a s' => if is_space a then EmptyString else String a (nonspace_run s')
  end.

(** Truthiness of a string value that may be [undefined]. *)
Definition truthy (o : option string) : bool :=
  match o with
  | Some (String _ _) => true
  | _ => false
  end.

(** [o || ''] *)
Definition or_empty (o : option string) : string :=
  match o with Some s => s | None => "" end.

End Str.

(* ===================================================================== *)
(** ** UTF-8: what the ['utf8'] encoding argument of [fs] does *)
(* ===================================================================== *)

Module Utf8.

(** Decoded text: a list of Unicode code points. *)
Definition text : Type := list N.

(** U+FFFD, which the decoder substitutes for every ill-formed sequence. *)
Definition REPLACEMENT : N := 65533.

(** A multi-byte sequence under way: continuation bytes still expected,
    the bits gathered so far, and the range allowed for the next byte. *)
Record pending := { need : nat; acc : N; lo : N; hi : N }.

(** What a byte does at the start of a sequence. *)
Definition lead (b : N) : N + pending :=
  (if b <? 128 then inl b
   else if (194 <=? b) && (b <=? 223) then
          inr {| need := 1; acc := b - 192; lo := 128; hi := 191 |}
   else if (224 <=? b) && (b <=? 239) then
          inr {| need := 2; acc := b - 224;
                 lo := if b =? 224 then 160 else 128;
                 hi := if b =? 237 then 159 else 191 |}
   else if (240 <=? b) && (b <=? 244) then
          inr {| need := 3; acc := b - 240;
                 lo := if b =? 240 then 144 else 128;
                 hi := if b =? 244 then 143 else 191 |}
   else inl REPLACEMENT)%N.

Fixpoint decode_go (st : option pending) (bs : list N) : text :=
  match bs with
  | [] => match st with None => [] | Some _ => [REPLACEMENT] end
  | b :: bs' =>
      let start :=
        match lead b with
        | inl c => c :: decode_go None bs'
        | inr p => decode_go (Some p) bs'
        end in
      match st with
      | None => start
      | Some p =>
          if ((lo p <=? b) && (b <=? hi p))%N then
            let c := (acc p * 64 + (b - 128))%N in
            match need p with
            | S (S k) =>
                decode_go (Some {| need := S k; acc := c; lo := 128; hi := 191 |}) bs'
            | _ => c :: decode_go None bs'
            end
          else REPLACEMENT :: start
      end
  end.

Definition decode (bs : list byte) : text :=
  decode_go None (List.map Byte.to_N bs).

Definition byte_of_N (n : N) : byte :=
  match Byte.of_N n with Some b => b | None => x00 end.

(** A Unicode scalar value: a code point up to U+10FFFF that is no
    surrogate. *)
Definition is_scalar (c : N) : bool :=
  ((c <? 55296) || ((57343 <? c) && (c <? 1114112)))%N.

(** The bytes written for one code point of a string; a lone surrogate
    is written as U+FFFD. *)
Definition encode_cp (c : N) : list N :=
  let c := if is_scalar c then c else REPLACEMENT in
  (if c <? 128 then [c]
   else if c <? 2048 then [192 + c / 64; 128 + c mod 64]
   else if c <? 65536 then
          [224 + c / 4096; 128 + (c / 64) mod 64; 128 + c mod 64]
   else [240 + c / 262144; 128 + (c / 4096) mod 64;
         128 + (c / 64) mod 64; 128 + c mod 64])%N.

Definition encode (t : text) : list byte :=
  List.map byte_of_N (List.concat (List.map encode_cp t)).

(** Writing back what was read as text. *)
Definition reencode (bs : list byte) : list byte := encode (decode bs).

(** Content that survives being read and written as text unchanged:
    well-formed UTF-8. *)
Definition clean (bs : list byte) : Prop := reencode bs = bs.

(** The code points of a string (code units below 256 are code points). *)
Definition of_string (s : string) : text :=
  List.map N_of_ascii (String.list_ascii_of_string s).

End Utf8.

(* ===================================================================== *)
(** ** The file system, as [fs] and [fs/promises] present it *)
(* ===================================================================== *)

#[global] Instance byte_eq_dec : EqDecision byte := Byte.byte_eq_dec.

(** What a path names: a regular file with its bytes, or a directory. *)
Inductive node : Type :=
| NFile (content : list byte)
| NDir.

Module Fs.

Record Stats := { size : N; isDirectory : bool }.

Definition ENOENT (syscall p : string) : error :=
  Error ("ENOENT: no such file or directory, " +:+ syscall +:+ " '" +:+ p +:+ "'").

Definition EISDIR (syscall : string) : error :=
  Error ("EISDIR: illegal operation on a directory, " +:+ syscall).

Definition ENOTDIR (syscall p : string) : error :=
  Error ("ENOTDIR: not a directory, " +:+ syscall +:+ " '" +:+ p +:+ "'").

Definition EEXIST (syscall p : string) : error :=
  Error ("EEXIST: file already exists, " +:+ syscall +:+ " '" +:+ p +:+ "'").

(** What the file system refuses for reasons that the tree of files does
    not show (permissions, a read-only or a full volume, ...), each with
    the error it gives: opening a path to write to it, the transfer of a
    copy once its target is open, and the creation of a directory. *)
Record Faults := {
  refuse_write : string -> option error;
  refuse_copy : string -> string -> option error;
  refuse_mkdir : string -> option error
}.

Definition no_faults : Faults :=
  {| refuse_write := fun _ => None;
     refuse_copy := fun _ _ => None;
     refuse_mkdir := fun _ => None |}.

(** [existsSync(p)] *)
Definition existsSync (fs : gmap string node) (p : string) : bool :=
  match fs !! p with Some _ => true | None => false end.

(** The bytes of the regular file at [p], if there is one. *)
Definition content (fs : gmap string node) (p : string) : option (list byte) :=
  match fs !! p with Some (NFile c) => Some c | _ => None end.

(** [fs.stat(p)]; the size reported for a directory plays no role. *)
Definition stat (fs : gmap string node) (p : string) : outcome Stats :=
  match fs !! p with
  | Some (NFile c) => Ok {| size := N.of_nat (length c); isDirectory := false |}
  | Some NDir => Ok {| size := 0; isDirectory := true |}
  | None => Throw (ENOENT "stat" p)
  end.

(** [fs.readFile(p)]: a [Buffer] *)
Definition readFile (fs : gmap string node) (p : string) : outcome (list byte) :=
  match fs !! p with
  | Some (NFile c) => Ok c
  | Some NDir => Throw (EISDIR "read")
  | None => Throw (ENOENT "open" p)
  end.

(** [fs.readFile(p, 'utf8')]: a string *)
Definition readFileUtf8 (fs : gmap string node) (p : string) : outcome Utf8.text :=
  match readFile fs p with
  | Ok c => Ok (Utf8.decode c)
  | Throw e => Throw e
  end.

Section Changes.

(** [path.dirname], which gives the directory a path lies in, and what
    the file system refuses. An operation that changes the file system
    gives its outcome and the file system it leaves. *)
Variable dirname : string -> string.
Variable faults : Faults.

(** What stands in the way of opening [p] to write to it: [p] is a
    directory, the directory it lies in is none or is missing, or the
    file system refuses. A path that is its own directory is a root. *)
Definition open_error (syscall : string) (fs : gmap string node) (p : string)
  : option error :=
  match fs !! p with
  | Some NDir => Some (EISDIR syscall)
  | _ =>
      if String.eqb (dirname p) p then refuse_write faults p
      else
        match fs !! dirname p with
        | Some NDir => refuse_write faults p
        | Some (NFile _) => Some (ENOTDIR syscall p)
        | None => Some (ENOENT syscall p)
        end
  end.

(** [fs.writeFile(p, data)]; a write that is refused leaves the file
    as it was. *)
Definition writeFile (fs : gmap string node) (p : string) (data : list byte)
  : outcome unit * gmap string node :=
  match open_error ("open '" +:+ p +:+ "'") fs p with
  | Some e => (Throw e, fs)
  | None => (Ok tt, <[p := NFile data]> fs)
  end.

(** [fs.copyFile(src, dst)]. Copying a file onto itself does nothing.
    When the copy fails after [dst] has been opened, [dst] is removed. *)
Definition copyFile (fs : gmap string node) (src dst : string)
  : outcome unit * gmap string node :=
  let syscall := "copyfile '" +:+ src +:+ "' -> '" +:+ dst +:+ "'" in
  match fs !! src with
  | None => (Throw (ENOENT "copyfile" src), fs)
  | Some from =>
      match open_error syscall fs dst with
      | Some e => (Throw e, fs)
      | None =>
          if String.eqb src dst then (Ok tt, fs)
          else
            match from with
            | NDir => (Throw (EISDIR syscall), delete dst fs)
            | NFile c =>
                match refuse_copy faults src dst with
                | Some e => (Throw e, delete dst fs)
                | None => (Ok tt, <[dst := NFile c]> fs)
                end
            end
      end
  end.

(** [mkdirSync(p, { recursive: true })]: the directories above [p] that
    are missing are created first, then [p]; what has been created
    stays when a later step fails. The walk up ends at a root and is at
    most [fuel] levels long (the length of [p] is enough: [path.dirname]
    shortens every path that is not a root). *)
Fixpoint mkdirSync (fuel : nat) (fs : gmap string node) (p : string)
  : outcome unit * gmap string node :=
  match fs !! p with
  | Some NDir => (Ok tt, fs)
  | Some (NFile _) => (Throw (EEXIST "mkdir" p), fs)
  | None =>
      let above :=
        if String.eqb (dirname p) p then (Ok tt, fs)
        else
          match fuel with
          | O => (Throw (ENOENT "mkdir" p), fs)
          | S fuel' => mkdirSync fuel' fs (dirname p)
          end in
      match above with
      | (Ok _, fs') =>
          match refuse_mkdir faults p with
          | Some e => (Throw e, fs')
          | None => (Ok tt, <[p := NDir]> fs')
          end
      | (Throw e, fs') => (Throw e, fs')
      end
  end.

End Changes.

End Fs.

(* ===================================================================== *)
(** ** Data of the two managers *)
(* ===================================================================== *)

(** [interface AccountInfo] *)
Record AccountInfo := { name : string; id : string; url : string }.

(** ['local' | 'account'] *)
Inductive Source : Type := local | account.

Definition source_name (s : Source) : string :=
  match s with local => "local" | account => "account" end.

(** The object literal [metadata] that [createBackup] serialises. *)
Record Metadata := {
  originalFile : string;
  timestamp : string;
  source : Source;
  authId : string;
  relativePath : string;
  accountInfo : AccountInfo
}.

(** What the readers take from a parsed sidecar: each property is absent
    ([None]) or a string. *)
Record Sidecar := {
  sc_originalFile : option string;
  sc_timestamp : option string;
  sc_authId : option string;
  sc_accountInfo : option (option string * option string * option string)
}.

(** What the readers take from a parsed [project.json]. *)
Record AccountValues := {
  companyName : option string;
  companyId : option string;
  netSuiteUrl : option string
}.

Record ProjectData := {
  pd_defaultAuthId : option string;
  pd_accountSpecificValues : option (gmap string AccountValues)
}.

(** [vscode.workspace]: the first workspace folder, and the setting
    [suitecloudbackup.defaultAuthId]. *)
Record Workspace := {
  workspaceFolder : option string;
  defaultAuthId : option string
}.

(** The fields of a [BackupManager] object; [suiteCloudManager] tells
    whether [setSuiteCloudManager] has been called. No field holds an
    index of the backups. *)
Record BackupManager := {
  baseBackupDir : string;
  suiteCloudManager : bool
}.

(** Everything the operations can change: the file system, and the
    [accountInfo] map owned by the [SuiteCloudManager] object; and what
    the file system refuses, which they cannot change. *)
Record state := {
  st_fs : gmap string node;
  st_accounts : gmap string AccountInfo;
  st_faults : Fs.Faults
}.

(* ===================================================================== *)
(** ** A state and exception monad for [async] method bodies *)
(* ===================================================================== *)

Definition ST (S A : Type) : Type := S -> outcome A * S.

#[global] Instance ST_ret {S} : MRet (ST S) := fun A a s => (Ok a, s).

#[global] Instance ST_bind {S} : MBind (ST S) := fun A B f m s =>
  match m s with
  | (Ok a, s') => f a s'
  | (Throw e, s') => (Throw e, s')
  end.

Definition throw {S A} (e : error) : ST S A := fun s => (Throw e, s).

(** [try { body } catch (e) { handler e }]; what [body] did to the state
    before it threw stays done. *)
Definition try_catch {S A} (body : ST S A) (handler : error -> ST S A) : ST S A :=
  fun s =>
    match body s with
    | (Ok a, s') => (Ok a, s')
    | (Throw e, s') => handler e s'
    end.

(** [if (c) throw new Error(msg)] *)
Definition throw_if {S} (c : bool) (msg : string) : ST S unit :=
  if c then throw (Error msg) else mret tt.

Definition of_outcome {S A} (o : outcome A) : ST S A := fun s => (o, s).

(** The monad of the [BackupManager] methods. *)
Abbreviation M := (ST state).

(** An operation that reads the file system. *)
Definition fs_read {A} (f : gmap string node -> outcome A) : M A :=
  fun s => (f (st_fs s), s).

(** The state with another file system. *)
Definition with_fs (s : state) (fs : gmap string node) : state :=
  {| st_fs := fs; st_accounts := st_accounts s; st_faults := st_faults s |}.

(** A change of the file system made from outside, as by the
    [suitecloud] executable. *)
Definition fs_update (f : gmap string node -> outcome (gmap string node)) : M unit :=
  fun s =>
    match f (st_fs s) with
    | Ok fs' => (Ok tt, with_fs s fs')
    | Throw e => (Throw e, s)
    end.

(** An operation of [fs] that changes the file system, or fails and
    leaves it as far as it came. *)
Definition fs_change
    (f : Fs.Faults -> gmap string node -> outcome unit * gmap string node) : M unit :=
  fun s =>
    let '(r, fs') := f (st_faults s) (st_fs s) in (r, with_fs s fs').

Definition get_accounts : M (gmap string AccountInfo) :=
  fun s => (Ok (st_accounts s), s).

Definition set_account (k : string) (v : AccountInfo) : M unit :=
  fun s => (Ok tt, {| st_fs := st_fs s; st_accounts := <[k := v]> (st_accounts s);
                      st_faults := st_faults s |}).

(* ===================================================================== *)
(** ** Timers and [Promise.race] *)
(* ===================================================================== *)

(** Time is counted in milliseconds from the moment the timeout promise
    is created. A pending promise is known by the time at which it
    settles and by its outcome. *)
Definition settled (A : Type) : Type := N * outcome A.

(** [Promise.race([op, timeoutPromise])], the timer firing at
    [deadline]: the timer wins when it fires strictly before [op]
    settles. *)
Definition race {A} (deadline : N) (timeoutError : error) (op : settled A) : settled A :=
  if (deadline <? fst op)%N then (deadline, Throw timeoutError) else op.

(** [Promise.all([p, q])]: both values, or the rejection that comes first. *)
Definition all2 {A B} (p : settled A) (q : settled B) : outcome (A * B) :=
  match snd p, snd q with
  | Ok a, Ok b => Ok (a, b)
  | Throw e, Ok _ => Throw e
  | Ok _, Throw e => Throw e
  | Throw e1, Throw e2 => if (fst q <? fst p)%N then Throw e2 else Throw e1
  end.

(** A [Date] object, known by how it was made: [new Date(s)] ([s] may be
    [undefined]), or the modification time of a file. *)
Inductive JsDate : Type :=
| DateOf (s : option string)
| Mtime (p : string).

(** One element of the arrays in the map that [listBackups] returns. *)
Record BackupEntry := {
  e_path : string;
  e_timestamp : JsDate;
  e_source : Source;
  e_authId : string;
  e_accountInfo : AccountInfo
}.

(** What [fs.readdir(dir, { withFileTypes: true })] yields, followed into
    the sub-directories: a [Dirent] is a file, a directory (with its own
    listing, or [None] when reading it fails) or something else. Where
    the code lists names only and asks [fs.stat] for the kind, an entry
    may also be one on which [fs.stat] rejects. *)
#[warnings="-register-all"]
Inductive dirent : Type :=
| DirentFile (name : string)
| DirentDir (name : string) (listing : option (list dirent))
| DirentOther (name : string)
| DirentNoStat (name : string).

Definition dirent_name (d : dirent) : string :=
  match d with
  | DirentFile n => n
  | DirentDir n _ => n
  | DirentOther n => n
  | DirentNoStat n => n
  end.

(** The body of [for (const x of xs)] that no [try] encloses: a step
    that throws ends the loop with its exception. *)
Fixpoint for_of {A X} (step : X -> A -> outcome A) (xs : list X) (a : A) : outcome A :=
  match xs with
  | [] => Ok a
  | x :: xs' =>
      match step x a with
      | Ok a' => for_of step xs' a'
      | Throw e => Throw e
      end
  end.

(** The body of [for (const entry of entries)] inside a [try] whose
    [catch] only logs: a step that throws ends the loop and keeps what
    the earlier steps have stored. [None] stands for a [readdir] that
    rejected. *)
Fixpoint for_of_caught {A X} (step : X -> A -> outcome A) (xs : list X) (a : A) : A :=
  match xs with
  | [] => a
  | x :: xs' =>
      match step x a with
      | Ok a' => for_of_caught step xs' a'
      | Throw _ => a
      end
  end.

Definition scanListing {A X} (step : X -> A -> outcome A)
    (listing : option (list X)) (a : A) : A :=
  match listing with
  | None => a
  | Some entries => for_of_caught step entries a
  end.

Definition emptyAccount : AccountInfo := {| name := ""; id := ""; url := "" |}.

Definition is_empty (s : string) : bool :=
  match s with EmptyString => true | _ => false end.

(** [timeoutMs] of [restoreFile] and of [compareFiles]. *)
Definition timeoutMs : N := 120000.

Definition seconds_of (ms : N) : string :=
  DecimalString.NilZero.string_of_uint (N.to_uint (ms / 1000)).

Definition restoreTimeout : error :=
  Error ("File restoration timed out after " +:+ seconds_of timeoutMs +:+ " seconds").

Definition compareTimeout : error :=
  Error ("File comparison timed out after " +:+ seconds_of timeoutMs +:+ " seconds").

(** How long the awaited operations of one [restoreFile] call take. *)
Record RestoreTiming := { t_stat : N; t_copy : N; t_read : N; t_write : N }.

(** When the two reads of one [compareFiles] call settle. *)
Record CompareTiming := { c_read1 : N; c_read2 : N }.

(** What the fallback of [restoreFile] reads: a [Buffer] or a string. *)
Inductive payload : Type :=
| Buffer (b : list byte)
| Text (t : Utf8.text).

Definition payload_bytes (p : payload) : list byte :=
  match p with Buffer b => b | Text t => Utf8.encode t end.

(** [s.replace(/[:.]/g, '-')] *)
Definition dash_colon_dot (a : ascii) : ascii :=
  if (Ascii.eqb a ":" || Ascii.eqb a ".")%bool then "-"%char else a.

(** [s.replace(/-/g, (match, offset) => ...)] of [findBackupFiles]. *)
Fixpoint undash_at (offset : nat) (s : string) : string :=
  match s with
  | EmptyString => EmptyString
  | String a s' =>
      let a' :=
        if Ascii.eqb a "-" then
          if (Nat.eqb offset 13 || Nat.eqb offset 16)%bool then ":"%char
          else if Nat.eqb offset 10 then "."%char
          else a
        else a in
      String a' (undash_at (S offset) s')
  end.

(** [s.replace(/^[a-zA-Z]:[\\\/]/, '')] *)
Definition is_letter (a : ascii) : bool :=
  let n := N_of_ascii a in
  ((65 <=? n) && (n <=? 90) || (97 <=? n) && (n <=? 122))%N.

Definition strip_drive (s : string) : string :=
  match s with
  | String a (String ":" (String c rest)) =>
      if (is_letter a && (Ascii.eqb c "\" || Ascii.eqb c "/"))%bool then rest else s
  | _ => s
  end.

Definition source_of_name (s : string) : option Source :=
  if String.eqb s "local" then Some local
  else if String.eqb s "account" then Some account
  else None.

(** [backups.has(k) || backups.set(k, []); backups.get(k).push(e)] *)
Definition push_backup (k : string) (e : BackupEntry)
    (backups : gmap string (list BackupEntry)) : gmap string (list BackupEntry) :=
  <[k := (default [] (backups !! k) ++ [e])%list]> backups.

(* ===================================================================== *)
(** ** [class BackupManager] (src/backupManager.ts) *)
(* ===================================================================== *)

Section BackupManager.

(** Node's [path] module. *)
Variable path_join : list string -> string.
Variable path_dirname : string -> string.
Variable path_basename : string -> string.
Variable path_relative : string -> string -> string.
Variable path_sep : string.

(** [JSON.stringify(metadata, null, 2)], and [JSON.parse] followed by
    the property reads made on its result ([None]: [JSON.parse] or a
    property read throws). *)
Variable JSON_stringify : Metadata -> Utf8.text.
Variable JSON_parse_project : Utf8.text -> option ProjectData.
Variable JSON_parse_sidecar : Utf8.text -> option Sidecar.

Variable W : Workspace.
Variable B : BackupManager.

(** [ensureDirectoryExists(dirPath)] *)
Definition ensureDirectoryExists (dirPath : string) : M unit :=
  try_catch
    (ex ← fs_read (fun fs => Ok (Fs.existsSync fs dirPath));
     if ex : bool then mret tt
     else
       fs_change (fun faults fs =>
         Fs.mkdirSync path_dirname faults (String.length dirPath) fs dirPath))
    (fun error => throw (Error ("Failed to create directory: " +:+ dirPath))).

(** The file system that [ensureDirectoryExists(dirPath)] leaves,
    whether it succeeds or not. *)
Definition ensured (faults : Fs.Faults) (fs : gmap string node) (dirPath : string)
  : gmap string node :=
  if Fs.existsSync fs dirPath then fs
  else snd (Fs.mkdirSync path_dirname faults (String.length dirPath) fs dirPath).

(** [JSON.parse(await fs.readFile(p, 'utf8'))] on [project.json] *)
Definition readProject (p : string) : M ProjectData :=
  txt ← fs_read (fun fs => Fs.readFileUtf8 fs p);
  match JSON_parse_project txt with
  | Some d => mret d
  | None => throw (Error "Unexpected token in JSON")
  end.

Definition projectJsonPath (ws : string) : string :=
  path_join [ws; "project.json"].

(** [getAuthId] *)
Definition getAuthId : M (option string) :=
  let authId := defaultAuthId W in
  if Str.truthy authId then mret authId
  else
    try_catch
      (match workspaceFolder W with
       | Some ws =>
           ex ← fs_read (fun fs => Ok (Fs.existsSync fs (projectJsonPath ws)));
           if ex : bool then
             projectData ← readProject (projectJsonPath ws);
             mret (pd_defaultAuthId projectData)
           else mret authId
       | None => mret authId
       end)
      (fun _ => mret authId).

(** [getRelativePath] *)
Definition getRelativePath (filePath : string) : string :=
  match workspaceFolder W with
  | None => filePath
  | Some workspaceRoot =>
      let relativePath := path_relative workspaceRoot filePath in
      if Str.includes ":" relativePath then strip_drive relativePath
      else relativePath
  end.

(** The directory and the content path that [createBackup] computes. *)
Definition backupDirOf (authId uri : string) (source : Source) : string :=
  path_join [baseBackupDir B; authId; source_name source;
             path_dirname (getRelativePath uri)].

Definition backupFileName (uri now : string) : string :=
  path_basename (getRelativePath uri) +:+ "." +:+ Str.map dash_colon_dot now +:+ ".bak".

Definition backupPathOf (authId uri : string) (source : Source) (now : string) : string :=
  path_join [backupDirOf authId uri source; backupFileName uri now].

(** [accountInfo] as first chosen: a fresh object, or the very object
    held in the manager's map (then [true]). *)
Definition managerAccountInfo (authId : string) : M (AccountInfo * bool) :=
  if suiteCloudManager B then
    accts ← get_accounts;
    match accts !! authId with
    | Some info => mret (info, true)
    | None => mret (emptyAccount, false)
    end
  else mret (emptyAccount, false).

(** The fallback to [project.json]; the assignments to
    [accountInfo.name], [.id] and [.url] go to the manager's map when
    the object is shared with it. *)
Definition projectAccountInfo (authId : string) (current : AccountInfo * bool)
  : M AccountInfo :=
  let '(accountInfo, shared) := current in
  if (is_empty (name accountInfo) && is_empty (id accountInfo))%bool then
    try_catch
      (match workspaceFolder W with
       | Some ws =>
           ex ← fs_read (fun fs => Ok (Fs.existsSync fs (projectJsonPath ws)));
           if ex : bool then
             projectData ← readProject (projectJsonPath ws);
             match pd_accountSpecificValues projectData with
             | Some values =>
                 match values !! authId with
                 | Some acctInfo =>
                     let updated :=
                       {| name := Str.or_empty (companyName acctInfo);
                          id := Str.or_empty (companyId acctInfo);
                          url := Str.or_empty (netSuiteUrl acctInfo) |} in
                     _ ← (if shared : bool then set_account authId updated else mret tt);
                     mret updated
                 | None => mret accountInfo
                 end
             | None => mret accountInfo
             end
           else mret accountInfo
       | None => mret accountInfo
       end)
      (fun _ => mret accountInfo)
  else mret accountInfo.

(** [createBackup(uri, source)]; [now1] and [now2] are what the two
    [new Date().toISOString()] calls return. *)
Definition createBackup (uri : string) (source : Source) (now1 now2 : string)
  : M string :=
  try_catch
    (authId ← getAuthId;
     _ ← throw_if (negb (Str.truthy authId)) "No authentication ID found";
     let authId := Str.or_empty authId in
     let relativePath := getRelativePath uri in
     let backupDir := backupDirOf authId uri source in
     _ ← ensureDirectoryExists backupDir;
     let backupPath := backupPathOf authId uri source now1 in
     current ← managerAccountInfo authId;
     accountInfo ← projectAccountInfo authId current;
     let metadataPath := backupPath +:+ ".meta.json" in
     let metadata :=
       {| originalFile := uri; timestamp := now2; source := source;
          authId := authId; relativePath := relativePath;
          accountInfo := accountInfo |} in
     fileContent ← fs_read (fun fs => Fs.readFileUtf8 fs uri);
     _ ← fs_change (fun faults fs =>
            Fs.writeFile path_dirname faults fs backupPath (Utf8.encode fileContent));
     _ ← fs_change (fun faults fs =>
            Fs.writeFile path_dirname faults fs metadataPath
              (Utf8.encode (JSON_stringify metadata)));
     mret backupPath)
    (fun e => throw (Error ("Failed to create backup: " +:+ message_of e))).

(** [await Promise.race([readBackupPromise, timeoutPromise])], the read
    settling at time [at_]. *)
Definition raced_read (backupPath : string) (large : bool) (at_ : N) : M payload :=
  fs_read (fun fs =>
    let readBackup :=
      if large then
        match Fs.readFile fs backupPath with
        | Ok b => Ok (Buffer b) | Throw e => Throw e
        end
      else
        match Fs.readFileUtf8 fs backupPath with
        | Ok t => Ok (Text t) | Throw e => Throw e
        end in
    snd (race timeoutMs restoreTimeout (at_, readBackup))).

(** [await Promise.race([writeFilePromise, timeoutPromise])], the write
    settling at time [at_]. The write has been issued and is carried
    out whichever promise wins. *)
Definition raced_write (target : string) (data : payload) (at_ : N) : M unit :=
  fun s =>
    let '(written, fs') :=
      Fs.writeFile path_dirname (st_faults s) (st_fs s) target (payload_bytes data) in
    (snd (race timeoutMs restoreTimeout (at_, written)), with_fs s fs').

(** [restoreFile(targetUri, backupPath)]. The timeout promise is created
    right after the existence check; [true] from the inner [try] means
    the direct copy went through and the method returned there. *)
Definition restoreFile (target backupPath : string) (tm : RestoreTiming) : M unit :=
  try_catch
    (_ ← throw_if (is_empty backupPath) "Backup path is undefined or empty";
     _ ← throw_if (is_empty target) "Target URI is invalid or missing fsPath";
     ex ← fs_read (fun fs => Ok (Fs.existsSync fs backupPath));
     _ ← throw_if (negb ex) ("Backup file not found: " +:+ backupPath);
     stats ← fs_read (fun fs => Fs.stat fs backupPath);
     let targetDir := path_dirname target in
     _ ← throw_if (is_empty targetDir)
           ("Invalid target directory derived from: " +:+ target);
     _ ← ensureDirectoryExists targetDir;
     copied ← try_catch
                (_ ← fs_change (fun faults fs =>
                       Fs.copyFile path_dirname faults fs backupPath target);
                 mret true)
                (fun copyError =>
                   let large := (5 * 1024 * 1024 <? Fs.size stats)%N in
                   let read_at := (t_stat tm + t_copy tm + t_read tm)%N in
                   backupContent ← raced_read backupPath large read_at;
                   _ ← raced_write target backupContent (read_at + t_write tm)%N;
                   mret false);
     if copied : bool then mret tt
     else
       ex' ← fs_read (fun fs => Ok (Fs.existsSync fs target));
       throw_if (negb ex') ("Target file not found after write: " +:+ target))
    (fun error => throw error).

(** The [try] block of [compareFiles]. *)
Definition compareFiles_try (file1Path file2Path : string) (tm : CompareTiming)
  : M bool :=
  ex1 ← fs_read (fun fs => Ok (Fs.existsSync fs file1Path));
  _ ← throw_if (negb ex1) ("First file not found: " +:+ file1Path);
  ex2 ← fs_read (fun fs => Ok (Fs.existsSync fs file2Path));
  _ ← throw_if (negb ex2) ("Second file not found: " +:+ file2Path);
  stats1 ← fs_read (fun fs => Fs.stat fs file1Path);
  stats2 ← fs_read (fun fs => Fs.stat fs file2Path);
  if negb (Fs.size stats1 =? Fs.size stats2)%N then mret true
  else
    contents ← fs_read (fun fs =>
      all2 (race timeoutMs compareTimeout (c_read1 tm, Fs.readFileUtf8 fs file1Path))
           (race timeoutMs compareTimeout (c_read2 tm, Fs.readFileUtf8 fs file2Path)));
    let isDifferent := bool_decide (fst contents ≠ snd contents) in
    mret isDifferent.

(** [compareFiles(file1Path, file2Path)] *)
Definition compareFiles (file1Path file2Path : string) (tm : CompareTiming) : M bool :=
  try_catch (compareFiles_try file1Path file2Path tm) (fun _ => mret true).

(** [parts.slice(0, -2)] *)
Definition slice_0_m2 {A} (l : list A) : list A := take (length l - 2) l.

(** [parts.slice(-2, -1)`[0]`] *)
Definition slice_m2_m1_0 {A} (l : list A) : option A :=
  if Nat.leb 2 (length l) then l !! (length l - 2) else None.

(** [getOriginalFilePath(backupPath)]: the [catch] turns every
    exception into [null], so the promise never rejects. *)
Definition getOriginalFilePath (fs : gmap string node) (backupPath : string)
  : option string :=
  let metadataPath := backupPath +:+ ".meta.json" in
  if Fs.existsSync fs metadataPath then
    match Fs.readFileUtf8 fs metadataPath with
    | Ok txt =>
        match JSON_parse_sidecar txt with
        | Some metadata => sc_originalFile metadata
        | None => None
        end
    | Throw _ => None
    end
  else
    let backupDir := path_dirname backupPath in
    let fileName :=
      Str.join "." (slice_0_m2 (Str.split "." (path_basename backupPath))) in
    match workspaceFolder W with
    | None => None
    | Some workspaceRoot =>
        let parts := Str.split path_sep (path_relative (baseBackupDir B) backupDir) in
        let relativeDirParts := if Nat.leb 2 (length parts) then drop 2 parts else parts in
        let relativeDir := Str.join path_sep relativeDirParts in
        Some (path_join [workspaceRoot; relativeDir; fileName])
    end.

(** The inner [try]/[catch] of [findBackupFiles]: time stamp, [authId]
    and account of one backup file. It throws only if the [stat] in
    its [catch] does. *)
Definition entryDetails (fs : gmap string node) (entryPath entryName : string)
  : outcome (JsDate * string * AccountInfo) :=
  let metaPath := entryPath +:+ ".meta.json" in
  let fallback :=
    match Fs.stat fs entryPath with
    | Ok _ => Ok (Mtime entryPath, "", emptyAccount)
    | Throw e => Throw e
    end in
  if Fs.existsSync fs metaPath then
    match Fs.readFileUtf8 fs metaPath with
    | Ok txt =>
        match JSON_parse_sidecar txt with
        | Some metadata =>
            Ok (DateOf (sc_timestamp metadata),
                Str.or_empty (sc_authId metadata),
                match sc_accountInfo metadata with
                | Some (n, i, u) =>
                    {| name := Str.or_empty n; id := Str.or_empty i;
                       url := Str.or_empty u |}
                | None => emptyAccount
                end)
        | None => fallback
        end
    | Throw _ => fallback
    end
  else
    match slice_m2_m1_0 (Str.split "." entryName) with
    | Some timestampStr => Ok (DateOf (Some (undash_at 0 timestampStr)), "", emptyAccount)
    | None => fallback
    end.

(** [entry.isFile() && entry.name.endsWith('.bak') &&
     !entry.name.endsWith('.meta.json')] *)
Definition is_backup_name (entryName : string) : bool :=
  (Str.endsWith ".bak" entryName && negb (Str.endsWith ".meta.json" entryName))%bool.

(** What the loop of [findBackupFiles] does with a backup file. *)
Definition scanFile (fs : gmap string node) (source : Source)
    (entryPath entryName : string) (backups : gmap string (list BackupEntry))
  : outcome (gmap string (list BackupEntry)) :=
  match getOriginalFilePath fs entryPath with
  | Some (String c rest as originalPath) =>
      match entryDetails fs entryPath entryName with
      | Ok (timestamp, authId, accountInfo) =>
          Ok (push_backup originalPath
                {| e_path := entryPath; e_timestamp := timestamp;
                   e_source := source; e_authId := authId;
                   e_accountInfo := accountInfo |}
                backups)
      | Throw e => Throw e
      end
  | _ => Ok backups
  end.

(** One turn of the loop of [findBackupFiles(directory, backups, source,
    relativePath)]; a sub-directory is searched by the recursive call,
    which never throws. *)
Fixpoint scanEntry (fs : gmap string node) (source : Source)
    (directory relativePath : string) (entry : dirent)
    (backups : gmap string (list BackupEntry))
  : outcome (gmap string (list BackupEntry)) :=
  match entry with
  | DirentDir entryName listing =>
      let entryPath := path_join [directory; entryName] in
      let newRelativePath :=
        if is_empty relativePath then entryName
        else path_join [relativePath; entryName] in
      Ok (scanListing (scanEntry fs source entryPath newRelativePath) listing backups)
  | DirentFile entryName =>
      let entryPath := path_join [directory; entryName] in
      if is_backup_name entryName
      then scanFile fs source entryPath entryName backups
      else Ok backups
  | DirentOther _ | DirentNoStat _ => Ok backups
  end.

(** [findBackupFiles]; [listing] is what [fs.readdir(directory, ...)]
    gives. *)
Definition findBackupFiles (fs : gmap string node) (directory : string)
    (listing : option (list dirent)) (backups : gmap string (list BackupEntry))
    (source : Source) (relativePath : string) : gmap string (list BackupEntry) :=
  scanListing (scanEntry fs source directory relativePath) listing backups.

(** The body of [for (const source of sources)] in [listBackups]. *)
Definition scanSource (fs : gmap string node) (authPath : string)
    (entry : dirent) (backups : gmap string (list BackupEntry))
  : outcome (gmap string (list BackupEntry)) :=
  match entry with
  | DirentDir sourceName listing =>
      match source_of_name sourceName with
      | Some source =>
          Ok (findBackupFiles fs (path_join [authPath; sourceName]) listing
                backups source "")
      | None => Ok backups
      end
  | _ => Ok backups
  end.

(** The body of [for (const authId of authIds)] in [listBackups]: the
    [fs.stat(authPath)] is outside the inner [try], so its rejection
    leaves the loop. *)
Definition scanAuth (fs : gmap string node) (entry : dirent)
    (backups : gmap string (list BackupEntry))
  : outcome (gmap string (list BackupEntry)) :=
  match entry with
  | DirentDir authId sources =>
      Ok (scanListing (scanSource fs (path_join [baseBackupDir B; authId]))
            sources backups)
  | DirentNoStat authId =>
      Throw (Fs.ENOENT "stat" (path_join [baseBackupDir B; authId]))
  | DirentFile _ | DirentOther _ => Ok backups
  end.

(** [listBackups()]: [root] is what [fs.readdir(this.baseBackupDir)]
    gives ([None]: it rejects), with each entry's kind as [fs.stat]
    reports it. The map is built from the empty map at every call, and
    every exception that leaves the loop is answered with a new empty
    map. *)
Definition listBackups (fs : gmap string node) (root : option (list dirent))
  : gmap string (list BackupEntry) :=
  if negb (Fs.existsSync fs (baseBackupDir B)) then ∅
  else
    match root with
    | None => ∅
    | Some authIds =>
        match for_of (scanAuth fs) authIds ∅ with
        | Ok backups => backups
        | Throw _ => ∅
        end
    end.

(** *** What the claims say about these methods *)

(** The pair of files that a backup record consists of: after a
    successful [createBackup] that returned [p] and led from [s] to
    [s'], the content file at [p] holds what was read from [uri] as
    text, written back as UTF-8 (the very bytes when they are well-formed
    UTF-8), the sidecar at [p] followed by [.meta.json] holds the
    serialised metadata, and no other file has changed. *)
Definition persisted_pair (uri : string) (source : Source) (now1 now2 : string)
    (s : state) (p : string) (s' : state) : Prop :=
  exists a info c,
    Fs.content (st_fs s) uri = Some c
    /\ a <> EmptyString
    /\ p = backupPathOf a uri source now1
    /\ Fs.content (st_fs s') p = Some (Utf8.reencode c)
    /\ (Utf8.clean c -> Fs.content (st_fs s') p = Some c)
    /\ Fs.content (st_fs s') (p +:+ ".meta.json")
       = Some (Utf8.encode (JSON_stringify
           {| originalFile := uri; timestamp := now2; source := source;
              authId := a; relativePath := getRelativePath uri;
              accountInfo := info |}))
    /\ (forall q, q <> p -> q <> p +:+ ".meta.json" ->
          Fs.content (st_fs s') q = Fs.content (st_fs s) q).

(** The backup files of a directory tree: [backup_at directory entry p
    entryName] when the traversal that starts at [entry], an entry of
    [directory], comes to a regular file with the backup name
    [entryName] at path [p]. *)
Inductive backup_at : string -> dirent -> string -> string -> Prop :=
| backup_at_file directory entryName :
    is_backup_name entryName = true ->
    backup_at directory (DirentFile entryName)
      (path_join [directory; entryName]) entryName
| backup_at_dir directory sub listing entry p entryName :
    entry ∈ listing ->
    backup_at (path_join [directory; sub]) entry p entryName ->
    backup_at directory (DirentDir sub (Some listing)) p entryName.

(** The backup files below [baseBackupDir/<authId>/<local|account>]. *)
Definition backup_in_tree (root : list dirent) (source : Source)
    (p entryName : string) : Prop :=
  exists authId sources sourceName listing entry,
    DirentDir authId (Some sources) ∈ root
    /\ DirentDir sourceName (Some listing) ∈ sources
    /\ source_of_name sourceName = Some source
    /\ entry ∈ listing
    /\ backup_at (path_join [path_join [baseBackupDir B; authId]; sourceName])
         entry p entryName.

(** The version recorded for the backup file [entryName] at [p]: under
    the original path that [getOriginalFilePath] gives (from the
    sidecar's [originalFile], or from the layout when there is no
    sidecar), with the time stamp, auth id and account that the sidecar
    or the file name give. *)
Definition recorded (fs : gmap string node) (source : Source)
    (p entryName : string) (originalPath : string) (e : BackupEntry) : Prop :=
  getOriginalFilePath fs p = Some originalPath
  /\ originalPath <> EmptyString
  /\ exists timestamp authId accountInfo,
       entryDetails fs p entryName = Ok (timestamp, authId, accountInfo)
       /\ e = {| e_path := p; e_timestamp := timestamp; e_source := source;
                 e_authId := authId; e_accountInfo := accountInfo |}.

(** The same in the words of the specification, without the two
    methods. The account descriptor of a sidecar; the original path
    inferred from the layout
    [<baseBackupDir>/<authId>/<source>/<directory>/<name>.<stamp>.bak]:
    the directory below the first two levels and the name without its
    last two dot-separated parts, under the workspace root; and the
    version that stands for the backup file [entryName] at [p], with
    the key it stands under. A backup file whose sidecar is there but
    cannot be read as a JSON object with an [originalFile] has none. *)
Definition sidecar_account (sc : Sidecar) : AccountInfo :=
  match sc_accountInfo sc with
  | Some (n, i, u) =>
      {| name := Str.or_empty n; id := Str.or_empty i; url := Str.or_empty u |}
  | None => emptyAccount
  end.

Definition inferred_path (workspaceRoot p : string) : string :=
  let levels := Str.split path_sep (path_relative (baseBackupDir B) (path_dirname p)) in
  path_join [workspaceRoot;
             Str.join path_sep (if Nat.leb 2 (length levels) then drop 2 levels else levels);
             Str.join "." (slice_0_m2 (Str.split "." (path_basename p)))].

Inductive version_of (fs : gmap string node) (source : Source) (p entryName : string)
  : string -> BackupEntry -> Prop :=
| version_with_sidecar bytes sc k :
    Fs.content fs (p +:+ ".meta.json") = Some bytes ->
    JSON_parse_sidecar (Utf8.decode bytes) = Some sc ->
    sc_originalFile sc = Some k ->
    k <> EmptyString ->
    version_of fs source p entryName k
      {| e_path := p; e_timestamp := DateOf (sc_timestamp sc); e_source := source;
         e_authId := Str.or_empty (sc_authId sc);
         e_accountInfo := sidecar_account sc |}
| version_without_sidecar workspaceRoot stamp :
    Fs.existsSync fs (p +:+ ".meta.json") = false ->
    workspaceFolder W = Some workspaceRoot ->
    inferred_path workspaceRoot p <> EmptyString ->
    slice_m2_m1_0 (Str.split "." entryName) = Some stamp ->
    version_of fs source p entryName (inferred_path workspaceRoot p)
      {| e_path := p; e_timestamp := DateOf (Some (undash_at 0 stamp));
         e_source := source; e_authId := EmptyString; e_accountInfo := emptyAccount |}.

(** [fs.stat] rejects on no entry of the listing. *)
Definition all_stat (root : list dirent) : Prop :=
  forall authId, DirentNoStat authId ∉ root.

End BackupManager.

(* ===================================================================== *)
(** ** [class SuiteCloudManager] (src/suiteCloudManager.ts) *)
(* ===================================================================== *)

(** [interface CommandResult] *)
Record CommandResult := {
  success : bool;
  output : option string;
  error_ : option string
}.

(** The fields of a [SuiteCloudManager] object, and the commands it has
    handed to [exec] so far (oldest first). *)
Record Scm := {
  scm_authId : option string;
  scm_projectRoot : option string;
  scm_accountInfo : gmap string AccountInfo;
  scm_commands : list string
}.

(** What a run of the external executable gives: [stdout] and [stderr],
    or a rejection. *)
Inductive ExecResult : Type :=
| ExecDone (stdout stderr : string)
| ExecFailed (e : error).

Module Regex.

(** A literal followed by a captured run of at least one character of
    a class, as in [/ID: (\S+)/]: the capture of the leftmost match. *)
Fixpoint match_lit_run (lit : string) (run : string -> string) (s : string)
  : option string :=
  let here :=
    if Str.startsWith lit s
    then run (Str.drop (String.length lit) s)
    else EmptyString in
  match here with
  | String _ _ => Some here
  | EmptyString =>
      match s with
      | EmptyString => None
      | String _ s' => match_lit_run lit run s'
      end
  end.

(** The same with the [g] flag: the texts of all matches, each search
    resuming where the previous match ended. *)
Fixpoint match_lit_run_all (lit : string) (run : string -> string)
    (skip : nat) (s : string) : list string :=
  match s with
  | EmptyString => []
  | String _ s' =>
      match skip with
      | S k => match_lit_run_all lit run k s'
      | O =>
          let here :=
            if Str.startsWith lit s
            then run (Str.drop (String.length lit) s)
            else EmptyString in
          match here with
          | String _ _ =>
              (lit +:+ here)
                :: match_lit_run_all lit run
                     (String.length lit + String.length here - 1) s'
          | EmptyString => match_lit_run_all lit run O s'
          end
      end
  end.

(** What [[^\n]+] captures at a position. *)
Fixpoint line_run (s : string) : string :=
  match s with
  | EmptyString => EmptyString
  | String a s' =>
      if Ascii.eqb a "010" then EmptyString else String a (line_run s')
  end.

(** [s.match(/ID: (\S+)/)`[1]`] *)
Definition match_ID (s : string) : option string :=
  match_lit_run "ID: " Str.nonspace_run s.

(** [s.match(/ID: (\S+)/g)] *)
Definition match_ID_all (s : string) : list string :=
  match_lit_run_all "ID: " Str.nonspace_run O s.

(** [line.match(/Account name: ([^\n]+)/)`[1]`] and the like. *)
Definition match_field (label : string) (line : string) : option string :=
  match_lit_run label line_run line.

End Regex.

Definition newline : string := String "010" EmptyString.

(** A text between double quotes, as the command lines have the paths. *)
Definition quoted (s : string) : string :=
  String "034" (s +:+ String "034" EmptyString).

Section SuiteCloudManager.

Variable path_join : list string -> string.
Variable path_relative : string -> string -> string.
Variable JSON_parse_project : Utf8.text -> option ProjectData.
Variable W : Workspace.

(** The external executable: what the [n]-th command handed to [exec]
    gives. *)
Variable cli : nat -> string -> ExecResult.

(** The match of the pattern that [fetchAccountInfo] builds from the
    auth id, [\[id\]\s*ACCOUNT:\s*\[(.+?)\]\s*ROLE:\s*\[(.+?)\]]: its
    two captures. *)
Variable match_account_role : string -> string -> option (string * string).

Definition set_authId (a : option string) : ST Scm unit :=
  fun s => (Ok tt, {| scm_authId := a; scm_projectRoot := scm_projectRoot s;
                      scm_accountInfo := scm_accountInfo s;
                      scm_commands := scm_commands s |}).

Definition set_projectRoot (r : option string) : ST Scm unit :=
  fun s => (Ok tt, {| scm_authId := scm_authId s; scm_projectRoot := r;
                      scm_accountInfo := scm_accountInfo s;
                      scm_commands := scm_commands s |}).

Definition set_accountInfo (m : gmap string AccountInfo) : ST Scm unit :=
  fun s => (Ok tt, {| scm_authId := scm_authId s;
                      scm_projectRoot := scm_projectRoot s;
                      scm_accountInfo := m;
                      scm_commands := scm_commands s |}).

Definition get_scm : ST Scm Scm := fun s => (Ok s, s).

(** [await exec(command, ...)]: the command is handed over, and the
    promise settles with what the executable gives. *)
Definition exec (command : string) : ST Scm (string * string) :=
  fun s =>
    let s' := {| scm_authId := scm_authId s; scm_projectRoot := scm_projectRoot s;
                 scm_accountInfo := scm_accountInfo s;
                 scm_commands := (scm_commands s ++ [command])%list |} in
    match cli (length (scm_commands s)) command with
    | ExecDone stdout stderr => (Ok (stdout, stderr), s')
    | ExecFailed e => (Throw e, s')
    end.

(** *** First listing *)

(** [runCommand(command)] *)
Definition runCommand (command : string) : ST Scm CommandResult :=
  try_catch
    (s ← get_scm;
     if negb (Str.truthy (scm_projectRoot s)) then
       mret {| success := false; output := None;
               error_ := Some "No project root directory found" |}
     else
       result ← exec command;
       mret {| success := true; output := Some (fst result); error_ := None |})
    (fun error =>
       mret {| success := false;
               output := match error with
                         | ExecError _ stderr => stderr
                         | Error _ => None
                         end;
               error_ := Some (message_of error) |}).

(** [relativePath.replace(/\\/g, '/')] *)
Definition slash_of_backslash (a : ascii) : ascii :=
  if Ascii.eqb a "\" then "/"%char else a.

(** [`SuiteScripts${scriptPath ? '/' + scriptPath : ''}`] where
    [scriptPath] is [parts`[1]`] without a leading slash. *)
Definition suiteScriptsPath (part1 : string) : string :=
  let scriptPath := if Str.startsWith "/" part1 then Str.drop 1 part1 else part1 in
  "SuiteScripts" +:+ (if is_empty scriptPath then "" else "/" +:+ scriptPath).

(** The path that [convertToSuiteCloudPath] examines. *)
Definition normalizedRelative (projectRoot fsPath : string) : string :=
  Str.map slash_of_backslash (path_relative projectRoot fsPath).

(** [convertToSuiteCloudPath(fsPath)] *)
Definition convertToSuiteCloudPath (s : Scm) (fsPath : string) : option string :=
  match scm_projectRoot s with
  | Some (String _ _ as projectRoot) =>
      let relativePath := normalizedRelative projectRoot fsPath in
      if Str.includes "FileCabinet/SuiteScripts" relativePath then
        match Str.split "FileCabinet/SuiteScripts" relativePath with
        | _ :: part1 :: _ => Some (suiteScriptsPath part1)
        | _ => None
        end
      else if Str.includes "SuiteScripts" relativePath then
        match Str.split "SuiteScripts" relativePath with
        | _ :: part1 :: _ => Some (suiteScriptsPath part1)
        | _ => None
        end
      else None
  | _ => None
  end.

Definition invalidPath : CommandResult :=
  {| success := false; output := None;
     error_ := Some "Invalid file path: Not a SuiteScripts file" |}.

(** [uploadFile(uri)] *)
Definition uploadFile (fsPath : string) : ST Scm CommandResult :=
  try_catch
    (s ← get_scm;
     match convertToSuiteCloudPath s fsPath with
     | Some (String _ _ as filePath) =>
         runCommand ("suitecloud file:upload --paths " +:+ quoted filePath)
     | _ => mret invalidPath
     end)
    (fun error =>
       mret {| success := false; output := None;
               error_ := Some ("Upload error: " +:+ message_of error) |}).

(** [importFile(uri)] *)
Definition importFile (fsPath : string) : ST Scm CommandResult :=
  try_catch
    (s ← get_scm;
     match convertToSuiteCloudPath s fsPath with
     | Some (String _ _ as filePath) =>
         runCommand ("suitecloud file:import --paths " +:+ quoted ("/" +:+ filePath))
     | _ => mret invalidPath
     end)
    (fun error =>
       mret {| success := false; output := None;
               error_ := Some ("Import error: " +:+ message_of error) |}).

(** The [try] block of [initialize] that reads [project.json]; [fs] is
    the file system it reads. *)
Definition loadProject (fs : gmap string node) (ws : string) : ST Scm unit :=
  try_catch
    (if Fs.existsSync fs (path_join [ws; "project.json"]) then
       txt ← of_outcome (Fs.readFileUtf8 fs (path_join [ws; "project.json"]));
       match JSON_parse_project txt with
       | Some projectData => set_authId (pd_defaultAuthId projectData)
       | None => throw (Error "Unexpected token in JSON")
       end
     else mret tt)
    (fun _ => mret tt).

(** The [try] block of [initialize] that asks the executable. *)
Definition detectAuthId : ST Scm unit :=
  try_catch
    (result ← exec "suitecloud account:manageauth";
     let stdout := fst result in
     if (negb (is_empty stdout)
         && Str.includes "Account credentials were found" stdout)%bool
     then
       match Regex.match_ID stdout with
       | Some (String _ _ as m1) => set_authId (Some m1)
       | _ => mret tt
       end
     else mret tt)
    (fun _ => mret tt).

(** [initialize()]: project root, then the auth id from
    [project.json], from the settings, and at last from the output of
    the executable. *)
Definition initialize (fs : gmap string node) : ST Scm unit :=
  try_catch
    (match workspaceFolder W with
     | None => mret tt
     | Some ws =>
         _ ← set_projectRoot (Some ws);
         _ ← loadProject fs ws;
         s ← get_scm;
         _ ← (if negb (Str.truthy (scm_authId s))
              then set_authId (defaultAuthId W) else mret tt);
         s ← get_scm;
         if negb (Str.truthy (scm_authId s)) then detectAuthId else mret tt
     end)
    (fun _ => mret tt).

(** *** The longer listing of the class (with [fetchAccountInfo]) *)

Definition accountOfValues (v : AccountValues) : AccountInfo :=
  {| name := Str.or_empty (companyName v);
     id := Str.or_empty (companyId v);
     url := Str.or_empty (netSuiteUrl v) |}.

(** [exec(command, ...).catch(() => ({ stdout: '', stderr: '' }))],
    of which [stdout] is read. *)
Definition exec_stdout (command : string) : ST Scm string :=
  try_catch (result ← exec command; mret (fst result))
            (fun _ => mret EmptyString).

(** One turn of [for (const line of lines)] in [fetchAccountInfo]:
    the current auth id and the account map before and after. *)
Definition fetchLine (st : string * gmap string AccountInfo) (line : string)
  : string * gmap string AccountInfo :=
  let '(currentAuthId, infos) := st in
  match Regex.match_ID line with
  | Some authIdMatch => (authIdMatch, infos)
  | None =>
      if is_empty currentAuthId then st
      else
        let accountNameMatch := Regex.match_field "Account name: " line in
        let accountIdMatch := Regex.match_field "Account ID: " line in
        let accountUrlMatch := Regex.match_field "Account URL: " line in
        match accountNameMatch, accountIdMatch, accountUrlMatch with
        | None, None, None => st
        | _, _, _ =>
            let existingInfo := default emptyAccount (infos !! currentAuthId) in
            let updated :=
              {| name := match accountNameMatch with
                         | Some m => Str.trim m | None => name existingInfo end;
                 id := match accountIdMatch with
                       | Some m => Str.trim m | None => id existingInfo end;
                 url := match accountUrlMatch with
                        | Some m => Str.trim m | None => url existingInfo end |} in
            (currentAuthId, <[currentAuthId := updated]> infos)
        end
  end.

(** [fetchAccountInfo()] *)
Definition fetchAccountInfo : ST Scm unit :=
  try_catch
    (s ← get_scm;
     _ ← match scm_authId s with
         | Some (String _ _ as authId) =>
             stdout ← exec_stdout "suitecloud account:setup --list";
             if is_empty stdout then mret tt
             else
               match match_account_role authId stdout with
               | Some (String _ _ as m1, m2) =>
                   s1 ← get_scm;
                   set_accountInfo
                     (<[authId := {| name := Str.trim m1;
                                     id := if is_empty m2 then EmptyString
                                           else Str.trim m2;
                                     url := EmptyString |}]>
                        (scm_accountInfo s1))
               | _ => mret tt
               end
         | _ => mret tt
         end;
     stdout ← exec_stdout "suitecloud account:manageauth --list";
     if is_empty stdout then mret tt
     else
       s2 ← get_scm;
       set_accountInfo
         (snd (foldl fetchLine (EmptyString, scm_accountInfo s2)
                 (Str.split newline stdout))))
    (fun _ => mret tt).

(** The [try] block of [initialize] that reads [project.json]. *)
Definition loadProject' (fs : gmap string node) (ws : string) : ST Scm unit :=
  try_catch
    (if Fs.existsSync fs (path_join [ws; "project.json"]) then
       txt ← of_outcome (Fs.readFileUtf8 fs (path_join [ws; "project.json"]));
       match JSON_parse_project txt with
       | Some projectData =>
           _ ← set_authId (pd_defaultAuthId projectData);
           match pd_accountSpecificValues projectData with
           | Some values =>
               s0 ← get_scm;
               set_accountInfo
                 ((accountOfValues <$> values) ∪ scm_accountInfo s0)
           | None => mret tt
           end
       | None => throw (Error "Unexpected token in JSON")
       end
     else mret tt)
    (fun _ => mret tt).

(** The [try] block of [initialize] that asks the executable. *)
Definition detectAuthId' : ST Scm unit :=
  try_catch
    (result ← exec "suitecloud account:manageauth --list";
     let stdout := fst result in
     if is_empty stdout then mret tt
     else
       match Regex.match_ID_all stdout with
       | first :: _ =>
           match Regex.match_ID first with
           | Some (String _ _ as m1) =>
               _ ← set_authId (Some m1);
               fetchAccountInfo
           | _ => mret tt
           end
       | [] => mret tt
       end)
    (fun _ => mret tt).

(** [initialize()] of the longer listing. *)
Definition initialize' (fs : gmap string node) : ST Scm unit :=
  try_catch
    (match workspaceFolder W with
     | None => mret tt
     | Some ws =>
         _ ← set_projectRoot (Some ws);
         _ ← loadProject' fs ws;
         s ← get_scm;
         _ ← (if negb (Str.truthy (scm_authId s))
              then set_authId (defaultAuthId W) else mret tt);
         _ ← fetchAccountInfo;
         s ← get_scm;
         if negb (Str.truthy (scm_authId s)) then detectAuthId' else mret tt
     end)
    (fun _ => mret tt).

(** *** What the claims say about these methods *)

(** The auth id that [project.json] gives, if any. *)
Definition projectAuthId (fs : gmap string node) (ws : string) : option string :=
  if Fs.existsSync fs (path_join [ws; "project.json"]) then
    match Fs.readFileUtf8 fs (path_join [ws; "project.json"]) with
    | Ok txt =>
        match JSON_parse_project txt with
        | Some projectData => pd_defaultAuthId projectData
        | None => None
        end
    | Throw _ => None
    end
  else None.

(** No auth id is configured: none in the object, none in
    [project.json], none in the settings. *)
Definition unconfigured (fs : gmap string node) (ws : string) (s : Scm) : Prop :=
  scm_authId s = None
  /\ Str.truthy (projectAuthId fs ws) = false
  /\ Str.truthy (defaultAuthId W) = false.

End SuiteCloudManager.

(* ===================================================================== *)
(** ** The command [suitecloudbackup.uploadFile] (src/extension.ts) *)
(* ===================================================================== *)

(** What the flow does that is seen from outside, in order. *)
Inductive event : Type :=
| EvImport                         (* suiteCloudManager.importFile(uri) *)
| EvUpload                         (* suiteCloudManager.uploadFile(uri) *)
| EvSetupAccount                   (* executeCommand('suitecloud.setupaccount') *)
| EvRefreshAccountInfo             (* suiteCloudManager.refreshAccountInfo() *)
| EvRestore (backupPath : string)  (* step 4: restoreFile(uri, backupPath) *)
| EvEmergencyRestore (backupPath : string)  (* the restore of the catch handler *)
| EvEmergencyRestoreCompleted
| EvEmergencyRestoreFailed.

#[global] Instance event_eq_dec : EqDecision event.
Proof. solve_decision. Defined.

(** The button chosen in the authentication error message. *)
Inductive AuthChoice : Type := RunAuth | ShowDocs.

(** What the surroundings answer during one run of the flow. *)
Record Scenario := {
  (** the four [new Date().toISOString()] of the two [createBackup] calls *)
  now_local1 : string;
  now_local2 : string;
  now_account1 : string;
  now_account2 : string;
  (** the result of [importFile], and what the import wrote over the file *)
  importResult : CommandResult;
  importedContent : option (list byte);
  (** the result of the [n]-th call of [uploadFile] *)
  uploadResult : nat -> CommandResult;
  (** the answer to the authentication error message *)
  authChoice : option AuthChoice;
  (** how [executeCommand('suitecloud.setupaccount')] and
      [refreshAccountInfo()] settle, and what the latter makes of the
      account map *)
  setupAccount : outcome unit;
  refreshAccountInfo : outcome unit;
  refreshedAccounts : gmap string AccountInfo -> gmap string AccountInfo;
  (** the durations within the two restores and the comparison *)
  restoreTiming : RestoreTiming;
  emergencyTiming : RestoreTiming;
  compareTiming : CompareTiming
}.

(** The state of one run: the world, the events so far (oldest first)
    and the two variables declared before the [try]. *)
Record FlowState := {
  fl_world : state;
  fl_trace : list event;
  fl_backupPath : option string;
  fl_accountBackupPath : option string
}.

Abbreviation F := (ST FlowState).

Definition lift {A} (m : M A) : F A :=
  fun st =>
    let '(r, w) := m (fl_world st) in
    (r, {| fl_world := w; fl_trace := fl_trace st;
           fl_backupPath := fl_backupPath st;
           fl_accountBackupPath := fl_accountBackupPath st |}).

Definition emit (e : event) : F unit :=
  fun st =>
    (Ok tt, {| fl_world := fl_world st; fl_trace := (fl_trace st ++ [e])%list;
               fl_backupPath := fl_backupPath st;
               fl_accountBackupPath := fl_accountBackupPath st |}).

Definition set_backupPath (p : string) : F unit :=
  fun st =>
    (Ok tt, {| fl_world := fl_world st; fl_trace := fl_trace st;
               fl_backupPath := Some p;
               fl_accountBackupPath := fl_accountBackupPath st |}).

Definition set_accountBackupPath (p : string) : F unit :=
  fun st =>
    (Ok tt, {| fl_world := fl_world st; fl_trace := fl_trace st;
               fl_backupPath := fl_backupPath st;
               fl_accountBackupPath := Some p |}).

Definition get_flow : F FlowState := fun st => (Ok st, st).

(** [result.error?.includes(needle)] *)
Definition error_includes (needle : string) (r : CommandResult) : bool :=
  match error_ r with
  | Some e => Str.includes needle e
  | None => false
  end.

(** [result.error || fallback] *)
Definition error_or (fallback : string) (r : CommandResult) : string :=
  match error_ r with
  | Some (String _ _ as e) => e
  | _ => fallback
  end.

Definition import_not_found (r : CommandResult) : bool :=
  (error_includes "does not exist in NetSuite" r
   || error_includes "No files were found" r)%bool.

Definition import_auth_error (r : CommandResult) : bool :=
  (error_includes "authentication" r || error_includes "auth" r
   || error_includes "credentials" r)%bool.

Definition upload_auth_error (r : CommandResult) : bool :=
  (error_includes "authentication ID is not available" r
   || error_includes "auth" r || error_includes "credentials" r
   || error_includes "token expired" r || error_includes "token invalid" r
   || error_includes "not authenticated" r)%bool.

Definition count_event (e : event) (tr : list event) : nat :=
  length (filter (fun x => x = e) tr).

Section UploadFileCommand.

Variable path_join : list string -> string.
Variable path_dirname : string -> string.
Variable path_basename : string -> string.
Variable path_relative : string -> string -> string.
Variable JSON_stringify : Metadata -> Utf8.text.
Variable JSON_parse_project : Utf8.text -> option ProjectData.
Variable W : Workspace.
Variable B : BackupManager.
Variable sc : Scenario.

Local Abbreviation createBackup' :=
  (createBackup path_join path_dirname path_basename path_relative
     JSON_stringify JSON_parse_project W B).
Local Abbreviation restoreFile' := (restoreFile path_dirname).

(** [await suiteCloudManager.importFile(uri)] *)
Definition callImport (uri : string) : F CommandResult :=
  _ ← emit EvImport;
  _ ← lift (fs_update (fun fs =>
         Ok (match importedContent sc with
             | Some c => <[uri := NFile c]> fs
             | None => fs
             end)));
  mret (importResult sc).

(** [await suiteCloudManager.uploadFile(uri)] *)
Definition callUpload : F CommandResult :=
  st ← get_flow;
  _ ← emit EvUpload;
  mret (uploadResult sc (count_event EvUpload (fl_trace st))).

(** The handling of an authentication error, the same after a failed
    import and after a failed upload: on [RunAuth] the account setup
    is run, the account information refreshed and the upload tried
    (again); whatever happens, the flow then returns. *)
Definition authRecovery : F unit :=
  match authChoice sc with
  | Some RunAuth =>
      try_catch
        (_ ← emit EvSetupAccount;
         _ ← of_outcome (setupAccount sc);
         _ ← emit EvRefreshAccountInfo;
         _ ← of_outcome (refreshAccountInfo sc);
         _ ← lift (fun s =>
                (Ok tt, {| st_fs := st_fs s;
                           st_accounts := refreshedAccounts sc (st_accounts s);
                           st_faults := st_faults s |}));
         retryResult ← callUpload;
         mret tt)
        (fun setupErr => mret tt)
  | Some ShowDocs => mret tt
  | None => mret tt
  end.

(** Step 6: the size check on the account backup and the comparison. *)
Definition compareVersions (backupPath : string) : F bool :=
  st ← get_flow;
  match fl_accountBackupPath st with
  | Some (String _ _ as accountBackupPath) =>
      accountStats ← lift (fs_read (fun fs => Fs.stat fs accountBackupPath));
      lift (compareFiles backupPath accountBackupPath (compareTiming sc))
  | _ => mret false
  end.

(** The [try] block of the progress callback. *)
Definition uploadFlow_try (uri : string) : F unit :=
  backupPath ← lift (createBackup' uri local (now_local1 sc) (now_local2 sc));
  _ ← set_backupPath backupPath;
  _ ← throw_if (is_empty backupPath) "Failed to create local backup";
  importResult ← callImport uri;
  if negb (success importResult) then
    if import_not_found importResult then
      uploadResult ← callUpload;
      if negb (success uploadResult)
      then throw (Error (error_or "Unknown error during upload" uploadResult))
      else mret tt
    else if import_auth_error importResult then authRecovery
    else throw (Error (error_or "Unknown error" importResult))
  else
    accountBackupPath ← lift (createBackup' uri account (now_account1 sc) (now_account2 sc));
    _ ← set_accountBackupPath accountBackupPath;
    _ ← throw_if (is_empty accountBackupPath) "Failed to create account backup";
    ex ← lift (fs_read (fun fs => Ok (Fs.existsSync fs backupPath)));
    _ ← throw_if (negb ex) ("Local backup file not found: " +:+ backupPath);
    _ ← emit (EvRestore backupPath);
    _ ← lift (restoreFile' uri backupPath (restoreTiming sc));
    uploadResult ← callUpload;
    if negb (success uploadResult) then
      if upload_auth_error uploadResult then authRecovery
      else throw (Error (error_or "Unknown error" uploadResult))
    else
      hasDifferences ← compareVersions backupPath;
      mret tt.

(** The [catch] handler of the progress callback: the emergency
    restore, then the error is thrown on. *)
Definition uploadFlow_catch (uri : string) (error : error) : F unit :=
  st ← get_flow;
  _ ← match fl_backupPath st with
      | Some (String _ _ as backupPath) =>
          try_catch
            (_ ← emit (EvEmergencyRestore backupPath);
             _ ← lift (restoreFile' uri backupPath (emergencyTiming sc));
             emit EvEmergencyRestoreCompleted)
            (fun restoreError => emit EvEmergencyRestoreFailed)
      | _ => mret tt
      end;
  throw error.

(** The progress callback of the command. *)
Definition uploadFlow (uri : string) : F unit :=
  try_catch (uploadFlow_try uri) (uploadFlow_catch uri).

End UploadFileCommand.

(** The state in which a run of the flow starts. *)
Definition flow_start (w : state) : FlowState :=
  {| fl_world := w; fl_trace := [];
     fl_backupPath := None; fl_accountBackupPath := None |}.

(* ===================================================================== *)
(** ** Concrete surroundings, to run the model on examples *)
(* ===================================================================== *)

(** [path.posix] on absolute paths without repeated slashes. *)
Module Posix.

Definition sep : string := "/".

Definition nonempty (s : string) : bool := negb (is_empty s).

(** The segments of a path, [.] and empty ones dropped and [..]
    resolved; the result is in reverse order. *)
Fixpoint resolve (absolute : bool) (stack segs : list string) : list string :=
  match segs with
  | [] => stack
  | seg :: rest =>
      if (is_empty seg || String.eqb seg ".")%bool then resolve absolute stack rest
      else if String.eqb seg ".." then
        match stack with
        | top :: below =>
            if String.eqb top ".." then resolve absolute (seg :: stack) rest
            else resolve absolute below rest
        | [] =>
            if absolute then resolve absolute [] rest
            else resolve absolute [seg] rest
        end
      else resolve absolute (seg :: stack) rest
  end.

Definition segments (p : string) : list string :=
  rev (resolve (Str.startsWith "/" p) [] (Str.split "/" p)).

Definition normalize (p : string) : string :=
  if is_empty p then "."
  else
    let absolute := Str.startsWith "/" p in
    let trailing := Str.endsWith "/" p in
    let body := Str.join "/" (segments p) in
    if is_empty body then
      if absolute then "/" else if trailing then "./" else "."
    else
      (if absolute then "/" else EmptyString)
        +:+ body +:+ (if trailing then "/" else EmptyString).

Definition join (parts : list string) : string :=
  let joined := Str.join "/" (List.filter nonempty parts) in
  if is_empty joined then "." else normalize joined.

Fixpoint drop_empty (l : list string) : list string :=
  match l with
  | s :: l' => if is_empty s then drop_empty l' else l
  | [] => []
  end.

(** The segments of a path as written, trailing slashes ignored. *)
Definition written (p : string) : list string :=
  rev (drop_empty (rev (Str.split "/" p))).

Definition dirname (p : string) : string :=
  let dir := Str.join "/" (removelast (written p)) in
  if is_empty dir then
    if Str.startsWith "/" p then "/" else "."
  else dir.

Definition basename (p : string) : string :=
  List.last (written p) EmptyString.

Fixpoint strip_common (xs ys : list string) : list string * list string :=
  match xs, ys with
  | x :: xs', y :: ys' =>
      if String.eqb x y then strip_common xs' ys' else (xs, ys)
  | _, _ => (xs, ys)
  end.

Definition relative (from to : string) : string :=
  let '(up, down) := strip_common (segments from) (segments to) in
  Str.join "/" (List.map (fun _ => "..") up ++ down)%list.

End Posix.

(** [JSON.stringify(metadata, null, 2)]. *)
Module Json.

Definition hex_digit (n : N) : ascii :=
  ascii_of_N (if (n <? 10)%N then 48 + n else 87 + n).

(** A character inside a JSON string. *)
Definition escape (a : ascii) : string :=
  let n := N_of_ascii a in
  if (n =? 34)%N then String "\" (String a EmptyString)
  else if (n =? 92)%N then "\\"
  else if (n =? 8)%N then "\b"
  else if (n =? 9)%N then "\t"
  else if (n =? 10)%N then "\n"
  else if (n =? 12)%N then "\f"
  else if (n =? 13)%N then "\r"
  else if (n <? 32)%N then
    "\u00" +:+ String (hex_digit (n / 16)) (String (hex_digit (n mod 16)) EmptyString)
  else String a EmptyString.

Fixpoint escaped (s : string) : string :=
  match s with
  | EmptyString => EmptyString
  | String a s' => escape a +:+ escaped s'
  end.

Definition str (s : string) : string := quoted (escaped s).

Definition member (indent key value : string) : string :=
  indent +:+ quoted key +:+ ": " +:+ value.

Definition stringify (m : Metadata) : Utf8.text :=
  let nl := newline in
  Utf8.of_string
    ("{" +:+ nl
     +:+ member "  " "originalFile" (str (originalFile m)) +:+ "," +:+ nl
     +:+ member "  " "timestamp" (str (timestamp m)) +:+ "," +:+ nl
     +:+ member "  " "source" (str (source_name (source m))) +:+ "," +:+ nl
     +:+ member "  " "authId" (str (authId m)) +:+ "," +:+ nl
     +:+ member "  " "relativePath" (str (relativePath m)) +:+ "," +:+ nl
     +:+ member "  " "accountInfo" "{" +:+ nl
     +:+ member "    " "name" (str (name (accountInfo m))) +:+ "," +:+ nl
     +:+ member "    " "id" (str (id (accountInfo m))) +:+ "," +:+ nl
     +:+ member "    " "url" (str (url (accountInfo m))) +:+ nl
     +:+ "  }" +:+ nl
     +:+ "}").

(** [JSON.parse] on what [stringify] writes: the members that are
    strings are looked up by their keys and read up to the closing
    quote, the escapes undone. *)
Definition unhex (a : ascii) : N :=
  let n := N_of_ascii a in
  (if n <? 58 then n - 48 else n - 87)%N.

Definition unescape (c : ascii) : ascii :=
  if Ascii.eqb c "b" then "008"
  else if Ascii.eqb c "t" then "009"
  else if Ascii.eqb c "n" then "010"
  else if Ascii.eqb c "f" then "012"
  else if Ascii.eqb c "r" then "013"
  else c.

Fixpoint unquote (s : string) : option string :=
  match s with
  | EmptyString => None
  | String a rest =>
      if Ascii.eqb a "034" then Some EmptyString
      else if Ascii.eqb a "\" then
        match rest with
        | String c rest' =>
            if Ascii.eqb c "u" then
              match rest' with
              | String _ (String _ (String h (String l rest''))) =>
                  option_map (String (ascii_of_N (16 * unhex h + unhex l)))
                    (unquote rest'')
              | _ => None
              end
            else option_map (String (unescape c)) (unquote rest')
        | EmptyString => None
        end
      else option_map (String a) (unquote rest)
  end.

Definition string_member (key s : string) : option string :=
  match Str.split (quoted key +:+ ": " +:+ String "034" EmptyString) s with
  | _ :: after :: _ => unquote after
  | _ => None
  end.

Definition to_string (t : Utf8.text) : string :=
  fold_right (fun c s => String (ascii_of_N c) s) EmptyString t.

Definition parse_sidecar (t : Utf8.text) : option Sidecar :=
  let s := to_string t in
  if Str.startsWith "{" s then
    Some {| sc_originalFile := string_member "originalFile" s;
            sc_timestamp := string_member "timestamp" s;
            sc_authId := string_member "authId" s;
            sc_accountInfo :=
              match Str.split (quoted "accountInfo" +:+ ": {") s with
              | _ :: inner :: _ =>
                  Some (string_member "name" inner, string_member "id" inner,
                        string_member "url" inner)
              | _ => None
              end |}
  else None.

End Json.

(** A workspace at [/w] with the auth id in the settings, a manager with
    the default backup directory, and a run of the clock. *)
Module Sample.

Definition W : Workspace :=
  {| workspaceFolder := Some "/w"; defaultAuthId := Some "auth1" |}.

Definition B : BackupManager :=
  {| baseBackupDir := "/w/backups"; suiteCloudManager := false |}.

Definition t1 : string := "2024-05-06T07:08:09.123Z".
Definition t2 : string := "2024-05-06T07:08:09.124Z".
Definition t3 : string := "2024-05-06T07:08:11.500Z".
Definition t4 : string := "2024-05-06T07:08:11.501Z".

Definition no_project (_ : Utf8.text) : option ProjectData := None.
Definition no_sidecar (_ : Utf8.text) : option Sidecar := None.

(** A file system holding one file under the workspace. *)
Definition world (uri : string) (content : list byte) : state :=
  {| st_fs := {[ "/w" := NDir; uri := NFile content ]}; st_accounts := ∅;
     st_faults := Fs.no_faults |}.

Definition instant : RestoreTiming :=
  {| t_stat := 1; t_copy := 1; t_read := 1; t_write := 1 |}.

Definition createBackup :=
  createBackup Posix.join Posix.dirname Posix.basename Posix.relative
    Json.stringify no_project W B.

Definition restoreFile := restoreFile Posix.dirname.

Definition compareFiles := compareFiles.

End Sample.

(* ===================================================================== *)
(** ** Notions the statements are phrased in *)
(* ===================================================================== *)

(** Apart from the paths in [l], the file system [fs'] is [fs] with
    some new directories. *)
Definition kept_but (l : list string) (fs fs' : gmap string node) : Prop :=
  forall q, q ∉ l -> fs' !! q = fs !! q \/ (fs !! q = None /\ fs' !! q = Some NDir).

(** The file at [p] holds well-formed UTF-8. *)
Definition well_formed_at (fs : gmap string node) (p : string) : Prop :=
  exists c, Fs.content fs p = Some c /\ Utf8.clean c.

(** The versions listed under a key. *)
Definition versions (backups : gmap string (list BackupEntry)) (k : string)
  : list BackupEntry :=
  default [] (backups !! k).

(** A step of a loop that records, under each key, the versions that
    [R] relates to the element it is run on, and keeps the others. *)
Definition records {X} (R : X -> string -> BackupEntry -> Prop)
    (step : X -> gmap string (list BackupEntry)
            -> outcome (gmap string (list BackupEntry))) (x : X) : Prop :=
  forall b, exists b',
    step x b = Ok b'
    /\ forall k e, e ∈ versions b' k <-> R x k e \/ e ∈ versions b k.

(** The command of the later listing's detection. *)
Definition manageauth_list : string := "suitecloud account:manageauth --list".

(* ===================================================================== *)
(** ** Sample data *)
(* ===================================================================== *)

Module Demo.

Definition a_js : string := "/w/a.js".

(** The path [createBackup] gives the local backup of [a_js] taken at
    [Sample.t1] under the auth id [auth1]. *)
Definition local_backup : string :=
  "/w/backups/auth1/local/a.js.2024-05-06T07-08-09-123Z.bak".

(** The text [hi]; the one byte 0xFF, which is no UTF-8; and U+FFFD as
    UTF-8, which is what reading 0xFF as ['utf8'] and writing it back
    gives. *)
Definition hi : list byte := [x68; x69].
Definition ho : list byte := [x68; x6f].
Definition ill_formed : list byte := [xff].
Definition ill_formed' : list byte := [xfe].
Definition replaced : list byte := [xef; xbf; xbd].

Definition two_files (c1 c2 : list byte) : state :=
  {| st_fs := {[ "/w" := NDir; "/w/a.js" := NFile c1; "/w/b.js" := NFile c2 ]};
     st_accounts := ∅; st_faults := Fs.no_faults |}.

Definition prompt : CompareTiming := {| c_read1 := 1; c_read2 := 1 |}.
Definition stalled : CompareTiming := {| c_read1 := 120001; c_read2 := 1 |}.
Definition slow_read : RestoreTiming :=
  {| t_stat := 1; t_copy := 1; t_read := 120001; t_write := 1 |}.
Definition slow_write : RestoreTiming :=
  {| t_stat := 1; t_copy := 1; t_read := 1; t_write := 120001 |}.

(** What a file system may refuse: to open [a_js] for writing, as for
    a file that is read-only; or every copy, so that [restoreFile]
    falls back on the read and the write. And the sample world on a
    file system that refuses these. *)
Definition read_only : Fs.Faults :=
  {| Fs.refuse_write := fun p =>
       if String.eqb p a_js
       then Some (Error "EACCES: permission denied, open '/w/a.js'")
       else None;
     Fs.refuse_copy := fun _ _ => None;
     Fs.refuse_mkdir := fun _ => None |}.

Definition no_copy : Fs.Faults :=
  {| Fs.refuse_write := fun _ => None;
     Fs.refuse_copy := fun _ _ =>
       Some (Error "EPERM: operation not permitted, copyfile");
     Fs.refuse_mkdir := fun _ => None |}.

Definition world_on (faults : Fs.Faults) (content : list byte) : state :=
  {| st_fs := st_fs (Sample.world a_js content); st_accounts := ∅;
     st_faults := faults |}.

(** A workspace without an auth id in the settings, a manager that has
    just been constructed, and an executable that prints the same
    listing whatever it is asked. *)
Definition W0 : Workspace :=
  {| workspaceFolder := Some "/w"; defaultAuthId := None |}.

Definition scm0 : Scm :=
  {| scm_authId := None; scm_projectRoot := None;
     scm_accountInfo := ∅; scm_commands := [] |}.

Definition scm_w : Scm :=
  {| scm_authId := Some "auth1"; scm_projectRoot := Some "/w";
     scm_accountInfo := ∅; scm_commands := [] |}.

Definition listing : string :=
  "Account credentials were found" +:+ newline +:+ "prod | ID: prod1 role".

Definition cli (n : nat) (command : string) : ExecResult :=
  ExecDone listing EmptyString.

(** A listing of one account, in the form that the patterns of
    [fetchAccountInfo] look for. *)
Definition account_listing : string :=
  "Authentication ID: dev" +:+ newline
  +:+ "Account name: Acme" +:+ newline
  +:+ "Account ID: 1234567" +:+ newline
  +:+ "Account URL: https://1234567.app.netsuite.com".

Definition no_role (_ _ : string) : option (string * string) := None.

Definition initialize :=
  initialize Posix.join Sample.no_project W0 cli.

Definition initialize' :=
  initialize' Posix.join Sample.no_project W0 cli no_role.

Definition uploadFile := uploadFile Posix.relative cli.
Definition importFile := importFile Posix.relative cli.

(** A path with no segment [SuiteScripts], but with that text in it. *)
Definition old_scripts : string := "/w/src/MySuiteScriptsOld/a.js".

(** [path.split('/').includes(seg)] *)
Definition has_segment (seg path : string) : bool :=
  bool_decide (seg ∈ Str.split "/" path).

(** The method settled with a result that has [success = true]. *)
Definition succeeded (r : outcome CommandResult) : bool :=
  match r with
  | Ok c => success c
  | Throw _ => false
  end.

(** Runs of the command. In [import_fails] the import fails with an
    error that is neither "not found" nor taken for an authentication
    error. In [upload_fails_auth] the import goes through, the first
    upload fails with an error taken for an authentication error, the
    user chooses the authentication setup, and the second upload goes
    through. *)
Definition failed (msg : string) : CommandResult :=
  {| success := false; output := None; error_ := Some msg |}.

Definition done_ : CommandResult :=
  {| success := true; output := Some EmptyString; error_ := None |}.

Definition import_fails : Scenario :=
  {| now_local1 := Sample.t1; now_local2 := Sample.t2;
     now_account1 := Sample.t3; now_account2 := Sample.t4;
     importResult := failed "Connection reset";
     importedContent := None;
     uploadResult := fun _ => done_;
     authChoice := None;
     setupAccount := Ok tt; refreshAccountInfo := Ok tt;
     refreshedAccounts := fun m => m;
     restoreTiming := Sample.instant; emergencyTiming := Sample.instant;
     compareTiming := prompt |}.

Definition upload_fails_auth : Scenario :=
  {| now_local1 := Sample.t1; now_local2 := Sample.t2;
     now_account1 := Sample.t3; now_account2 := Sample.t4;
     importResult := done_;
     importedContent := Some ho;
     uploadResult := fun n =>
       match n with
       | 0 => failed "The token expired"
       | _ => done_
       end;
     authChoice := Some RunAuth;
     setupAccount := Ok tt; refreshAccountInfo := Ok tt;
     refreshedAccounts := fun m => m;
     restoreTiming := Sample.instant; emergencyTiming := Sample.instant;
     compareTiming := prompt |}.

Definition uploadFlow (sc : Scenario) (content : list byte) :=
  uploadFlow Posix.join Posix.dirname Posix.basename Posix.relative
    Json.stringify Sample.no_project Sample.W Sample.B sc a_js
    (flow_start (Sample.world a_js content)).

(** A backup directory holding the local backup of [a_js], as
    [readdir] shows it, and a file system to go with it. *)
Definition tree : list dirent :=
  [DirentDir "auth1"
     (Some [DirentDir "local"
              (Some [DirentFile "a.js.2024-05-06T07-08-09-123Z.bak";
                     DirentFile "a.js.2024-05-06T07-08-09-123Z.bak.meta.json"])])].

Definition backed_up : gmap string node :=
  st_fs (snd (Sample.createBackup a_js local Sample.t1 Sample.t2
                (Sample.world a_js hi))).

Definition listBackups :=
  listBackups Posix.join Posix.dirname Posix.basename Posix.relative Posix.sep
    Json.parse_sidecar Sample.W Sample.B.

End Demo.

(* ===================================================================== *)
(** ** Further notions the statements are phrased in *)
(* ===================================================================== *)

(** The last character of a string. *)
Fixpoint last_char (s : string) : option ascii :=
  match s with
  | EmptyString => None
  | String a EmptyString => Some a
  | String _ s' => last_char s'
  end.

(** A string without any of the separators [-], [:] and [.]: a run of
    digits is one. *)
Fixpoint plain (s : string) : bool :=
  match s with
  | EmptyString => true
  | String a s' =>
      (negb (Ascii.eqb a "-" || Ascii.eqb a ":" || Ascii.eqb a ".") && plain s')%bool
  end.

(** The text [YYYY-MM-DDTHH:mm:ss.sssZ] that [toISOString()] gives,
    from its fields, and the same with another character before the
    milliseconds. *)
Definition stamp (ms_sep : string) (y mo d h mi sec ms : string) : string :=
  y +:+ "-" +:+ mo +:+ "-" +:+ d +:+ "T" +:+ h +:+ ":" +:+ mi +:+ ":" +:+ sec
    +:+ ms_sep +:+ ms +:+ "Z".

Definition iso (y mo d h mi sec ms : string) : string := stamp "." y mo d h mi sec ms.

(** The fields have the widths of the ISO format (years 0000 to 9999)
    and hold no separator. *)
Definition iso_fields (y mo d h mi sec ms : string) : Prop :=
  String.length y = 4 /\ String.length mo = 2 /\ String.length d = 2
  /\ String.length h = 2 /\ String.length mi = 2 /\ String.length sec = 2
  /\ String.length ms = 3
  /\ plain y = true /\ plain mo = true /\ plain d = true /\ plain h = true
  /\ plain mi = true /\ plain sec = true /\ plain ms = true.

(** Content made of bytes below 128 only, as a source file in plain
    ASCII is. *)
Definition ascii_only (bs : list byte) : bool :=
  forallb (fun b => (Byte.to_N b <? 128)%N) bs.

(** A Unicode scalar value: a code point that is no surrogate. *)
Definition scalar (c : N) : Prop := (c < 1114112 /\ ~ (55296 <= c <= 57343))%N.

(** A sequence under way that can only end in a scalar value, whatever
    bytes of the ranges allowed come. *)
Fixpoint ends_scalar (need : nat) (acc lo hi : N) : Prop :=
  match need with
  | S (S _ as more) =>
      forall b, (lo <= b <= hi)%N -> ends_scalar more (acc * 64 + (b - 128)) 128 191
  | _ => forall b, (lo <= b <= hi)%N -> scalar (acc * 64 + (b - 128))
  end.

Definition on_course (st : option Utf8.pending) : Prop :=
  match st with
  | None => True
  | Some p => ends_scalar (Utf8.need p) (Utf8.acc p) (Utf8.lo p) (Utf8.hi p)
  end.

(** What [runCommand] makes of the way the executable ends, and the
    manager after it has handed over one more command. *)
Definition resultOf (r : ExecResult) : CommandResult :=
  match r with
  | ExecDone stdout _ => {| success := true; output := Some stdout; error_ := None |}
  | ExecFailed e =>
      {| success := false;
         output := match e with ExecError _ stderr => stderr | Error _ => None end;
         error_ := Some (message_of e) |}
  end.

Definition ran (s : Scm) (command : string) : Scm :=
  {| scm_authId := scm_authId s; scm_projectRoot := scm_projectRoot s;
     scm_accountInfo := scm_accountInfo s;
     scm_commands := (scm_commands s ++ [command])%list |}.

(* ===================================================================== *)
(** ** [class BackupExplorer] (src/backupExplorer.ts) *)
(* ===================================================================== *)

(** [`${n}`] for an integer [n] *)
Definition decimal (z : Z) : string := NilZero.string_of_int (Z.to_int z).

(** [formatTimeAgo(date)]: [now] is what [new Date().getTime()] gives,
    [date] what [date.getTime()] gives, in milliseconds, [None] being
    the [NaN] of an invalid date, for which every comparison of the
    method is false. [Math.floor(x / k)] is the division of [Z]. *)
Definition formatTimeAgo (now : Z) (date : option Z) : string :=
  match date with
  | None => "just now"
  | Some t =>
      let diffMs := (now - t)%Z in
      let diffSecs := (diffMs / 1000)%Z in
      let diffMins := (diffSecs / 60)%Z in
      let diffHours := (diffMins / 60)%Z in
      let diffDays := (diffHours / 24)%Z in
      if (0 <? diffDays)%Z then
        if (diffDays =? 1)%Z then "yesterday" else decimal diffDays +:+ " days ago"
      else if (0 <? diffHours)%Z then
        decimal diffHours +:+ " hour" +:+ (if (diffHours =? 1)%Z then "" else "s")
          +:+ " ago"
      else if (0 <? diffMins)%Z then
        decimal diffMins +:+ " minute" +:+ (if (diffMins =? 1)%Z then "" else "s")
          +:+ " ago"
      else "just now"
  end.

(** [a > b] on two [Date]s, by their time values. *)
Definition later (a b : option Z) : bool :=
  match a, b with
  | Some x, Some y => (y <? x)%Z
  | _, _ => false
  end.

(** [backups.reduce((latest, current) =>
       current.timestamp > latest.timestamp ? current : latest)]
    of [getFileNodes], which calls it on a list that is not empty;
    [time] gives the time value of a backup's [timestamp]. *)
Definition latestBackup {A} (time : A -> option Z) (backups : list A) : option A :=
  match backups with
  | [] => None
  | first :: rest =>
      Some (fold_left
              (fun latest current =>
                 if later (time current) (time latest) then current else latest)
              rest first)
  end.

(* ===================================================================== *)
(** ** [SuiteCloudManager], longer listing: the module path and the
       conversion of paths (src/unnamed/part_002) *)
(* ===================================================================== *)

Section NodePath.

Variable path_join : list string -> string.
Variable path_dirname : string -> string.

(** [findNearestNodeModules(startPath)]. The [while] loop is run for at
    most [fuel] turns; the outer [None] says that it was still running
    then, [Some None] that it ended with [null]. *)
Fixpoint findNearestNodeModules (fuel : nat) (fs : gmap string node)
    (currentPath : string) : option (option string) :=
  match fuel with
  | O => None
  | S fuel' =>
      if is_empty currentPath then Some None
      else
        let nodeModulesPath := path_join [currentPath; "node_modules"] in
        if Fs.existsSync fs nodeModulesPath then Some (Some nodeModulesPath)
        else
          let parentPath := path_dirname currentPath in
          if String.eqb parentPath currentPath then Some None
          else findNearestNodeModules fuel' fs parentPath
  end.

(** [!env.NODE_PATH?.includes(p)] *)
Definition lacks (NODE_PATH : option string) (p : string) : bool :=
  match NODE_PATH with
  | Some v => negb (Str.includes p v)
  | None => true
  end.

(** [p + (env.NODE_PATH ? delimiter + env.NODE_PATH : '')] *)
Definition prepend (delimiter p : string) (NODE_PATH : option string) : string :=
  p +:+ match NODE_PATH with
        | Some (String _ _ as v) => delimiter +:+ v
        | _ => EmptyString
        end.

(** [setupNodePath(env, projectRoot)], of which the [NODE_PATH] of the
    environment returned is given; [customPath] is the setting
    [customNodeModulesPath] and [win32] says whether [process.platform]
    is ['win32']. The outer [None]: the search was still running after
    [fuel] turns. *)
Definition setupNodePath (customPath : option string) (win32 : bool) (fuel : nat)
    (fs : gmap string node) (NODE_PATH : option string) (projectRoot : string)
  : option (option string) :=
  let delimiter := if win32 then ";" else ":" in
  match customPath with
  | Some (String _ _ as customPath) =>
      if Fs.existsSync fs customPath then
        if lacks NODE_PATH customPath
        then Some (Some (prepend delimiter customPath NODE_PATH))
        else Some NODE_PATH
      else
        match findNearestNodeModules fuel fs projectRoot with
        | None => None
        | Some (Some (String _ _ as projectNodeModules)) =>
            if lacks NODE_PATH projectNodeModules
            then Some (Some (prepend delimiter projectNodeModules NODE_PATH))
            else Some NODE_PATH
        | Some _ => Some NODE_PATH
        end
  | _ =>
      match findNearestNodeModules fuel fs projectRoot with
      | None => None
      | Some (Some (String _ _ as projectNodeModules)) =>
          if lacks NODE_PATH projectNodeModules
          then Some (Some (prepend delimiter projectNodeModules NODE_PATH))
          else Some NODE_PATH
      | Some _ => Some NODE_PATH
      end
  end.

(** The [k]-th directory above [p]. *)
Definition above (k : nat) (p : string) : string := Nat.iter k path_dirname p.

(** Where the walk up the tree stops: at an empty path, or at a
    directory that is its own parent. *)
Definition top (p : string) : Prop := p = EmptyString \/ path_dirname p = p.

End NodePath.

Section ConvertLonger.

Variable path_relative : string -> string -> string.
Variable path_isAbsolute : string -> bool.

(** [!result] on [string | null] *)
Definition unset (result : option string) : bool := negb (Str.truthy result).

(** [convertToSuiteCloudPath(fsPath)] of the longer listing. The result
    may be the empty string, which the callers treat as [null]. *)
Definition convertToSuiteCloudPath2 (s : Scm) (fsPath : string) : option string :=
  match scm_projectRoot s with
  | Some (String _ _ as projectRoot) =>
      let relativePath := Str.map slash_of_backslash (path_relative projectRoot fsPath) in
      let result :=
        if Str.startsWith "src/FileCabinet/" relativePath
        then Some (Str.drop (String.length "src/FileCabinet/") relativePath)
        else if Str.startsWith "FileCabinet/" relativePath
        then Some (Str.drop (String.length "FileCabinet/") relativePath)
        else None in
      let result :=
        if (unset result && Str.includes "/FileCabinet/" relativePath)%bool then
          match Str.split "/FileCabinet/" relativePath with
          | _ :: part1 :: _ => Some part1
          | _ => result
          end
        else result in
      let result :=
        if unset result then
          if (negb (Str.startsWith "." relativePath)
              && negb (path_isAbsolute relativePath))%bool
          then Some relativePath
          else None
        else result in
      match result with
      | None => None
      | Some result =>
          if Str.includes "SuiteScripts" result then
            if Str.startsWith "SuiteScripts/" result then Some ("/" +:+ result)
            else if negb (Str.startsWith "/" result) then
              match Str.split "SuiteScripts/" result with
              | part0 :: _ :: _ =>
                  if is_empty part0 then Some result else Some ("/" +:+ result)
              | _ => Some result
              end
            else Some result
          else Some result
      end
  | _ => None
  end.

End ConvertLonger.

(* ===================================================================== *)
(** ** The command [suitecloudbackup.restoreBackup] (src/extension.ts) *)
(* ===================================================================== *)

(** The argument of the command, as far as it is read, and the message
    the command shows. *)
Record BackupArg := { ba_backupPath : option string; ba_targetPath : option string }.

Inductive Notice : Type :=
| ShowError (message : string)
| ShowInformation (message : string).

Section RestoreBackupCommand.

Variable path_dirname : string -> string.
Variable path_basename : string -> string.

(** [vscode.Uri.file(p).fsPath] *)
Variable Uri_file_fsPath : string -> string.

(** The callback of the command. *)
Definition restoreBackupCommand (backup : option BackupArg) (tm : RestoreTiming)
  : M Notice :=
  try_catch
    (match backup with
     | None => mret (ShowError "Failed to restore backup: Invalid backup data")
     | Some backup =>
         match ba_backupPath backup with
         | Some (String _ _ as backupPath) =>
             match ba_targetPath backup with
             | Some (String _ _ as targetPath) =>
                 ex ← fs_read (fun fs => Ok (Fs.existsSync fs backupPath));
                 if negb ex then
                   mret (ShowError ("Backup file not found: "
                                      +:+ path_basename backupPath))
                 else
                   _ ← restoreFile path_dirname (Uri_file_fsPath targetPath)
                         backupPath tm;
                   mret (ShowInformation ("Backup restored: "
                                            +:+ path_basename targetPath))
             | _ => mret (ShowError "Failed to restore backup: Missing target file path")
             end
         | _ => mret (ShowError "Failed to restore backup: Missing backup file path")
         end
     end)
    (fun error =>
       mret (ShowError ("Failed to restore backup: " +:+ message_of error))).

End RestoreBackupCommand.

(* ===================================================================== *)
(** ** [class BackupManager], first listing (src/backupManager.ts), and
       the first listing of the command [suitecloudbackup.uploadFile]
       (src/unnamed/part_003) *)
(* ===================================================================== *)

(** The metadata of the first listing: no account information. *)
Record Metadata1 := {
  originalFile1 : string;
  timestamp1 : string;
  source1 : Source;
  authId1 : string;
  relativePath1 : string
}.

(** [`${x}`] for a string that may be [undefined] *)
Definition template (o : option string) : string :=
  match o with
  | Some s => s
  | None => "undefined"
  end.

(** The message a command shows last. *)
Inductive Shown : Type :=
| Information (message : string)
| Warning (message : string)
| ErrorMessage (message : string).

Section BackupManager1.

Variable path_join : list string -> string.
Variable path_dirname : string -> string.
Variable path_basename : string -> string.
Variable path_relative : string -> string -> string.
Variable JSON_stringify1 : Metadata1 -> Utf8.text.
Variable JSON_parse_project : Utf8.text -> option ProjectData.
Variable W : Workspace.
Variable B : BackupManager.

(** [getRelativePath] *)
Definition getRelativePath1 (filePath : string) : string :=
  match workspaceFolder W with
  | None => filePath
  | Some workspaceRoot => path_relative workspaceRoot filePath
  end.

Definition backupPathOf1 (authId uri : string) (source : Source) (now : string)
  : string :=
  let relativePath := getRelativePath1 uri in
  let fileDir := path_dirname relativePath in
  let fileName := path_basename relativePath in
  let backupDir := path_join [baseBackupDir B; authId; source_name source; fileDir] in
  let timestamp := Str.map dash_colon_dot now in
  let backupFileName := fileName +:+ "." +:+ timestamp +:+ ".bak" in
  path_join [backupDir; backupFileName].

(** [createBackup(uri, source)]; [getAuthId] and [ensureDirectoryExists]
    are those of the second listing, word for word. *)
Definition createBackup1 (uri : string) (source : Source) (now1 now2 : string)
  : M string :=
  try_catch
    (authId ← getAuthId path_join JSON_parse_project W;
     _ ← throw_if (negb (Str.truthy authId)) "No authentication ID found";
     let authId := Str.or_empty authId in
     let relativePath := getRelativePath1 uri in
     let fileDir := path_dirname relativePath in
     let backupDir := path_join [baseBackupDir B; authId; source_name source; fileDir] in
     _ ← ensureDirectoryExists path_dirname backupDir;
     let backupPath := backupPathOf1 authId uri source now1 in
     let metadataPath := backupPath +:+ ".meta.json" in
     let metadata :=
       {| originalFile1 := uri; timestamp1 := now2; source1 := source;
          authId1 := authId; relativePath1 := relativePath |} in
     fileContent ← fs_read (fun fs => Fs.readFileUtf8 fs uri);
     _ ← fs_change (fun faults fs =>
            Fs.writeFile path_dirname faults fs backupPath (Utf8.encode fileContent));
     _ ← fs_change (fun faults fs =>
            Fs.writeFile path_dirname faults fs metadataPath
              (Utf8.encode (JSON_stringify1 metadata)));
     mret backupPath)
    (fun e => throw (Error ("Failed to create backup: " +:+ message_of e))).

(** [restoreFile(targetUri, backupPath)] *)
Definition restoreFile1 (target backupPath : string) : M unit :=
  try_catch
    (backupContent ← fs_read (fun fs => Fs.readFileUtf8 fs backupPath);
     fs_change (fun faults fs =>
       Fs.writeFile path_dirname faults fs target (Utf8.encode backupContent)))
    (fun e => throw (Error ("Failed to restore file: " +:+ message_of e))).

(** [compareFiles(file1Path, file2Path)] *)
Definition compareFiles1 (file1Path file2Path : string) : M bool :=
  try_catch
    (content1 ← fs_read (fun fs => Fs.readFileUtf8 fs file1Path);
     content2 ← fs_read (fun fs => Fs.readFileUtf8 fs file2Path);
     mret (bool_decide (content1 ≠ content2)))
    (fun e => throw (Error ("Failed to compare files: " +:+ message_of e))).

(** What the surroundings answer during one run of the command, and how
    the diff view settles when the user asks for it ([None]: the
    message was dismissed). *)
Variable sc : Scenario.
Variable viewDifferences : option (outcome unit).

(** The callback of the command, from the progress indicator on; the
    message shown last is returned. *)
Definition uploadFlow1 (uri : string) : F Shown :=
  try_catch
    (localBackupPath ← lift (createBackup1 uri local (now_local1 sc) (now_local2 sc));
     uploadResult ← callUpload sc;
     if success uploadResult then
       importResult ← callImport sc uri;
       if success importResult then
         accountBackupPath ←
           lift (createBackup1 uri account (now_account1 sc) (now_account2 sc));
         _ ← emit (EvRestore localBackupPath);
         _ ← lift (restoreFile1 uri localBackupPath);
         hasDifferences ← lift (compareFiles1 localBackupPath accountBackupPath);
         if hasDifferences : bool then
           _ ← match viewDifferences with
               | Some opened => of_outcome opened
               | None => mret tt
               end;
           mret (Information
                   ("File processed successfully. "
                      +:+ "Differences detected between local and account versions."))
         else
           mret (Information "File processed successfully. No differences detected.")
       else
         mret (Warning ("File uploaded, but could not import account version: "
                          +:+ template (error_ importResult)))
     else
       mret (ErrorMessage ("Upload failed: " +:+ template (error_ uploadResult))))
    (fun error => mret (ErrorMessage ("Operation failed: " +:+ message_of error))).

End BackupManager1.

(* ===================================================================== *)
(** ** Further sample data *)
(* ===================================================================== *)

Module Cases.

Definition b_js : string := "/w/b.js".

(** The name of the content file of [Demo.local_backup]. *)
Definition backup_name : string := "a.js.2024-05-06T07-08-09-123Z.bak".

(** The sample world with the base backup directory in place, the
    state after a local backup of [Demo.a_js] in it, and the text of
    the sidecar written then. *)
Definition with_backups : state :=
  {| st_fs := <["/w/backups" := NDir]> (st_fs (Sample.world Demo.a_js Demo.hi));
     st_accounts := ∅; st_faults := Fs.no_faults |}.

Definition after_backup : state :=
  snd (Sample.createBackup Demo.a_js local Sample.t1 Sample.t2 with_backups).

Definition sidecar_text : Utf8.text :=
  match Fs.readFileUtf8 (st_fs after_backup) (Demo.local_backup +:+ ".meta.json") with
  | Ok t => t
  | Throw _ => []
  end.

(** The path [createBackup] gives the account backup of [Demo.a_js]
    taken at [Sample.t3]. *)
Definition account_backup : string :=
  "/w/backups/auth1/account/a.js.2024-05-06T07-08-11-500Z.bak".

(** A script in the file cabinet of the project at [/w]. *)
Definition script : string := "/w/src/FileCabinet/SuiteScripts/a.js".

(** A project with its [node_modules], and a [NODE_PATH] set before. *)
Definition project : gmap string node :=
  {[ "/w" := NDir; "/w/node_modules" := NDir ]}.

Definition node_path : option string := Some "/usr/lib/node".

(** A backup a quarter of an hour old. *)
Definition now : Z := 1715000000000.
Definition then_ : Z := 1714999100000.

(** Runs of the command: the file is not in the account yet; and the
    import fails for the authentication, the user dismissing the
    message. *)
Definition new_file : Scenario :=
  {| now_local1 := Sample.t1; now_local2 := Sample.t2;
     now_account1 := Sample.t3; now_account2 := Sample.t4;
     importResult := Demo.failed "The file does not exist in NetSuite";
     importedContent := None;
     uploadResult := fun _ => Demo.done_;
     authChoice := None;
     setupAccount := Ok tt; refreshAccountInfo := Ok tt;
     refreshedAccounts := fun m => m;
     restoreTiming := Sample.instant; emergencyTiming := Sample.instant;
     compareTiming := Demo.prompt |}.

Definition import_unauthorized : Scenario :=
  {| now_local1 := Sample.t1; now_local2 := Sample.t2;
     now_account1 := Sample.t3; now_account2 := Sample.t4;
     importResult := Demo.failed "Invalid credentials";
     importedContent := None;
     uploadResult := fun _ => Demo.done_;
     authChoice := None;
     setupAccount := Ok tt; refreshAccountInfo := Ok tt;
     refreshedAccounts := fun m => m;
     restoreTiming := Sample.instant; emergencyTiming := Sample.instant;
     compareTiming := Demo.prompt |}.

(** [JSON.stringify(metadata, null, 2)] on the metadata of the first
    listing, and a run of its command in which the upload and the
    import go through. *)
Definition stringify1 (m : Metadata1) : Utf8.text :=
  let nl := newline in
  Utf8.of_string
    ("{" +:+ nl
     +:+ Json.member "  " "originalFile" (Json.str (originalFile1 m)) +:+ "," +:+ nl
     +:+ Json.member "  " "timestamp" (Json.str (timestamp1 m)) +:+ "," +:+ nl
     +:+ Json.member "  " "source" (Json.str (source_name (source1 m))) +:+ "," +:+ nl
     +:+ Json.member "  " "authId" (Json.str (authId1 m)) +:+ "," +:+ nl
     +:+ Json.member "  " "relativePath" (Json.str (relativePath1 m)) +:+ nl
     +:+ "}").

Definition createBackup1 :=
  createBackup1 Posix.join Posix.dirname Posix.basename Posix.relative
    stringify1 Sample.no_project Sample.W Sample.B.

Definition all_well : Scenario :=
  {| now_local1 := Sample.t1; now_local2 := Sample.t2;
     now_account1 := Sample.t3; now_account2 := Sample.t4;
     importResult := Demo.done_;
     importedContent := Some Demo.ho;
     uploadResult := fun _ => Demo.done_;
     authChoice := None;
     setupAccount := Ok tt; refreshAccountInfo := Ok tt;
     refreshedAccounts := fun m => m;
     restoreTiming := Sample.instant; emergencyTiming := Sample.instant;
     compareTiming := Demo.prompt |}.

Definition uploadFlow1 :=
  uploadFlow1 Posix.join Posix.dirname Posix.basename Posix.relative
    stringify1 Sample.no_project Sample.W Sample.B all_well None Demo.a_js
    (flow_start (Sample.world Demo.a_js Demo.hi)).

End Cases.

(* ===================================================================== *)
(** * Facts *)
(* ===================================================================== *)

(** ** Strings and the monad *)

Lemma append_length (s t : string) :
  String.length (s +:+ t) = String.length s + String.length t.
Proof. induction s; simpl; auto. Qed.

Lemma append_ne (s t : string) : t <> EmptyString -> s +:+ t <> s.
Proof.
  intros Ht H. apply (f_equal String.length) in H.
  rewrite append_length in H. destruct t; [congruence | simpl in H; lia].
Qed.

Lemma is_empty_false s : s <> EmptyString -> is_empty s = false.
Proof. by destruct s. Qed.

Lemma is_empty_true s : is_empty s = true -> s = EmptyString.
Proof. by destruct s. Qed.

Lemma bind_ok_inv {S A B} (m : ST S A) (f : A -> ST S B) s b s' :
  (m ≫= f) s = (Ok b, s') ->
  exists a s1, m s = (Ok a, s1) /\ f a s1 = (Ok b, s').
Proof.
  unfold mbind, ST_bind. destruct (m s) as [[a|e] s1]; [|discriminate].
  intros H. by exists a, s1.
Qed.

Lemma bind_throw_inv {S A B} (m : ST S A) (f : A -> ST S B) s e s' :
  (m ≫= f) s = (Throw e, s') ->
  m s = (Throw e, s') \/ exists a s1, m s = (Ok a, s1) /\ f a s1 = (Throw e, s').
Proof.
  unfold mbind, ST_bind. destruct (m s) as [[a|e0] s1].
  - intros H. right. by exists a, s1.
  - intros [= <- <-]. by left.
Qed.

Lemma bind_ok {S A B} (m : ST S A) (f : A -> ST S B) s a s1 :
  m s = (Ok a, s1) -> (m ≫= f) s = f a s1.
Proof. unfold mbind, ST_bind. by intros ->. Qed.

Lemma bind_throw {S A B} (m : ST S A) (f : A -> ST S B) s e s1 :
  m s = (Throw e, s1) -> (m ≫= f) s = (Throw e, s1).
Proof. unfold mbind, ST_bind. by intros ->. Qed.

Lemma throw_if_ok_inv {S} c msg (s s' : S) u :
  throw_if c msg s = (Ok u, s') -> c = false /\ s' = s.
Proof. unfold throw_if. destruct c; [discriminate|]. by intros [= <- <-]. Qed.

Lemma try_rethrow_ok_inv {S A} (body : ST S A) s a s' :
  try_catch body (fun e => throw e) s = (Ok a, s') -> body s = (Ok a, s').
Proof.
  unfold try_catch. destruct (body s) as [[a0|e] s1]; [done|discriminate].
Qed.

Lemma fs_read_inv {A} (f : gmap string node -> outcome A) s r s' :
  fs_read f s = (r, s') -> r = f (st_fs s) /\ s' = s.
Proof. unfold fs_read. by intros [= <- <-]. Qed.

(** ** The file system *)

Lemma content_insert_eq (fs : gmap string node) p c :
  Fs.content (<[p := NFile c]> fs) p = Some c.
Proof. unfold Fs.content. by rewrite lookup_insert_eq. Qed.

Lemma content_insert_ne (fs : gmap string node) p q n :
  p <> q -> Fs.content (<[p := n]> fs) q = Fs.content fs q.
Proof. intros. unfold Fs.content. by rewrite lookup_insert_ne. Qed.

Lemma content_delete_ne (fs : gmap string node) p q :
  p <> q -> Fs.content (delete p fs) q = Fs.content fs q.
Proof. intros. unfold Fs.content. by rewrite lookup_delete_ne. Qed.

Lemma content_lookup (fs : gmap string node) p c :
  Fs.content fs p = Some c <-> fs !! p = Some (NFile c).
Proof.
  unfold Fs.content. destruct (fs !! p) as [[|]|]; split; congruence.
Qed.

Lemma kept_but_refl l fs : kept_but l fs fs.
Proof. intros q _. by left. Qed.

Lemma kept_but_trans l fs1 fs2 fs3 :
  kept_but l fs1 fs2 -> kept_but l fs2 fs3 -> kept_but l fs1 fs3.
Proof.
  intros H1 H2 q Hq.
  destruct (H1 q Hq) as [E1|[E1 E1']], (H2 q Hq) as [E2|[E2 E2']].
  - left. congruence.
  - right. split; congruence.
  - right. split; congruence.
  - congruence.
Qed.

Lemma kept_but_mono l l' fs fs' :
  (forall q, q ∈ l -> q ∈ l') -> kept_but l fs fs' -> kept_but l' fs fs'.
Proof. intros Hl H q Hq. apply H. intros Hin. by apply Hq, Hl. Qed.

Lemma kept_but_nil l fs fs' : kept_but [] fs fs' -> kept_but l fs fs'.
Proof. apply kept_but_mono. intros q Hq. by apply elem_of_nil in Hq. Qed.

Lemma kept_but_insert l fs p n : p ∈ l -> kept_but l fs (<[p := n]> fs).
Proof. intros Hp q Hq. left. apply lookup_insert_ne. by intros ->. Qed.

Lemma kept_but_delete l fs p : p ∈ l -> kept_but l fs (delete p fs).
Proof. intros Hp q Hq. left. apply lookup_delete_ne. by intros ->. Qed.

Lemma kept_but_mkdir l (fs : gmap string node) p :
  fs !! p = None \/ fs !! p = Some NDir -> kept_but l fs (<[p := NDir]> fs).
Proof.
  intros Hp q _. destruct (decide (p = q)) as [<-|Hne].
  - rewrite lookup_insert_eq. destruct Hp as [Hp|Hp]; [right|left]; by rewrite Hp.
  - left. by rewrite lookup_insert_ne.
Qed.

Lemma kept_but_content l fs fs' q :
  kept_but l fs fs' -> q ∉ l -> Fs.content fs' q = Fs.content fs q.
Proof.
  intros H Hq. unfold Fs.content. by destruct (H q Hq) as [->|[-> ->]].
Qed.

Lemma kept_but_lookup l (fs fs' : gmap string node) q n :
  kept_but l fs fs' -> q ∉ l -> fs !! q = Some n -> fs' !! q = Some n.
Proof. intros H Hq Hn. destruct (H q Hq) as [->|[E _]]; congruence. Qed.

Lemma kept_but_exists l fs fs' q :
  kept_but l fs fs' -> q ∉ l ->
  Fs.existsSync fs q = true -> Fs.existsSync fs' q = true.
Proof.
  intros H Hq. unfold Fs.existsSync. by destruct (H q Hq) as [->|[-> ->]].
Qed.

Lemma not_in_one (p q : string) : q <> p -> q ∉ [p].
Proof. intros Hne Hin. by apply list_elem_of_singleton in Hin. Qed.

Lemma not_in_two (p p' q : string) : q <> p -> q <> p' -> q ∉ [p; p'].
Proof.
  intros Hne Hne' Hin. apply elem_of_cons in Hin as [?|Hin]; [done|].
  by apply list_elem_of_singleton in Hin.
Qed.

(** [mkdirSync] only adds directories. *)
Lemma mkdirSync_kept dn fl fuel fs p :
  kept_but [] fs (snd (Fs.mkdirSync dn fl fuel fs p)).
Proof.
  revert fs p. induction fuel as [|fuel IH]; intros fs p; cbn [Fs.mkdirSync];
    destruct (fs !! p) as [[|]|] eqn:E; try apply kept_but_refl.
  - destruct (String.eqb (dn p) p); simpl; [|apply kept_but_refl].
    destruct (Fs.refuse_mkdir fl p); simpl; [apply kept_but_refl|].
    apply kept_but_mkdir. by left.
  - destruct (String.eqb (dn p) p); simpl.
    + destruct (Fs.refuse_mkdir fl p); simpl; [apply kept_but_refl|].
      apply kept_but_mkdir. by left.
    + specialize (IH fs (dn p)).
      destruct (Fs.mkdirSync dn fl fuel fs (dn p)) as [[[]|e] fs1]; simpl in *;
        [|assumption].
      destruct (Fs.refuse_mkdir fl p); simpl; [assumption|].
      eapply kept_but_trans; [exact IH|]. apply kept_but_mkdir.
      destruct (IH p) as [->|[_ ->]]; [apply not_elem_of_nil|by left|by right].
Qed.

(** [mkdirSync] succeeds only with a directory at its path. *)
Lemma mkdirSync_ok dn fl fuel (fs : gmap string node) p u fs' :
  Fs.mkdirSync dn fl fuel fs p = (Ok u, fs') -> fs' !! p = Some NDir.
Proof.
  assert (Hlast : forall (above : outcome unit * gmap string node),
    match above with
    | (Ok _, fs1) =>
        match Fs.refuse_mkdir fl p with
        | Some e => (Throw e, fs1)
        | None => (Ok tt, <[p := NDir]> fs1)
        end
    | (Throw e, fs1) => (Throw e, fs1)
    end = (Ok u, fs') -> fs' !! p = Some NDir).
  { intros [[[]|e] fs1]; [|done].
    destruct (Fs.refuse_mkdir fl p); [done|]. intros [= _ <-].
    apply lookup_insert_eq. }
  destruct fuel as [|fuel]; cbn [Fs.mkdirSync];
    destruct (fs !! p) as [[|]|] eqn:E; try done; try (by intros [= _ <-]);
    apply Hlast.
Qed.

Lemma ensured_kept dn fl fs d : kept_but [] fs (ensured dn fl fs d).
Proof.
  unfold ensured. destruct (Fs.existsSync fs d); [apply kept_but_refl|].
  apply mkdirSync_kept.
Qed.

Lemma ensured_there dn fl fs d : Fs.existsSync fs d = true -> ensured dn fl fs d = fs.
Proof. unfold ensured. by intros ->. Qed.

(** Making sure a directory exists changes no regular file. *)
Lemma content_ensured dn fl fs d q :
  Fs.content (ensured dn fl fs d) q = Fs.content fs q.
Proof. eapply kept_but_content; [apply ensured_kept|apply not_elem_of_nil]. Qed.

Lemma lookup_ensured_some dn fl (fs : gmap string node) d q n :
  fs !! q = Some n -> ensured dn fl fs d !! q = Some n.
Proof. eapply kept_but_lookup; [apply ensured_kept|apply not_elem_of_nil]. Qed.

(** Opening a path to write to it. *)
Lemma open_error_none dn fl syscall (fs : gmap string node) p :
  fs !! dn p = Some NDir -> fs !! p <> Some NDir -> Fs.refuse_write fl p = None ->
  Fs.open_error dn fl syscall fs p = None.
Proof.
  unfold Fs.open_error. intros Hd Hp Hw.
  destruct (fs !! p) as [[|]|] eqn:E; try done;
    destruct (String.eqb (dn p) p); by rewrite ?Hd.
Qed.

Lemma open_error_none_inv dn fl syscall (fs : gmap string node) p :
  Fs.open_error dn fl syscall fs p = None ->
  fs !! p <> Some NDir /\ Fs.refuse_write fl p = None
  /\ (dn p = p \/ fs !! dn p = Some NDir).
Proof.
  unfold Fs.open_error.
  destruct (fs !! p) as [[|]|] eqn:E; try done;
    (destruct (String.eqb_spec (dn p) p) as [Heq|Hne];
     [intros Hw; repeat split; auto; congruence|];
     destruct (fs !! dn p) as [[|]|]; try done;
     intros Hw; repeat split; auto; congruence).
Qed.

Lemma open_error_syscall dn fl syscall syscall' fs p :
  Fs.open_error dn fl syscall fs p = None ->
  Fs.open_error dn fl syscall' fs p = None.
Proof.
  unfold Fs.open_error. repeat case_match; congruence.
Qed.

(** [fs.writeFile] writes the file, or fails and changes nothing. *)
Lemma writeFile_inv dn fl fs p data r fs' :
  Fs.writeFile dn fl fs p data = (r, fs') ->
  (r = Ok tt /\ fs' = <[p := NFile data]> fs
   /\ Fs.open_error dn fl ("open '" +:+ p +:+ "'") fs p = None)
  \/ ((exists e, r = Throw e) /\ fs' = fs).
Proof.
  unfold Fs.writeFile. destruct (Fs.open_error _ _ _ _ _) as [e|].
  - intros [= <- <-]. right. eauto.
  - intros [= <- <-]. by left.
Qed.

Lemma writeFile_ok dn fl fs p data :
  Fs.open_error dn fl ("open '" +:+ p +:+ "'") fs p = None ->
  Fs.writeFile dn fl fs p data = (Ok tt, <[p := NFile data]> fs).
Proof. unfold Fs.writeFile. by intros ->. Qed.

Lemma writeFile_kept dn fl fs p data :
  kept_but [p] fs (snd (Fs.writeFile dn fl fs p data)).
Proof.
  unfold Fs.writeFile. destruct (Fs.open_error _ _ _ _ _); simpl.
  - apply kept_but_refl.
  - apply kept_but_insert. by left.
Qed.

(** [fs.copyFile] changes at most its target, never its source. *)
Lemma copyFile_kept dn fl (fs : gmap string node) src dst :
  kept_but [dst] fs (snd (Fs.copyFile dn fl fs src dst))
  /\ snd (Fs.copyFile dn fl fs src dst) !! src = fs !! src.
Proof.
  unfold Fs.copyFile.
  destruct (fs !! src) as [from|] eqn:Hsrc; simpl; [|split; [apply kept_but_refl|done]].
  destruct (Fs.open_error _ _ _ _ _); simpl; [split; [apply kept_but_refl|done]|].
  destruct (String.eqb_spec src dst) as [->|Hne]; simpl;
    [split; [apply kept_but_refl|done]|].
  destruct from as [c|]; [destruct (Fs.refuse_copy fl src dst)|]; simpl;
    rewrite ?lookup_delete_ne, ?lookup_insert_ne by done;
    (split; [|done]);
    first [apply kept_but_delete | apply kept_but_insert]; by left.
Qed.

(** What a successful copy has done. *)
Lemma copyFile_ok_inv dn fl (fs : gmap string node) src dst u fs' :
  Fs.copyFile dn fl fs src dst = (Ok u, fs') ->
  exists c, fs !! src = Some (NFile c) /\ Fs.content fs' dst = Some c.
Proof.
  unfold Fs.copyFile.
  destruct (fs !! src) as [from|] eqn:Hsrc; [|done].
  destruct (Fs.open_error _ _ _ _ _) eqn:Hopen; [done|].
  apply open_error_none_inv in Hopen as (Hnd & _ & _).
  destruct (String.eqb_spec src dst) as [->|Hne].
  - intros [= _ <-]. destruct from as [c|]; [|done].
    exists c. split; [done|]. by apply content_lookup.
  - destruct from as [c|]; [|done].
    destruct (Fs.refuse_copy fl src dst); [done|]. intros [= _ <-].
    exists c. split; [done|]. apply content_insert_eq.
Qed.

Create HintDb fsdb.

#[local] Hint Resolve kept_but_refl kept_but_insert kept_but_delete ensured_kept
  kept_but_nil : fsdb.

(** ** UTF-8: what is written is read back *)

Ltac divlia := zify; Z.to_euclidean_division_equations; lia.

Ltac tests :=
  repeat match goal with
         | |- context [(?a <? ?b)%N] => destruct (N.ltb_spec a b); try divlia
         | |- context [(?a <=? ?b)%N] => destruct (N.leb_spec a b); try divlia
         | |- context [(?a =? ?b)%N] => destruct (N.eqb_spec a b); try divlia
         end.

Lemma byte_of_to_N b : Utf8.byte_of_N (Byte.to_N b) = b.
Proof. unfold Utf8.byte_of_N. by rewrite Byte.of_to_N. Qed.

Lemma to_byte_of_N n : (n < 256)%N -> Byte.to_N (Utf8.byte_of_N n) = n.
Proof.
  intros Hn. unfold Utf8.byte_of_N.
  destruct (Byte.of_N n) as [b|] eqn:E.
  - by apply Byte.to_of_N.
  - apply Byte.of_N_None_iff in E. lia.
Qed.

Lemma is_scalar_true c : scalar c -> Utf8.is_scalar c = true.
Proof. unfold scalar, Utf8.is_scalar. intros [H1 H2]. tests; cbn; lia. Qed.

Lemma is_scalar_false c : Utf8.is_scalar c = false -> ~ scalar c.
Proof. unfold scalar, Utf8.is_scalar. tests; cbn; intros; try done; lia. Qed.

Lemma encode_cp_scalar c :
  scalar c ->
  Utf8.encode_cp c =
    (if c <? 128 then [c]
     else if c <? 2048 then [192 + c / 64; 128 + c mod 64]
     else if c <? 65536 then
            [224 + c / 4096; 128 + (c / 64) mod 64; 128 + c mod 64]
     else [240 + c / 262144; 128 + (c / 4096) mod 64;
           128 + (c / 64) mod 64; 128 + c mod 64])%N.
Proof. intros Hc. unfold Utf8.encode_cp. by rewrite is_scalar_true. Qed.

Lemma ascii_only_clean bs : ascii_only bs = true -> Utf8.clean bs.
Proof.
  unfold Utf8.clean, Utf8.reencode, Utf8.decode, Utf8.encode.
  induction bs as [|b bs IH]; [done|].
  cbn [ascii_only forallb]. intros [Hb Hbs]%andb_prop.
  cbn [List.map Utf8.decode_go].
  unfold Utf8.lead at 1. rewrite Hb.
  cbn [List.map List.concat].
  rewrite encode_cp_scalar by (apply N.ltb_lt in Hb; unfold scalar; lia).
  rewrite Hb.
  cbn [app List.map]. rewrite byte_of_to_N. f_equal. by apply IH.
Qed.

Lemma scalar_replacement : scalar Utf8.REPLACEMENT.
Proof. unfold scalar, Utf8.REPLACEMENT. lia. Qed.

Lemma lead_on_course b :
  match Utf8.lead b with
  | inl c => scalar c
  | inr p => on_course (Some p)
  end.
Proof.
  unfold Utf8.lead.
  destruct (N.ltb_spec b 128); [unfold scalar; lia|].
  destruct (N.leb_spec 194 b), (N.leb_spec b 223); cbn [andb];
    try (cbn; intros b1 Hb1; unfold scalar; lia).
  all: destruct (N.leb_spec 224 b), (N.leb_spec b 239); cbn [andb]; try lia.
  all: try (cbn [on_course ends_scalar Utf8.need Utf8.acc Utf8.lo Utf8.hi];
            intros b1 Hb1 b2 Hb2; unfold scalar; revert Hb1; tests; lia).
  all: destruct (N.leb_spec 240 b), (N.leb_spec b 244); cbn [andb]; try lia.
  all: try apply scalar_replacement.
  all: cbn [on_course ends_scalar Utf8.need Utf8.acc Utf8.lo Utf8.hi];
       intros b1 Hb1 b2 Hb2 b3 Hb3; unfold scalar; revert Hb1; tests; lia.
Qed.

Lemma decode_go_scalar bs :
  forall st, on_course st -> Forall scalar (Utf8.decode_go st bs).
Proof.
  induction bs as [|b bs IH]; intros st Hst.
  - destruct st; constructor; [apply scalar_replacement|constructor].
  - cbn [Utf8.decode_go].
    assert (Hstart : Forall scalar
                       match Utf8.lead b with
                       | inl c => c :: Utf8.decode_go None bs
                       | inr p => Utf8.decode_go (Some p) bs
                       end).
    { pose proof (lead_on_course b) as Hl.
      destruct (Utf8.lead b) as [c|p].
      - constructor; [done|]. by apply IH.
      - by apply IH. }
    destruct st as [p|]; [|done].
    destruct p as [n a l h]. cbn [Utf8.need Utf8.acc Utf8.lo Utf8.hi on_course] in *.
    destruct (N.leb_spec l b), (N.leb_spec b h); cbn [andb];
      try (constructor; [apply scalar_replacement|done]).
    destruct n as [|[|k]].
    + constructor; [|by apply IH]. apply Hst. lia.
    + constructor; [|by apply IH]. apply Hst. lia.
    + apply IH. cbn [on_course Utf8.need Utf8.acc Utf8.lo Utf8.hi]. apply Hst. lia.
Qed.

Lemma decode_encode_cp c rest :
  scalar c ->
  Utf8.decode_go None (Utf8.encode_cp c ++ rest) = c :: Utf8.decode_go None rest.
Proof.
  intros Hsc. rewrite encode_cp_scalar by done. destruct Hsc as [Hc Hs].
  destruct (N.ltb_spec c 128).
  { cbn [app Utf8.decode_go]. unfold Utf8.lead. tests. done. }
  destruct (N.ltb_spec c 2048).
  { cbn [app Utf8.decode_go]. unfold Utf8.lead at 1. tests. cbn [andb].
    cbn [Utf8.need Utf8.acc Utf8.lo Utf8.hi]. tests. cbn [andb].
    f_equal. divlia. }
  destruct (N.ltb_spec c 65536).
  { cbn [app Utf8.decode_go]. unfold Utf8.lead at 1. tests; cbn [andb].
    all: cbn [Utf8.need Utf8.acc Utf8.lo Utf8.hi]; tests; cbn [andb].
    all: cbn [Utf8.need Utf8.acc Utf8.lo Utf8.hi]; tests; cbn [andb].
    all: f_equal; divlia. }
  cbn [app Utf8.decode_go]. unfold Utf8.lead at 1. tests; cbn [andb].
  all: cbn [Utf8.need Utf8.acc Utf8.lo Utf8.hi]; tests; cbn [andb].
  all: cbn [Utf8.need Utf8.acc Utf8.lo Utf8.hi]; tests; cbn [andb].
  all: cbn [Utf8.need Utf8.acc Utf8.lo Utf8.hi]; tests; cbn [andb].
  all: f_equal; divlia.
Qed.

Lemma decode_encode_scalars t :
  Forall scalar t -> Utf8.decode_go None (List.concat (List.map Utf8.encode_cp t)) = t.
Proof.
  induction 1 as [|c t Hc _ IH]; [done|].
  cbn [List.map List.concat]. rewrite decode_encode_cp by done. by rewrite IH.
Qed.

Lemma encode_cp_bytes c : scalar c -> Forall (fun n => (n < 256)%N) (Utf8.encode_cp c).
Proof.
  intros Hsc. rewrite encode_cp_scalar by done. destruct Hsc as [Hc Hs].
  tests; repeat constructor; divlia.
Qed.

Lemma encoded_bytes t :
  Forall scalar t ->
  Forall (fun n => (n < 256)%N) (List.concat (List.map Utf8.encode_cp t)).
Proof.
  induction 1 as [|c t Hc _ IH]; [constructor|].
  cbn [List.map List.concat]. apply Forall_app. split; [by apply encode_cp_bytes|done].
Qed.

Lemma to_N_byte_of_N ns :
  Forall (fun n => (n < 256)%N) ns -> List.map Byte.to_N (List.map Utf8.byte_of_N ns) = ns.
Proof.
  induction 1 as [|n ns Hn _ IH]; [done|].
  cbn [List.map]. by rewrite to_byte_of_N, IH.
Qed.

Lemma decode_encode t : Forall scalar t -> Utf8.decode (Utf8.encode t) = t.
Proof.
  intros Ht. unfold Utf8.decode, Utf8.encode.
  rewrite to_N_byte_of_N by (by apply encoded_bytes).
  by apply decode_encode_scalars.
Qed.

Lemma reencode_clean bs : Utf8.clean (Utf8.reencode bs).
Proof.
  unfold Utf8.clean, Utf8.reencode.
  rewrite decode_encode; [done|].
  by apply decode_go_scalar.
Qed.

(** What is written as text is well-formed UTF-8, whatever the text. *)
Lemma encode_cp_sanitized c :
  Utf8.encode_cp c = Utf8.encode_cp (if Utf8.is_scalar c then c else Utf8.REPLACEMENT).
Proof.
  destruct (Utf8.is_scalar c) eqn:E; [done|].
  unfold Utf8.encode_cp. by rewrite E.
Qed.

Lemma encode_sanitized t :
  Utf8.encode t =
  Utf8.encode (List.map (fun c => if Utf8.is_scalar c then c else Utf8.REPLACEMENT) t).
Proof.
  unfold Utf8.encode. f_equal. f_equal.
  induction t as [|c t IH]; [done|].
  cbn [List.map]. by rewrite IH, <- encode_cp_sanitized.
Qed.

Lemma sanitized_scalar t :
  Forall scalar
    (List.map (fun c => if Utf8.is_scalar c then c else Utf8.REPLACEMENT) t).
Proof.
  induction t as [|c t IH]; [constructor|].
  cbn [List.map]. constructor; [|done].
  destruct (Utf8.is_scalar c) eqn:E; [|apply scalar_replacement].
  unfold scalar, Utf8.is_scalar in *. revert E. tests; cbn; intros; try done; lia.
Qed.

Lemma clean_encode t : Utf8.clean (Utf8.encode t).
Proof.
  rewrite encode_sanitized. unfold Utf8.clean, Utf8.reencode.
  by rewrite decode_encode by apply sanitized_scalar.
Qed.

Lemma clean_decode_inj c1 c2 :
  Utf8.clean c1 -> Utf8.clean c2 -> Utf8.decode c1 = Utf8.decode c2 -> c1 = c2.
Proof.
  unfold Utf8.clean, Utf8.reencode. intros H1 H2 H. rewrite <- H1, <- H2. by rewrite H.
Qed.

(** ** [BackupManager]: [createBackup] and [restoreFile] *)

Section BackupManagerFacts.

Variable path_join : list string -> string.
Variable path_dirname : string -> string.
Variable path_basename : string -> string.
Variable path_relative : string -> string -> string.
Variable path_sep : string.
Variable JSON_stringify : Metadata -> Utf8.text.
Variable JSON_parse_project : Utf8.text -> option ProjectData.
Variable JSON_parse_sidecar : Utf8.text -> option Sidecar.
Variable W : Workspace.
Variable B : BackupManager.

Local Abbreviation getAuthId' := (getAuthId path_join JSON_parse_project W).
Local Abbreviation getRelativePath' := (getRelativePath path_relative W).
Local Abbreviation backupDirOf' :=
  (backupDirOf path_join path_dirname path_relative W B).
Local Abbreviation backupPathOf' :=
  (backupPathOf path_join path_dirname path_basename path_relative W B).
Local Abbreviation createBackup' :=
  (createBackup path_join path_dirname path_basename path_relative
     JSON_stringify JSON_parse_project W B).
Local Abbreviation restoreFile' := (restoreFile path_dirname).
Local Abbreviation ensured' := (ensured path_dirname).
Local Abbreviation ensureDirectoryExists' := (ensureDirectoryExists path_dirname).
Local Abbreviation persisted_pair' :=
  (persisted_pair path_join path_dirname path_basename path_relative
     JSON_stringify W B).

Lemma readProject_state p s r s' :
  readProject JSON_parse_project p s = (r, s') -> s' = s.
Proof.
  unfold readProject, mbind, ST_bind, fs_read, mret, ST_ret, throw.
  destruct (Fs.readFileUtf8 (st_fs s) p); [destruct (JSON_parse_project a)|]; congruence.
Qed.

(** [getAuthId] never rejects and changes nothing. *)
Lemma getAuthId_pure s : exists a, getAuthId' s = (Ok a, s).
Proof.
  unfold getAuthId.
  destruct (Str.truthy (defaultAuthId W)); [by eexists|].
  unfold try_catch. destruct (workspaceFolder W) as [ws|]; [|by eexists].
  unfold mbind, ST_bind, fs_read at 1.
  destruct (Fs.existsSync (st_fs s) (projectJsonPath path_join ws)); [|by eexists].
  destruct (readProject JSON_parse_project (projectJsonPath path_join ws) s)
    as [[d|e] s1] eqn:E; apply readProject_state in E as ->; by eexists.
Qed.

(** With the auth id in the settings, that is the one used. *)
Lemma getAuthId_settings s :
  Str.truthy (defaultAuthId W) = true -> getAuthId' s = (Ok (defaultAuthId W), s).
Proof. unfold getAuthId. by intros ->. Qed.

Lemma managerAccountInfo_pure a s :
  exists r, managerAccountInfo B a s = (Ok r, s).
Proof.
  unfold managerAccountInfo. destruct (suiteCloudManager B); [|by eexists].
  unfold mbind, ST_bind, get_accounts. destruct (st_accounts s !! a); by eexists.
Qed.

Lemma projectAccountInfo_fs a cur s :
  exists r s', projectAccountInfo path_join JSON_parse_project W a cur s = (Ok r, s')
               /\ st_fs s' = st_fs s /\ st_faults s' = st_faults s.
Proof.
  unfold projectAccountInfo. destruct cur as [info shared].
  destruct (is_empty (name info) && is_empty (id info))%bool; [|by eexists _, _].
  unfold try_catch. destruct (workspaceFolder W) as [ws|]; [|by eexists _, _].
  unfold mbind, ST_bind, fs_read at 1.
  destruct (Fs.existsSync (st_fs s) (projectJsonPath path_join ws)); [|by eexists _, _].
  destruct (readProject JSON_parse_project (projectJsonPath path_join ws) s)
    as [[d|e] s1] eqn:E; apply readProject_state in E as ->; [|by eexists _, _].
  destruct (pd_accountSpecificValues d) as [vals|]; [|by eexists _, _].
  destruct (vals !! a); [|by eexists _, _].
  destruct shared; by eexists _, _.
Qed.

(** [ensureDirectoryExists] leaves the file system that [ensured]
    describes, whatever its outcome. *)
Lemma ensureDirectoryExists_run d s :
  exists r s1,
    ensureDirectoryExists' d s = (r, s1)
    /\ st_fs s1 = ensured' (st_faults s) (st_fs s) d
    /\ st_accounts s1 = st_accounts s /\ st_faults s1 = st_faults s
    /\ (r = Ok tt -> st_fs s1 !! d = Some NDir \/ Fs.existsSync (st_fs s) d = true).
Proof.
  unfold ensureDirectoryExists, ensured, try_catch, mbind, ST_bind, fs_read, fs_change,
    mret, ST_ret, throw.
  destruct (Fs.existsSync (st_fs s) d) eqn:Hex.
  { eexists _, _. split; [done|]. repeat split; try done. intros _. by right. }
  destruct (Fs.mkdirSync _ _ _ _ _) as [[[]|e] fs1] eqn:Hmk;
    eexists _, _; (split; [done|]); simpl; repeat split; try done.
  intros _. left. by eapply mkdirSync_ok.
Qed.

Lemma ensureDirectoryExists_there d s :
  Fs.existsSync (st_fs s) d = true -> ensureDirectoryExists' d s = (Ok tt, s).
Proof.
  unfold ensureDirectoryExists, try_catch, mbind, ST_bind, fs_read, mret, ST_ret.
  by intros ->.
Qed.

(** What a successful [createBackup] has done. *)
Lemma createBackup_inv uri source now1 now2 s p s' :
  createBackup' uri source now1 now2 s = (Ok p, s') ->
  exists a info c,
    getAuthId' s = (Ok (Some a), s) /\ a <> EmptyString
    /\ p = backupPathOf' a uri source now1
    /\ Fs.content (st_fs s) uri = Some c
    /\ st_fs s' =
         <[p +:+ ".meta.json" :=
             NFile (Utf8.encode (JSON_stringify
               {| originalFile := uri; timestamp := now2; source := source;
                  authId := a; relativePath := getRelativePath' uri;
                  accountInfo := info |}))]>
           (<[p := NFile (Utf8.reencode c)]>
              (ensured' (st_faults s) (st_fs s) (backupDirOf' a uri source)))
    /\ st_faults s' = st_faults s
    /\ ensured' (st_faults s) (st_fs s) (backupDirOf' a uri source) !! p <> Some NDir
    /\ ensured' (st_faults s) (st_fs s) (backupDirOf' a uri source)
         !! (p +:+ ".meta.json") <> Some NDir.
Proof.
  unfold createBackup, try_catch.
  unfold mbind at 1, ST_bind at 1.
  destruct (getAuthId_pure s) as [oa Ha]. rewrite Ha.
  unfold mbind at 1, ST_bind at 1.
  destruct oa as [[|c0 a0]|]; cbn [Str.truthy negb throw_if Str.or_empty];
    try discriminate.
  set (a := String c0 a0).
  unfold mret at 1, ST_ret at 1.
  unfold mbind at 1, ST_bind at 1.
  destruct (ensureDirectoryExists_run (backupDirOf' a uri source) s)
    as (r0 & s0 & -> & Hfs0 & Hac0 & Hfl0 & _).
  destruct r0 as [[]|e0]; [|discriminate].
  unfold mbind at 1, ST_bind at 1.
  destruct (managerAccountInfo_pure a s0) as [cur ->].
  unfold mbind at 1, ST_bind at 1.
  destruct (projectAccountInfo_fs a cur s0) as (info & s1 & -> & Hfs & Hfl).
  unfold mbind at 1, ST_bind at 1, fs_read at 1. rewrite Hfs, Hfs0.
  unfold Fs.readFileUtf8, Fs.readFile.
  set (fs0 := ensured' (st_faults s) (st_fs s) (backupDirOf' a uri source)).
  destruct (fs0 !! uri) as [[c|]|] eqn:Huri; try discriminate.
  unfold mbind at 1, ST_bind at 1, fs_change at 1. rewrite Hfs, Hfl, Hfs0, Hfl0.
  fold fs0.
  destruct (Fs.writeFile _ _ fs0 _ _) as [r1 fs1] eqn:Hw1.
  apply writeFile_inv in Hw1 as [(-> & -> & Ho1)|[[e1 ->] ->]]; [|discriminate].
  unfold mbind at 1, ST_bind at 1, fs_change at 1. cbn [st_fs st_faults with_fs].
  rewrite Hfl, Hfl0.
  destruct (Fs.writeFile _ _ _ (_ +:+ ".meta.json") _) as [r2 fs2] eqn:Hw2.
  apply writeFile_inv in Hw2 as [(-> & -> & Ho2)|[[e2 ->] ->]]; [|discriminate].
  unfold mret, ST_ret. intros [= <- <-]. cbn [st_fs st_faults with_fs].
  exists a, info, c.
  apply open_error_none_inv in Ho1 as (Hp & _).
  apply open_error_none_inv in Ho2 as (Hm & _).
  repeat split; try done.
  - rewrite <- (content_ensured path_dirname (st_faults s) (st_fs s)
                 (backupDirOf' a uri source) uri).
    by apply content_lookup.
  - congruence.
  - intros Hd. apply Hm. rewrite lookup_insert_ne; [done|].
    apply not_eq_sym, append_ne. done.
Qed.

(** Whatever its outcome, [createBackup] changes at most the content
    file and the sidecar of the backup it is making (and makes sure of
    their directory). *)
Lemma createBackup_effect uri source now1 now2 s r s' :
  createBackup' uri source now1 now2 s = (r, s') ->
  st_faults s' = st_faults s
  /\ (st_fs s' = st_fs s
      \/ exists a,
           getAuthId' s = (Ok (Some a), s) /\ a <> EmptyString
           /\ let p := backupPathOf' a uri source now1 in
              let fs1 := ensured' (st_faults s) (st_fs s) (backupDirOf' a uri source) in
              st_fs s' = fs1
              \/ (exists t, st_fs s' = <[p := NFile (Utf8.encode t)]> fs1)
              \/ (exists t t',
                     st_fs s' = <[p +:+ ".meta.json" := NFile (Utf8.encode t')]>
                                  (<[p := NFile (Utf8.encode t)]> fs1))).
Proof.
  unfold createBackup, try_catch.
  unfold mbind at 1, ST_bind at 1.
  destruct (getAuthId_pure s) as [oa Ha]. rewrite Ha.
  unfold mbind at 1, ST_bind at 1.
  destruct oa as [[|c0 a0]|]; cbn [Str.truthy negb throw_if Str.or_empty throw];
    try (intros [= <- <-]; split; [done|by left]).
  set (a := String c0 a0).
  unfold mret at 1, ST_ret at 1.
  intros H.
  assert (Hgoal : st_faults s' = st_faults s
    /\ let p := backupPathOf' a uri source now1 in
       let fs1 := ensured' (st_faults s) (st_fs s) (backupDirOf' a uri source) in
       st_fs s' = fs1
       \/ (exists t, st_fs s' = <[p := NFile (Utf8.encode t)]> fs1)
       \/ (exists t t',
              st_fs s' = <[p +:+ ".meta.json" := NFile (Utf8.encode t')]>
                           (<[p := NFile (Utf8.encode t)]> fs1))).
  2: { destruct Hgoal as [Hf Hg]. split; [done|]. right. by exists a. }
  revert H.
  unfold mbind at 1, ST_bind at 1.
  destruct (ensureDirectoryExists_run (backupDirOf' a uri source) s)
    as (r0 & s0 & -> & Hfs0 & Hac0 & Hfl0 & _).
  destruct r0 as [[]|e0]; [|intros [= <- <-]; split; [done|by left]].
  unfold mbind at 1, ST_bind at 1.
  destruct (managerAccountInfo_pure a s0) as [cur ->].
  unfold mbind at 1, ST_bind at 1.
  destruct (projectAccountInfo_fs a cur s0) as (info & s1 & -> & Hfs & Hfl).
  unfold mbind at 1, ST_bind at 1, fs_read at 1.
  destruct (Fs.readFileUtf8 _ uri) as [txt|e];
    [|intros [= <- <-]; split; [congruence|left; congruence]].
  unfold mbind at 1, ST_bind at 1, fs_change at 1. rewrite Hfs, Hfl, Hfs0, Hfl0.
  set (fs0 := ensured' (st_faults s) (st_fs s) (backupDirOf' a uri source)).
  destruct (Fs.writeFile _ _ fs0 _ _) as [r1 fs1] eqn:Hw1.
  apply writeFile_inv in Hw1 as [(-> & -> & Ho1)|[[e1 ->] ->]];
    [|intros [= <- <-]; cbn [st_fs st_faults with_fs]; split; [congruence|by left]].
  unfold mbind at 1, ST_bind at 1, fs_change at 1. cbn [st_fs st_faults with_fs].
  rewrite Hfl, Hfl0.
  destruct (Fs.writeFile _ _ _ (_ +:+ ".meta.json") _) as [r2 fs2] eqn:Hw2.
  apply writeFile_inv in Hw2 as [(-> & -> & Ho2)|[[e2 ->] ->]].
  - unfold mret, ST_ret. intros [= <- <-]. cbn [st_fs st_faults with_fs].
    split; [congruence|]. right. right. eauto.
  - intros [= <- <-]. cbn [st_fs st_faults with_fs].
    split; [congruence|]. right. left. eauto.
Qed.

(** So it keeps everything but those two. *)
Lemma createBackup_kept uri source now1 now2 s r s' :
  createBackup' uri source now1 now2 s = (r, s') ->
  st_fs s' = st_fs s
  \/ exists a,
       getAuthId' s = (Ok (Some a), s) /\ a <> EmptyString
       /\ kept_but [backupPathOf' a uri source now1;
                    backupPathOf' a uri source now1 +:+ ".meta.json"]
            (st_fs s) (st_fs s').
Proof.
  intros H. apply createBackup_effect in H as [_ [->|(a & Ha & Hne & H)]]; [by left|].
  right. exists a. split; [done|]. split; [done|]. cbv zeta in H.
  destruct H as [->|[[d ->]|(d & d' & ->)]].
  - apply kept_but_nil, ensured_kept.
  - eapply kept_but_trans; [apply kept_but_nil, ensured_kept|].
    apply kept_but_insert. by left.
  - eapply kept_but_trans; [apply kept_but_nil, ensured_kept|].
    eapply kept_but_trans; apply kept_but_insert; [by left|by right; left].
Qed.

(** What it writes is well-formed UTF-8. *)
Lemma createBackup_well_formed uri source now1 now2 s r s' q :
  createBackup' uri source now1 now2 s = (r, s') ->
  well_formed_at (st_fs s) q -> well_formed_at (st_fs s') q.
Proof.
  intros H (c & Hc & Hclean).
  apply createBackup_effect in H as [_ [->|(a & _ & _ & H)]]; [by exists c|].
  cbv zeta in H. unfold well_formed_at.
  assert (Hens : forall d, Fs.content (ensured' (st_faults s) (st_fs s) d) q = Some c)
    by (intros d; by rewrite content_ensured).
  destruct H as [->|[[t ->]|(t & t' & ->)]]; [by exists c| |].
  - destruct (decide (backupPathOf' a uri source now1 = q)) as [<-|Hne].
    + rewrite content_insert_eq. eauto using clean_encode.
    + rewrite content_insert_ne by done. eauto.
  - destruct (decide (backupPathOf' a uri source now1 +:+ ".meta.json" = q)) as [<-|Hm].
    { rewrite content_insert_eq. eauto using clean_encode. }
    rewrite content_insert_ne by done.
    destruct (decide (backupPathOf' a uri source now1 = q)) as [<-|Hne].
    + rewrite content_insert_eq. eauto using clean_encode.
    + rewrite content_insert_ne by done. eauto.
Qed.

(** A backup leaves every file but its own two as it was. *)
Lemma createBackup_frame uri source now1 now2 s r s' q :
  createBackup' uri source now1 now2 s = (r, s') ->
  (forall a, getAuthId' s = (Ok (Some a), s) ->
     backupPathOf' a uri source now1 <> q
     /\ backupPathOf' a uri source now1 +:+ ".meta.json" <> q) ->
  Fs.content (st_fs s') q = Fs.content (st_fs s) q.
Proof.
  intros H Hq. apply createBackup_kept in H as [->|(a & Ha & _ & H)]; [done|].
  destruct (Hq a Ha) as [Hp Hm].
  eapply kept_but_content; [exact H|]. by apply not_in_two.
Qed.

(** The two files that a successful [createBackup] leaves behind. *)
Lemma createBackup_contents uri source now1 now2 s p s' :
  createBackup' uri source now1 now2 s = (Ok p, s') ->
  is_Some (Fs.content (st_fs s') p)
  /\ is_Some (Fs.content (st_fs s') (p +:+ ".meta.json")).
Proof.
  intros H. apply createBackup_inv in H as (a & info & c & _ & _ & _ & _ & -> & _).
  rewrite content_insert_eq.
  rewrite content_insert_ne by (apply append_ne; done).
  rewrite content_insert_eq. eauto.
Qed.

(** C2, in the form that holds of the code.
    Every successful [createBackup(uri, source)]
    persists the record as exactly a pair of files and returns the
    content file's path: the content file, at the time-stamp-named path,
    holds the file's content as read with the ['utf8'] encoding and
    written back (the very bytes whenever they are well-formed UTF-8);
    the sidecar, at that path followed by [.meta.json], holds the JSON
    text of the metadata ([originalFile], ISO [timestamp], [source],
    [authId], [relativePath], [accountInfo]); no other file changes. *)
Theorem createBackup_persists_pair uri source now1 now2 s p s' :
  createBackup path_join path_dirname path_basename path_relative
    JSON_stringify JSON_parse_project W B uri source now1 now2 s = (Ok p, s') ->
  persisted_pair path_join path_dirname path_basename path_relative
    JSON_stringify W B uri source now1 now2 s p s'.
Proof.
  intros H.
  apply createBackup_inv in H as (a & info & c & Ha & Hne & -> & Hc & Hfs & _).
  set (p := backupPathOf' a uri source now1) in *.
  assert (Hpm : p +:+ ".meta.json" <> p) by (by apply append_ne).
  assert (Hp : Fs.content (st_fs s') p = Some (Utf8.reencode c)).
  { rewrite Hfs, content_insert_ne by done. apply content_insert_eq. }
  exists a, info, c. repeat split; try done.
  - intros Hclean. by rewrite Hp, Hclean.
  - rewrite Hfs. apply content_insert_eq.
  - intros q Hq Hqm. rewrite Hfs, !content_insert_ne by done.
    apply content_ensured.
Qed.

Lemma try_rethrow {S A} (body : ST S A) s :
  try_catch body (fun e => throw e) s = body s.
Proof. unfold try_catch, throw. by destruct (body s) as [[a|e] s1]. Qed.

Lemma restoreFile_effect target backupPath tm s r s' :
  restoreFile' target backupPath tm s = (r, s') ->
  st_accounts s' = st_accounts s /\ st_faults s' = st_faults s
  /\ kept_but [target] (st_fs s) (st_fs s').
Proof.
  intros H. unfold restoreFile in H.
  pose proof (ensureDirectoryExists_run (path_dirname target) s) as Hens.
  set (ens := ensureDirectoryExists' (path_dirname target)) in *. clearbody ens.
  rewrite try_rethrow in H.
  unfold throw_if, throw, mbind, ST_bind, mret, ST_ret, fs_read in H.
  destruct (is_empty backupPath); [simplify_eq; auto with fsdb|].
  destruct (is_empty target); [simplify_eq; auto with fsdb|].
  cbn [negb] in H.
  destruct (Fs.existsSync (st_fs s) backupPath); cbn [negb] in H;
    [|simplify_eq; auto with fsdb].
  destruct (Fs.stat (st_fs s) backupPath) as [stats|e]; [|simplify_eq; auto with fsdb].
  destruct (is_empty (path_dirname target)); [simplify_eq; auto with fsdb|].
  destruct Hens as (r0 & s0 & E & Hfs0 & Hac0 & Hfl0 & _). rewrite E in H.
  assert (K0 : kept_but [target] (st_fs s) (st_fs s0))
    by (rewrite Hfs0; auto with fsdb).
  destruct r0 as [[]|e0]; [|simplify_eq; auto].
  unfold try_catch, fs_change, raced_read, raced_write, fs_read in H.
  pose proof (copyFile_kept path_dirname (st_faults s0) (st_fs s0) backupPath target)
    as [Kc _].
  destruct (Fs.copyFile _ _ _ _ _) as [rc fs1]. cbn [snd] in Kc.
  destruct rc as [[]|ec].
  { simplify_eq. cbn. eauto using kept_but_trans. }
  cbn [st_fs st_faults with_fs] in H.
  match type of H with context [race _ _ (?a, ?rd)] =>
    destruct (race timeoutMs restoreTimeout (a, rd)) as [t [pl|er]] end;
    cbn [snd] in H; [|simplify_eq; cbn; eauto using kept_but_trans].
  pose proof (writeFile_kept path_dirname (st_faults s0) fs1 target (payload_bytes pl))
    as Kw.
  destruct (Fs.writeFile _ _ _ _ _) as [rw fs2]. cbn [snd] in Kw.
  match type of H with context [race _ _ (?a, rw)] =>
    destruct (race timeoutMs restoreTimeout (a, rw)) as [t' [[]|ew]] end;
    cbn [snd st_fs with_fs] in H.
  - destruct (Fs.existsSync fs2 target); cbn [negb] in H; simplify_eq; cbn;
      eauto using kept_but_trans.
  - simplify_eq; cbn; eauto using kept_but_trans.
Qed.

Lemma restoreFile_frame target backupPath tm s r s' q :
  restoreFile' target backupPath tm s = (r, s') ->
  q <> target -> Fs.content (st_fs s') q = Fs.content (st_fs s) q.
Proof.
  intros H Hq. apply restoreFile_effect in H as (_ & _ & H).
  eapply kept_but_content; [exact H|]. by apply not_in_one.
Qed.

(** A successful [restoreFile] leaves at the target what the backup
    file holds: its very bytes, or what reading it as text and writing
    that back gives. *)
Lemma restoreFile_ok_inv target backupPath tm s s' :
  restoreFile' target backupPath tm s = (Ok tt, s') ->
  exists c,
    st_fs s !! backupPath = Some (NFile c)
    /\ (Fs.content (st_fs s') target = Some c
        \/ Fs.content (st_fs s') target = Some (Utf8.reencode c)).
Proof.
  intros H. unfold restoreFile in H.
  pose proof (ensureDirectoryExists_run (path_dirname target) s) as Hens.
  set (ens := ensureDirectoryExists' (path_dirname target)) in *. clearbody ens.
  rewrite try_rethrow in H.
  unfold throw_if, throw, mbind, ST_bind, mret, ST_ret, fs_read in H.
  destruct (is_empty backupPath); [done|].
  destruct (is_empty target); [done|].
  unfold Fs.existsSync at 1 in H.
  destruct (st_fs s !! backupPath) as [nb|] eqn:Hsrc; cbn [negb] in H; [|done].
  destruct (Fs.stat (st_fs s) backupPath) as [stats|e]; [|done].
  destruct (is_empty (path_dirname target)); [done|].
  destruct Hens as (r0 & s0 & E & Hfs0 & Hac0 & Hfl0 & _). rewrite E in H.
  assert (Hsrc0 : st_fs s0 !! backupPath = Some nb)
    by (rewrite Hfs0; by apply lookup_ensured_some).
  destruct r0 as [[]|e0]; [|done].
  unfold try_catch, fs_change, raced_read, raced_write, fs_read in H.
  pose proof (copyFile_kept path_dirname (st_faults s0) (st_fs s0) backupPath target)
    as [_ Kc].
  destruct (Fs.copyFile _ _ _ _ _) as [rc fs1] eqn:Hcopy. cbn [snd] in Kc.
  destruct rc as [[]|ec].
  { apply copyFile_ok_inv in Hcopy as (c & Hc & Hdst).
    simplify_eq. exists c. split; [done|]. by left. }
  cbn [st_fs st_faults with_fs] in H.
  rewrite Hsrc0 in Kc.
  unfold race, Fs.readFileUtf8, Fs.readFile in H. rewrite Kc in H.
  destruct nb as [c|]; [|by repeat case_match].
  exists c. split; [done|].
  repeat (case_match; simplify_eq; cbn [fst snd st_fs with_fs payload_bytes] in * );
    match goal with
    | Hw : Fs.writeFile _ _ _ _ _ = _ |- _ =>
        apply writeFile_inv in Hw as [(_ & -> & _)|[[? ?] _]]; [|done]
    end;
    rewrite content_insert_eq; auto.
Qed.

(** The direct copy goes through when the directory of the target is
    there and nothing refuses the copy. *)
Lemma restoreFile_copy target backupPath tm s c :
  backupPath <> EmptyString -> target <> EmptyString ->
  path_dirname target <> EmptyString ->
  st_fs s !! backupPath = Some (NFile c) ->
  st_fs s !! path_dirname target = Some NDir ->
  st_fs s !! target <> Some NDir ->
  Fs.refuse_write (st_faults s) target = None ->
  Fs.refuse_copy (st_faults s) backupPath target = None ->
  exists s', restoreFile' target backupPath tm s = (Ok tt, s')
             /\ Fs.content (st_fs s') target = Some c
             /\ kept_but [target] (st_fs s) (st_fs s').
Proof.
  intros Hb Ht Hd Hsrc Hdir Hdst Hw Hc.
  unfold restoreFile. rewrite try_rethrow.
  rewrite (is_empty_false _ Hb), (is_empty_false _ Ht), (is_empty_false _ Hd).
  unfold throw_if, throw, mbind, ST_bind, mret, ST_ret, fs_read, Fs.existsSync, Fs.stat.
  rewrite Hsrc. cbn [negb].
  rewrite ensureDirectoryExists_there by (unfold Fs.existsSync; by rewrite Hdir).
  unfold try_catch, fs_change, Fs.copyFile. rewrite Hsrc.
  rewrite (open_error_none _ _ _ _ _ Hdir Hdst Hw).
  destruct (String.eqb_spec backupPath target) as [<-|Hne].
  - eexists. split; [done|]. cbn. split; [by apply content_lookup|auto with fsdb].
  - rewrite Hc. eexists. split; [done|]. cbn.
    split; [apply content_insert_eq|]. apply kept_but_insert. by left.
Qed.

(** C1, in the form that holds of the code.
    Backup/restore round trip, for a file whose content is well-formed
    UTF-8: if [createBackup(uri, source)] succeeds and returns [p], then
    every [restoreFile(uri, p)] that succeeds, run before anything else
    changes, leaves at [uri] exactly the content the file had when the
    backup was taken; and it does succeed when the directory of [uri]
    is there and the file system refuses neither to open [uri] for
    writing nor the copy from [p] to [uri]. (That [uri], [p] and the
    directory name of [uri] are not the empty string always holds of a
    path of an existing file and of what Node's [path.join] and
    [path.dirname] return.) *)
Theorem backup_restore_roundtrip uri source now1 now2 tm s p s1 c :
  Fs.content (st_fs s) uri = Some c ->
  Utf8.clean c ->
  createBackup path_join path_dirname path_basename path_relative
    JSON_stringify JSON_parse_project W B uri source now1 now2 s = (Ok p, s1) ->
  (forall s2, restoreFile path_dirname uri p tm s1 = (Ok tt, s2) ->
              Fs.content (st_fs s2) uri = Some c)
  /\ (uri <> EmptyString -> p <> EmptyString -> path_dirname uri <> EmptyString ->
      st_fs s !! path_dirname uri = Some NDir ->
      Fs.refuse_write (st_faults s) uri = None ->
      Fs.refuse_copy (st_faults s) p uri = None ->
      exists s2, restoreFile path_dirname uri p tm s1 = (Ok tt, s2)).
Proof.
  intros Hc Hclean H.
  apply createBackup_inv in H
    as (a & info & c' & Ha & Hne & Hpeq & Hc' & Hfs & Hfl & Hpd & Hmd).
  rewrite Hc in Hc'. injection Hc' as <-.
  assert (Hpm : p +:+ ".meta.json" <> p) by (by apply append_ne).
  set (fs0 := ensured' (st_faults s) (st_fs s) (backupDirOf' a uri source)) in *.
  assert (Hsrc : st_fs s1 !! p = Some (NFile c)).
  { rewrite Hfs, lookup_insert_ne, lookup_insert_eq by done. by rewrite Hclean. }
  split.
  - intros s2 Hr. apply restoreFile_ok_inv in Hr as (c0 & Hc0 & Hr).
    rewrite Hsrc in Hc0. injection Hc0 as <-. rewrite Hclean in Hr. by destruct Hr.
  - intros Huri Hp Hdir Hd Hw Hcp.
    assert (Hfile : exists c0, st_fs s1 !! uri = Some (NFile c0)).
    { rewrite Hfs.
      destruct (decide (p +:+ ".meta.json" = uri)) as [<-|Hn1].
      { rewrite lookup_insert_eq. by eexists. }
      rewrite lookup_insert_ne by done.
      destruct (decide (p = uri)) as [<-|Hn2].
      { rewrite lookup_insert_eq. by eexists. }
      rewrite lookup_insert_ne by done.
      exists c. apply lookup_ensured_some. by apply content_lookup. }
    destruct Hfile as [c0 Hfile].
    assert (Hd0 : fs0 !! path_dirname uri = Some NDir)
      by (by apply lookup_ensured_some).
    assert (Hd1 : st_fs s1 !! path_dirname uri = Some NDir).
    { rewrite Hfs, !lookup_insert_ne; [done| |]; intros E; rewrite E in *; congruence. }
    destruct (restoreFile_copy uri p tm s1 c) as (s2 & Hr & _); try done;
      try congruence.
    by exists s2.
Qed.

Local Abbreviation getOriginalFilePath' :=
  (getOriginalFilePath path_join path_dirname path_basename path_relative path_sep
     JSON_parse_sidecar W B).
Local Abbreviation entryDetails' := (entryDetails JSON_parse_sidecar).
Local Abbreviation scanFile' :=
  (scanFile path_join path_dirname path_basename path_relative path_sep
     JSON_parse_sidecar W B).

Lemma startsWith_app p t : Str.startsWith p (p +:+ t) = true.
Proof. induction p as [|a p IH]; simpl; [done|]. by rewrite Ascii.eqb_refl. Qed.

Lemma endsWith_app p s : Str.endsWith p s = true -> exists t, s = t +:+ p.
Proof.
  induction s as [|a s IH]; cbn [Str.endsWith].
  - destruct p; simpl; [by exists EmptyString|discriminate].
  - destruct (String.eqb_spec (String a s) p) as [<-|_]; [by exists EmptyString|].
    intros H. destruct (IH H) as [t ->]. by exists (String a t).
Qed.

Lemma split_go_nonempty sep skip cur s : 1 <= length (Str.split_go sep skip cur s).
Proof.
  revert skip cur. induction s as [|a s IH]; intros skip cur; simpl; [lia|].
  destruct skip; [|apply IH].
  case_match; simpl; [lia|apply IH].
Qed.

Lemma split_dot_two t u cur :
  2 <= length (Str.split_go "." 0 cur (t +:+ String "." u)).
Proof.
  revert cur. induction t as [|a t IH]; intros cur.
  - simpl. pose proof (split_go_nonempty "." 0 EmptyString u). lia.
  - change (String a t +:+ String "." u) with (String a (t +:+ String "." u)).
    cbn [Str.split_go]. case_match.
    + cbn [length]. pose proof (split_go_nonempty "." (String.length "." - 1) EmptyString
                                  (t +:+ String "." u)). lia.
    + apply IH.
Qed.

(** The name of a backup file has a piece before its [bak] extension:
    the time stamp is read from it without an exception. *)
Lemma backup_name_timestamp entryName :
  is_backup_name entryName = true ->
  exists ts, slice_m2_m1_0 (Str.split "." entryName) = Some ts.
Proof.
  unfold is_backup_name. intros H. apply andb_prop in H as [H _].
  apply endsWith_app in H as [t ->].
  unfold slice_m2_m1_0, Str.split.
  pose proof (split_dot_two t "bak" EmptyString) as Hlen.
  set (l := Str.split_go "." 0 EmptyString (t +:+ ".bak")) in *.
  destruct (Nat.leb_spec 2 (length l)); [|lia].
  destruct (lookup_lt_is_Some_2 l (length l - 2)) as [ts Hts]; [lia|]. eauto.
Qed.

(** [getOriginalFilePath] looks at the file system at one place only:
    the backup path followed by [.meta.json]. *)
Lemma getOriginalFilePath_sidecar_only (fs1 fs2 : gmap string node) p :
  fs1 !! (p +:+ ".meta.json") = fs2 !! (p +:+ ".meta.json") ->
  getOriginalFilePath' fs1 p = getOriginalFilePath' fs2 p.
Proof.
  intros H. unfold getOriginalFilePath, Fs.existsSync, Fs.readFileUtf8, Fs.readFile.
  by rewrite H.
Qed.

(** So does the step of [findBackupFiles] that records a backup file. *)
Lemma scanFile_sidecar_only (fs1 fs2 : gmap string node) source p entryName backups :
  is_backup_name entryName = true ->
  fs1 !! (p +:+ ".meta.json") = fs2 !! (p +:+ ".meta.json") ->
  scanFile' fs1 source p entryName backups = scanFile' fs2 source p entryName backups.
Proof.
  intros Hn H. unfold scanFile.
  rewrite (getOriginalFilePath_sidecar_only fs1 fs2 p H).
  destruct (getOriginalFilePath' fs2 p) as [[|c k]|] eqn:Hk; try done.
  destruct (backup_name_timestamp _ Hn) as [ts Hts].
  revert Hk.
  unfold getOriginalFilePath, entryDetails, Fs.existsSync, Fs.readFileUtf8, Fs.readFile.
  rewrite H, Hts.
  destruct (fs2 !! (p +:+ ".meta.json")) as [[txt|]|]; try done.
  destruct (JSON_parse_sidecar (Utf8.decode txt)); done.
Qed.

Local Abbreviation inferred_path' :=
  (inferred_path path_join path_dirname path_basename path_relative path_sep B).

(** With a sidecar that parses, the original path and the details of a
    backup are the sidecar's. *)
Lemma sidecar_read fs p bytes sc :
  Fs.content fs (p +:+ ".meta.json") = Some bytes ->
  JSON_parse_sidecar (Utf8.decode bytes) = Some sc ->
  getOriginalFilePath' fs p = sc_originalFile sc
  /\ forall entryName,
       entryDetails' fs p entryName
       = Ok (DateOf (sc_timestamp sc), Str.or_empty (sc_authId sc), sidecar_account sc).
Proof.
  intros Hm%content_lookup Hsc.
  unfold getOriginalFilePath, entryDetails, Fs.existsSync, Fs.readFileUtf8, Fs.readFile.
  by rewrite Hm, Hsc.
Qed.

(** Without a sidecar, the original path is inferred from the layout. *)
Lemma sidecar_absent fs p :
  Fs.existsSync fs (p +:+ ".meta.json") = false ->
  getOriginalFilePath' fs p
  = option_map (fun workspaceRoot => inferred_path' workspaceRoot p) (workspaceFolder W).
Proof.
  intros Hm. unfold getOriginalFilePath. rewrite Hm.
  by destruct (workspaceFolder W).
Qed.

(** C5. Sidecar-prefix invariant: a successful [createBackup] leaves the
    content file at the returned path [p] and the sidecar at [p]
    followed by [.meta.json], of which [p] is a prefix. The metadata
    that [getOriginalFilePath] and [findBackupFiles] give for a backup
    at [p] are those of the file at [p] followed by [.meta.json]: when
    it holds JSON, the original path, time stamp, auth id and account
    are the ones it states; when there is no such file, the original
    path is inferred from the layout; and no other file has any
    influence. Neither [createBackup] nor [restoreFile], whatever its
    outcome, touches a content file or a sidecar other than the ones it
    writes. *)
Theorem sidecar_prefix_invariant :
  (forall uri source now1 now2 s p s',
      createBackup path_join path_dirname path_basename path_relative
        JSON_stringify JSON_parse_project W B uri source now1 now2 s = (Ok p, s') ->
      is_Some (Fs.content (st_fs s') p)
      /\ is_Some (Fs.content (st_fs s') (p +:+ ".meta.json"))
      /\ Str.startsWith p (p +:+ ".meta.json") = true)
  /\ (forall fs p bytes sc,
        Fs.content fs (p +:+ ".meta.json") = Some bytes ->
        JSON_parse_sidecar (Utf8.decode bytes) = Some sc ->
        getOriginalFilePath path_join path_dirname path_basename path_relative path_sep
          JSON_parse_sidecar W B fs p = sc_originalFile sc
        /\ forall entryName,
             entryDetails JSON_parse_sidecar fs p entryName
             = Ok (DateOf (sc_timestamp sc), Str.or_empty (sc_authId sc),
                   sidecar_account sc))
  /\ (forall fs p,
        Fs.existsSync fs (p +:+ ".meta.json") = false ->
        getOriginalFilePath' fs p
        = option_map (fun workspaceRoot => inferred_path' workspaceRoot p)
            (workspaceFolder W))
  /\ (forall (fs1 fs2 : gmap string node) p,
        fs1 !! (p +:+ ".meta.json") = fs2 !! (p +:+ ".meta.json") ->
        getOriginalFilePath' fs1 p = getOriginalFilePath' fs2 p)
  /\ (forall (fs1 fs2 : gmap string node) source p entryName backups,
        is_backup_name entryName = true ->
        fs1 !! (p +:+ ".meta.json") = fs2 !! (p +:+ ".meta.json") ->
        scanFile' fs1 source p entryName backups
        = scanFile' fs2 source p entryName backups)
  /\ (forall q,
        (forall uri source now1 now2 s r s',
            createBackup' uri source now1 now2 s = (r, s') ->
            (forall a, getAuthId' s = (Ok (Some a), s) ->
               let p := backupPathOf' a uri source now1 in
               (p <> q /\ p +:+ ".meta.json" <> q)
               /\ (p <> q +:+ ".meta.json"
                   /\ p +:+ ".meta.json" <> q +:+ ".meta.json")) ->
            Fs.content (st_fs s') q = Fs.content (st_fs s) q
            /\ Fs.content (st_fs s') (q +:+ ".meta.json")
               = Fs.content (st_fs s) (q +:+ ".meta.json"))
        /\ (forall target backupPath tm s r s',
              restoreFile' target backupPath tm s = (r, s') ->
              q <> target -> q +:+ ".meta.json" <> target ->
              Fs.content (st_fs s') q = Fs.content (st_fs s) q
              /\ Fs.content (st_fs s') (q +:+ ".meta.json")
                 = Fs.content (st_fs s) (q +:+ ".meta.json"))).
Proof.
  split; [|split; [|split; [|split; [|split]]]].
  - intros uri source now1 now2 s p s' H.
    apply createBackup_contents in H as [Hp Hm].
    auto using startsWith_app.
  - apply sidecar_read.
  - apply sidecar_absent.
  - apply getOriginalFilePath_sidecar_only.
  - apply scanFile_sidecar_only.
  - intros q. split.
    + intros uri source now1 now2 s r s' H Hq.
      split; eapply createBackup_frame; try exact H; intros a Ha; apply (Hq a Ha).
    + intros target backupPath tm s r s' H Hq Hm.
      split; eapply restoreFile_frame; eauto.
Qed.

(** ** [compareFiles] and the deadlines *)

Local Abbreviation compareFiles' := compareFiles.

Lemma timeout_messages :
  message_of restoreTimeout = "File restoration timed out after 120 seconds"
  /\ message_of compareTimeout = "File comparison timed out after 120 seconds".
Proof. split; reflexivity. Qed.

Lemma compareFiles_never_rejects f1 f2 tm s :
  exists b, compareFiles f1 f2 tm s = (Ok b, s).
Proof.
  unfold compareFiles, compareFiles_try, try_catch, throw_if, throw, mbind, ST_bind,
    mret, ST_ret, fs_read. simpl.
  repeat (case_match; simplify_eq; simpl in *); eauto.
Qed.

Lemma compareFiles_catch f1 f2 tm s e s' :
  compareFiles_try f1 f2 tm s = (Throw e, s') ->
  compareFiles f1 f2 tm s = (Ok true, s').
Proof. unfold compareFiles, try_catch. by intros ->. Qed.

Lemma compareFiles_unreadable f1 f2 tm s :
  Fs.content (st_fs s) f1 = None \/ Fs.content (st_fs s) f2 = None ->
  compareFiles f1 f2 tm s = (Ok true, s).
Proof.
  intros H. unfold Fs.content in H.
  unfold compareFiles, compareFiles_try, try_catch, throw_if, throw, mbind, ST_bind,
    mret, ST_ret, fs_read, Fs.existsSync, Fs.stat, all2, race,
    Fs.readFileUtf8, Fs.readFile.
  destruct (st_fs s !! f1) as [[c1|]|] eqn:E1, (st_fs s !! f2) as [[c2|]|] eqn:E2;
    try (by destruct H); simpl; rewrite ?E1, ?E2; simpl;
    repeat (case_match; simplify_eq; simpl in * ); eauto.
Qed.

Lemma compareFiles_sizes f1 f2 tm s c1 c2 :
  Fs.content (st_fs s) f1 = Some c1 -> Fs.content (st_fs s) f2 = Some c2 ->
  length c1 <> length c2 ->
  compareFiles f1 f2 tm s = (Ok true, s).
Proof.
  intros H1%content_lookup H2%content_lookup Hlen.
  unfold compareFiles, compareFiles_try, try_catch, throw_if, throw, mbind, ST_bind,
    mret, ST_ret, fs_read, Fs.existsSync, Fs.stat.
  cbv beta iota. repeat (progress (rewrite ?H1, ?H2; simpl)).
  destruct (N.eqb_spec (N.of_nat (length c1)) (N.of_nat (length c2))) as [E|]; [lia|done].
Qed.

Lemma compareFiles_try_read f1 f2 tm s c1 c2 :
  Fs.content (st_fs s) f1 = Some c1 -> Fs.content (st_fs s) f2 = Some c2 ->
  length c1 = length c2 ->
  compareFiles_try f1 f2 tm s =
    (if ((timeoutMs <? c_read1 tm) || (timeoutMs <? c_read2 tm))%N
     then Throw compareTimeout
     else Ok (bool_decide (Utf8.decode c1 <> Utf8.decode c2)), s).
Proof.
  intros H1%content_lookup H2%content_lookup Hlen.
  unfold compareFiles_try, throw_if, throw, mbind, ST_bind,
    mret, ST_ret, fs_read, Fs.existsSync, Fs.stat, all2, race, Fs.readFileUtf8, Fs.readFile.
  cbv beta iota. repeat (progress (rewrite ?H1, ?H2, ?Hlen, ?N.eqb_refl; simpl)).
  destruct (timeoutMs <? c_read1 tm)%N, (timeoutMs <? c_read2 tm)%N; simpl; try done.
Qed.

(** C9, in the form that holds of the code.
    [compareFiles] never rejects and always gives a boolean. When both
    files can be read: it gives [true] when the sizes differ, whatever
    the reads would do; when the sizes are equal and the reads settle by
    the deadline, it gives [true] exactly when the texts that the two
    contents decode to differ, which for contents that are well-formed
    UTF-8 is exactly when the contents differ. On any error (a file that
    is missing or cannot be read, the timeout) it gives [true]. *)
Theorem compareFiles_total f1 f2 tm s :
  (exists b, compareFiles f1 f2 tm s = (Ok b, s))
  /\ (forall c1 c2,
        Fs.content (st_fs s) f1 = Some c1 -> Fs.content (st_fs s) f2 = Some c2 ->
        (length c1 <> length c2 -> compareFiles f1 f2 tm s = (Ok true, s))
        /\ (length c1 = length c2 ->
            (c_read1 tm <= timeoutMs)%N -> (c_read2 tm <= timeoutMs)%N ->
            compareFiles f1 f2 tm s
            = (Ok (bool_decide (Utf8.decode c1 <> Utf8.decode c2)), s))
        /\ (Utf8.clean c1 -> Utf8.clean c2 ->
            (c_read1 tm <= timeoutMs)%N -> (c_read2 tm <= timeoutMs)%N ->
            compareFiles f1 f2 tm s = (Ok (bool_decide (c1 <> c2)), s))
        /\ (length c1 = length c2 ->
            (timeoutMs < c_read1 tm \/ timeoutMs < c_read2 tm)%N ->
            compareFiles f1 f2 tm s = (Ok true, s)))
  /\ (Fs.content (st_fs s) f1 = None \/ Fs.content (st_fs s) f2 = None ->
      compareFiles f1 f2 tm s = (Ok true, s))
  /\ (forall e s', compareFiles_try f1 f2 tm s = (Throw e, s') ->
                   compareFiles f1 f2 tm s = (Ok true, s')).
Proof.
  split; [apply compareFiles_never_rejects|].
  split; [|split; [apply compareFiles_unreadable|apply compareFiles_catch]].
  intros c1 c2 H1 H2.
  assert (Hintime : length c1 = length c2 ->
            (c_read1 tm <= timeoutMs)%N -> (c_read2 tm <= timeoutMs)%N ->
            compareFiles f1 f2 tm s
            = (Ok (bool_decide (Utf8.decode c1 <> Utf8.decode c2)), s)).
  { intros Hlen Ht1 Ht2. unfold compareFiles, try_catch.
    rewrite (compareFiles_try_read _ _ _ _ _ _ H1 H2 Hlen).
    destruct (N.ltb_spec timeoutMs (c_read1 tm)); [lia|].
    by destruct (N.ltb_spec timeoutMs (c_read2 tm)); [lia|]. }
  split; [by apply compareFiles_sizes|]. split; [done|]. split.
  - intros Hc1 Hc2 Ht1 Ht2.
    destruct (decide (length c1 = length c2)) as [Hlen|Hlen].
    + rewrite Hintime by done.
      do 2 f_equal. apply bool_decide_ext. split.
      * intros Hd ->. done.
      * intros Hd Hdec. apply Hd. by apply clean_decode_inj.
    + rewrite (compareFiles_sizes _ _ _ _ _ _ H1 H2 Hlen).
      do 2 f_equal. symmetry. apply bool_decide_eq_true. by intros ->.
  - intros Hlen Ht. unfold compareFiles, try_catch.
    rewrite (compareFiles_try_read _ _ _ _ _ _ H1 H2 Hlen).
    assert (Hor : ((timeoutMs <? c_read1 tm) || (timeoutMs <? c_read2 tm))%N = true)
      by (apply orb_true_iff; destruct Ht as [Ht|Ht]; apply N.ltb_lt in Ht; auto).
    by rewrite Hor.
Qed.

Lemma compareFiles_state f1 f2 tm s r s' :
  compareFiles f1 f2 tm s = (r, s') -> s' = s.
Proof.
  destruct (compareFiles_never_rejects f1 f2 tm s) as [b Hb]. congruence.
Qed.

(** The fallback of [restoreFile], reached when the direct copy fails:
    the read and the write are each awaited in a race with the timer. *)
Lemma restoreFile_fallback target backupPath tm s c e fs1 :
  backupPath <> EmptyString -> target <> EmptyString ->
  path_dirname target <> EmptyString ->
  Fs.existsSync (st_fs s) (path_dirname target) = true ->
  Fs.content (st_fs s) backupPath = Some c ->
  Fs.copyFile path_dirname (st_faults s) (st_fs s) backupPath target = (Throw e, fs1) ->
  restoreFile' target backupPath tm s =
    let read_at := (t_stat tm + t_copy tm + t_read tm)%N in
    let data :=
      if (5 * 1024 * 1024 <? N.of_nat (length c))%N then c else Utf8.reencode c in
    if (timeoutMs <? read_at)%N then (Throw restoreTimeout, with_fs s fs1)
    else
      let '(written, fs2) :=
        Fs.writeFile path_dirname (st_faults s) fs1 target data in
      if (timeoutMs <? read_at + t_write tm)%N
      then (Throw restoreTimeout, with_fs s fs2)
      else (written, with_fs s fs2).
Proof.
  intros Hb Ht Hd Hdir Hsrc%content_lookup Hcopy.
  pose proof (copyFile_kept path_dirname (st_faults s) (st_fs s) backupPath target)
    as [_ Kc].
  rewrite Hcopy in Kc. cbn [snd] in Kc. rewrite Hsrc in Kc.
  unfold restoreFile. rewrite try_rethrow.
  rewrite (is_empty_false _ Hb), (is_empty_false _ Ht), (is_empty_false _ Hd).
  unfold throw_if, throw, mbind, ST_bind, mret, ST_ret, fs_read, Fs.existsSync, Fs.stat.
  rewrite Hsrc. cbn [negb].
  rewrite ensureDirectoryExists_there by done.
  unfold try_catch, fs_change. rewrite Hcopy.
  unfold raced_read, raced_write, fs_read, race, Fs.readFileUtf8, Fs.readFile.
  cbn [st_fs st_faults with_fs fst snd]. rewrite Kc, ?Hsrc.
  cbv zeta. cbn [Fs.size].
  destruct (timeoutMs <? t_stat tm + t_copy tm + t_read tm)%N; cbn [snd]; [done|].
  destruct (5 * 1024 * 1024 <? N.of_nat (length c))%N; cbn [snd payload_bytes];
    fold (Utf8.reencode c);
    (destruct (Fs.writeFile _ _ _ _ _) as [rw fs2] eqn:Hw;
     cbn [fst snd st_fs with_fs];
     destruct (timeoutMs <? _)%N; cbn [snd]; [done|];
     apply writeFile_inv in Hw as [(-> & -> & _)|[[e' ->] ->]]; [|done];
     unfold Fs.existsSync; cbn [st_fs with_fs]; by rewrite lookup_insert_eq).
Qed.

(** C7. The read and the write that [restoreFile] falls back on when
    the direct copy fails, and the two reads of [compareFiles], are each
    awaited in a race against a timer of [timeoutMs] = 120000 ms. When
    the timer fires before such an operation has settled, the awaited
    race rejects with the timeout error: [restoreFile] then rejects with
    it; in [compareFiles] it is what the [try] block throws, and the
    method answers [true]. When the operations settle by the deadline
    they win the race: [restoreFile] ends as its write ends, with the
    content of the backup at the target when the write goes through, and
    [compareFiles] gives the comparison of the two texts. *)
Theorem deadline_races :
  timeoutMs = 120000%N
  /\ message_of restoreTimeout = "File restoration timed out after 120 seconds"
  /\ message_of compareTimeout = "File comparison timed out after 120 seconds"
  /\ (forall target backupPath tm s c e fs1,
        backupPath <> EmptyString -> target <> EmptyString ->
        path_dirname target <> EmptyString ->
        Fs.existsSync (st_fs s) (path_dirname target) = true ->
        Fs.content (st_fs s) backupPath = Some c ->
        Fs.copyFile path_dirname (st_faults s) (st_fs s) backupPath target
          = (Throw e, fs1) ->
        let read_at := (t_stat tm + t_copy tm + t_read tm)%N in
        let data :=
          if (5 * 1024 * 1024 <? N.of_nat (length c))%N then c else Utf8.reencode c in
        (timeoutMs < read_at ->
           restoreFile path_dirname target backupPath tm s
           = (Throw restoreTimeout, with_fs s fs1))%N
        /\ (read_at <= timeoutMs -> timeoutMs < read_at + t_write tm ->
             fst (restoreFile path_dirname target backupPath tm s)
             = Throw restoreTimeout)%N
        /\ (read_at + t_write tm <= timeoutMs ->
             forall written fs2,
               Fs.writeFile path_dirname (st_faults s) fs1 target data = (written, fs2) ->
               restoreFile path_dirname target backupPath tm s = (written, with_fs s fs2)
               /\ (written = Ok tt -> Fs.content fs2 target = Some data))%N)
  /\ (forall f1 f2 tm s c1 c2,
        Fs.content (st_fs s) f1 = Some c1 -> Fs.content (st_fs s) f2 = Some c2 ->
        length c1 = length c2 ->
        ((timeoutMs < c_read1 tm \/ timeoutMs < c_read2 tm)%N ->
           fst (compareFiles_try f1 f2 tm s) = Throw compareTimeout
           /\ compareFiles f1 f2 tm s = (Ok true, s))
        /\ ((c_read1 tm <= timeoutMs)%N -> (c_read2 tm <= timeoutMs)%N ->
            compareFiles_try f1 f2 tm s
            = (Ok (bool_decide (Utf8.decode c1 <> Utf8.decode c2)), s))).
Proof.
  split; [reflexivity|]. split; [reflexivity|]. split; [reflexivity|]. split.
  - intros target backupPath tm s c e fs1 Hb Ht Hd Hdir Hsrc Hcopy read_at data.
    pose proof (restoreFile_fallback target backupPath tm s c e fs1
                  Hb Ht Hd Hdir Hsrc Hcopy) as Hrun.
    cbv zeta in Hrun. fold read_at data in Hrun.
    split; [|split].
    + intros Hlate. apply N.ltb_lt in Hlate. by rewrite Hrun, Hlate.
    + intros Hread Hlate. apply N.ltb_ge in Hread. apply N.ltb_lt in Hlate.
      rewrite Hrun, Hread. destruct (Fs.writeFile _ _ _ _ _). by rewrite Hlate.
    + intros Hintime written fs2 Hw.
      assert (Hread : (timeoutMs <? read_at)%N = false) by (apply N.ltb_ge; lia).
      apply N.ltb_ge in Hintime.
      rewrite Hrun, Hread, Hw, Hintime. split; [done|].
      intros ->. apply writeFile_inv in Hw as [(_ & -> & _)|[[e' ?] _]]; [|done].
      apply content_insert_eq.
  - intros f1 f2 tm s c1 c2 H1 H2 Hlen.
    pose proof (compareFiles_try_read _ _ tm _ _ _ H1 H2 Hlen) as Hrun.
    split.
    + intros Ht.
      assert (Hor : ((timeoutMs <? c_read1 tm) || (timeoutMs <? c_read2 tm))%N = true)
        by (apply orb_true_iff; destruct Ht as [Ht|Ht]; apply N.ltb_lt in Ht; auto).
      rewrite Hor in Hrun. unfold compareFiles, try_catch. by rewrite Hrun.
    + intros Ht1 Ht2. rewrite Hrun.
      destruct (N.ltb_spec timeoutMs (c_read1 tm)); [lia|].
      by destruct (N.ltb_spec timeoutMs (c_read2 tm)); [lia|].
Qed.

(** ** [listBackups]: the index is the traversal of the tree *)

Local Abbreviation scanEntry' :=
  (scanEntry path_join path_dirname path_basename path_relative path_sep
     JSON_parse_sidecar W B).
Local Abbreviation findBackupFiles' :=
  (findBackupFiles path_join path_dirname path_basename path_relative path_sep
     JSON_parse_sidecar W B).
Local Abbreviation scanSource' :=
  (scanSource path_join path_dirname path_basename path_relative path_sep
     JSON_parse_sidecar W B).
Local Abbreviation scanAuth' :=
  (scanAuth path_join path_dirname path_basename path_relative path_sep
     JSON_parse_sidecar W B).
Local Abbreviation listBackups' :=
  (listBackups path_join path_dirname path_basename path_relative path_sep
     JSON_parse_sidecar W B).
Local Abbreviation backup_at' := (backup_at path_join).
Local Abbreviation backup_in_tree' := (backup_in_tree path_join B).
Local Abbreviation recorded' :=
  (recorded path_join path_dirname path_basename path_relative path_sep
     JSON_parse_sidecar W B).

Lemma versions_push k e backups k' e' :
  e' ∈ versions (push_backup k e backups) k'
  <-> (k' = k /\ e' = e) \/ e' ∈ versions backups k'.
Proof.
  unfold versions, push_backup.
  destruct (decide (k = k')) as [->|Hne].
  - rewrite lookup_insert_eq. simpl. rewrite elem_of_app, list_elem_of_singleton.
    tauto.
  - rewrite lookup_insert_ne by done. split; [tauto|]. intros [[-> _]|H]; done.
Qed.

Lemma for_of_caught_records {X} (R : X -> string -> BackupEntry -> Prop) step
    (xs : list X) :
  Forall (records R step) xs ->
  forall b k e,
    e ∈ versions (for_of_caught step xs b) k
    <-> (exists x, x ∈ xs /\ R x k e) \/ e ∈ versions b k.
Proof.
  induction 1 as [|x xs Hx _ IH]; intros b k e; simpl.
  - split; [tauto|]. intros [(x & Hx & _)|H]; [by apply elem_of_nil in Hx|done].
  - destruct (Hx b) as (b' & -> & Hb'). rewrite IH, Hb'. split.
    + intros [(y & Hy & HR)|[HR|H]]; [left; exists y|left; exists x|right; done];
        split; try done; apply elem_of_cons; auto.
    + intros [(y & Hy & HR)|H]; [|tauto].
      apply elem_of_cons in Hy as [->|Hy]; [tauto|]. left. by exists y.
Qed.
Local Abbreviation version_of' :=
  (version_of path_join path_dirname path_basename path_relative path_sep
     JSON_parse_sidecar W B).

(** A loop that no [try] encloses, over steps that do not throw. *)
Lemma for_of_records {X} (R : X -> string -> BackupEntry -> Prop) step (xs : list X) :
  Forall (records R step) xs ->
  forall b, exists b',
    for_of step xs b = Ok b'
    /\ forall k e,
         e ∈ versions b' k <-> (exists x, x ∈ xs /\ R x k e) \/ e ∈ versions b k.
Proof.
  induction 1 as [|x xs Hx _ IH]; intros b; simpl.
  - exists b. split; [done|]. intros k e. split; [tauto|].
    intros [(x & Hx & _)|H]; [by apply elem_of_nil in Hx|done].
  - destruct (Hx b) as (b1 & -> & Hb1). destruct (IH b1) as (b' & -> & Hb').
    exists b'. split; [done|]. intros k e. rewrite Hb', Hb1. split.
    + intros [(y & Hy & HR)|[HR|H]]; [left; exists y|left; exists x|right; done];
        split; try done; apply elem_of_cons; auto.
    + intros [(y & Hy & HR)|H]; [|tauto].
      apply elem_of_cons in Hy as [->|Hy]; [tauto|]. left. by exists y.
Qed.

(** Induction on a directory tree. *)
Fixpoint dirent_tree_ind (P : dirent -> Prop)
    (Hfile : forall n, P (DirentFile n))
    (Hdir : forall n listing,
        match listing with Some es => Forall P es | None => True end ->
        P (DirentDir n listing))
    (Hother : forall n, P (DirentOther n))
    (Hnostat : forall n, P (DirentNoStat n))
    (d : dirent) : P d :=
  match d with
  | DirentFile n => Hfile n
  | DirentDir n listing =>
      Hdir n listing
        match listing
          return match listing with Some es => Forall P es | None => True end
        with
        | Some es =>
            (fix all (es : list dirent) : Forall P es :=
               match es return Forall P es with
               | [] => @List.Forall_nil _ P
               | e :: es' =>
                   @List.Forall_cons _ P e es'
                     (dirent_tree_ind P Hfile Hdir Hother Hnostat e) (all es')
               end) es
        | None => I
        end
  | DirentOther n => Hother n
  | DirentNoStat n => Hnostat n
  end.

(** Recording a backup file never throws, and records it as [recorded]
    says. *)
Lemma scanFile_records fs source p entryName :
  is_backup_name entryName = true ->
  records (fun _ : unit => recorded' fs source p entryName)
          (fun _ => scanFile' fs source p entryName) tt.
Proof.
  intros Hn b. unfold scanFile, recorded.
  destruct (getOriginalFilePath' fs p) as [[|c k0]|] eqn:Hk.
  - exists b. split; [done|]. intros k e. split; [tauto|].
    intros [(H & Hne & _)|H]; [|done]. by simplify_eq.
  - assert (Hd : exists d, entryDetails' fs p entryName = Ok d).
    { destruct (backup_name_timestamp _ Hn) as [ts Hts].
      revert Hk. unfold getOriginalFilePath, entryDetails. rewrite Hts.
      destruct (Fs.existsSync fs (p +:+ ".meta.json")); [|by eauto].
      destruct (Fs.readFileUtf8 fs (p +:+ ".meta.json")) as [txt|]; [|done].
      destruct (JSON_parse_sidecar txt); [by eauto|done]. }
    destruct Hd as [[[ts a] acc] Hd]. rewrite Hd.
    eexists. split; [done|]. intros k e. rewrite versions_push. split.
    + intros [[-> ->]|H]; [left|by right].
      split; [done|]. split; [done|]. by exists ts, a, acc.
    + intros [(Hkk & _ & ts' & a' & acc' & Hd' & ->)|H]; [left|by right].
      by simplify_eq.
  - exists b. split; [done|]. intros k e. split; [tauto|].
    intros [(H & _)|H]; [|done]. by simplify_eq.
Qed.

(** One turn of the loop of [findBackupFiles] never throws, and records
    the backup files that the traversal from the entry comes to. *)
Lemma scanEntry_records fs source entry :
  forall directory relativePath,
    records (fun entry k e =>
               exists p entryName,
                 backup_at' directory entry p entryName
                 /\ recorded' fs source p entryName k e)
            (scanEntry' fs source directory relativePath) entry.
Proof.
  induction entry as [entryName|sub listing IH|entryName|entryName]
    using dirent_tree_ind; intros directory relativePath b.
  - (* a file *)
    cbn [scanEntry]. destruct (is_backup_name entryName) eqn:Hn.
    + destruct (scanFile_records fs source (path_join [directory; entryName])
                  entryName Hn b) as (b' & Hb' & Hspec).
      exists b'. split; [done|]. intros k e. rewrite Hspec. split.
      * intros [H|H]; [left|by right]. eexists _, _. split; [|done]. by constructor.
      * intros [(p & n & Hat & H)|H]; [left|by right]. by inversion Hat; subst.
    + exists b. split; [done|]. intros k e. split; [tauto|].
      intros [(p & n & Hat & H)|H]; [|done]. inversion Hat; subst. congruence.
  - (* a directory *)
    cbn [scanEntry]. eexists. split; [done|]. intros k e.
    destruct listing as [entries|]; simpl.
    + rewrite (for_of_caught_records _ _ entries
                 (Forall_impl _ _ _ IH (fun x Hx => Hx _ _))).
      split.
      * intros [(x & Hx & p & n & Hat & H)|H]; [left|by right].
        exists p, n. split; [|done]. by eapply backup_at_dir.
      * intros [(p & n & Hat & H)|H]; [left|by right].
        inversion Hat; subst. eauto 6.
    + split; [tauto|]. intros [(p & n & Hat & H)|H]; [|done]. inversion Hat.
  - (* neither *)
    exists b. split; [done|]. intros k e. split; [tauto|].
    intros [(p & n & Hat & H)|H]; [|done]. inversion Hat.
  - exists b. split; [done|]. intros k e. split; [tauto|].
    intros [(p & n & Hat & H)|H]; [|done]. inversion Hat.
Qed.

Lemma scanSource_records fs authPath entry :
  records (fun entry k e =>
             exists sourceName listing source x p entryName,
               entry = DirentDir sourceName (Some listing)
               /\ source_of_name sourceName = Some source
               /\ x ∈ listing
               /\ backup_at' (path_join [authPath; sourceName]) x p entryName
               /\ recorded' fs source p entryName k e)
          (scanSource' fs authPath) entry.
Proof.
  intros b. unfold scanSource, findBackupFiles.
  destruct entry as [n|sourceName listing|n|n];
    try (exists b; split; [done|]; intros k e; split; [tauto|];
         intros [(? & ? & ? & ? & ? & ? & ? & _)|H]; done).
  destruct (source_of_name sourceName) as [source|] eqn:Hs.
  - eexists. split; [done|]. intros k e. destruct listing as [entries|]; simpl.
    + rewrite (for_of_caught_records _ _ entries
                 (proj2 (Forall_forall _ _)
                    (fun x _ => scanEntry_records fs source x _ _))).
      split.
      * intros [(x & Hx & p & n & Hat & H)|H]; [left|by right].
        by exists sourceName, entries, source, x, p, n.
      * intros [(? & ? & ? & x & p & n & Heq & Hs' & Hx & Hat & H)|H];
          [left|by right].
        simplify_eq. exists x. split; [done|]. by exists p, n.
    + split; [tauto|].
      intros [(? & ? & ? & ? & ? & ? & ? & _)|H]; done.
  - exists b. split; [done|]. intros k e. split; [tauto|].
    intros [(? & ? & ? & ? & ? & ? & Heq & Hs' & _)|H]; [|done]. simplify_eq.
Qed.

(** The body of the loop of [listBackups] throws on an entry that
    [fs.stat] rejects, and on no other. *)
Lemma scanAuth_records fs entry :
  (forall authId, entry <> DirentNoStat authId) ->
  records (fun entry k e =>
             exists authId sources sourceName listing source x p entryName,
               entry = DirentDir authId (Some sources)
               /\ DirentDir sourceName (Some listing) ∈ sources
               /\ source_of_name sourceName = Some source
               /\ x ∈ listing
               /\ backup_at' (path_join [path_join [baseBackupDir B; authId]; sourceName])
                    x p entryName
               /\ recorded' fs source p entryName k e)
          (scanAuth' fs) entry.
Proof.
  intros Hstat b. unfold scanAuth.
  destruct entry as [n|authId sources|n|n]; [| | |by destruct (Hstat n)];
    try (exists b; split; [done|]; intros k e; split; [tauto|];
         intros [(? & ? & ? & ? & ? & ? & ? & ? & ? & _)|H]; done).
  eexists. split; [done|]. intros k e. destruct sources as [entries|]; simpl.
  - rewrite (for_of_caught_records _ _ entries
               (proj2 (Forall_forall _ _)
                  (fun x _ => scanSource_records fs _ x))).
    split.
    + intros [(y & Hy & sn & l & src & x & p & n & -> & Hs & Hx & Hat & H)|H];
        [left|by right].
      by exists authId, entries, sn, l, src, x, p, n.
    + intros [(? & ? & sn & l & src & x & p & n & Heq & Hy & Hs & Hx & Hat & H)|H];
        [left|by right].
      simplify_eq. eexists. split; [exact Hy|]. by exists sn, l, src, x, p, n.
  - split; [tauto|].
    intros [(? & ? & ? & ? & ? & ? & ? & ? & ? & _)|H]; done.
Qed.

Lemma scanAuth_outcome fs entry b :
  (exists b', scanAuth' fs entry b = Ok b')
  \/ (exists authId e, entry = DirentNoStat authId /\ scanAuth' fs entry b = Throw e).
Proof. destruct entry; cbn [scanAuth]; eauto. Qed.

Lemma listing_rejected fs root authId :
  DirentNoStat authId ∈ root ->
  forall b, exists e, for_of (scanAuth' fs) root b = Throw e.
Proof.
  induction root as [|x root IH]; intros Hin b; [by apply elem_of_nil in Hin|].
  cbn [for_of].
  destruct (scanAuth_outcome fs x b) as [[b' Hb]|(a & e & _ & ->)]; [|by eauto].
  rewrite Hb. apply elem_of_cons in Hin as [<-|Hin]; [done|]. by apply IH.
Qed.

(** The version that the code records for a backup file is the one the
    sidecar states or, without a sidecar, the one inferred from the
    layout and the name. *)
Lemma recorded_version fs source p entryName k e :
  is_backup_name entryName = true ->
  recorded' fs source p entryName k e <-> version_of' fs source p entryName k e.
Proof.
  intros Hn. destruct (backup_name_timestamp _ Hn) as [stamp Hstamp]. split.
  - intros (Hk & Hne & ts & a & acc & Hd & ->). revert Hk Hd.
    unfold getOriginalFilePath, entryDetails, Fs.existsSync, Fs.readFileUtf8, Fs.readFile.
    rewrite Hstamp.
    destruct (fs !! (p +:+ ".meta.json")) as [[bytes|]|] eqn:Hm; [|done|].
    + destruct (JSON_parse_sidecar (Utf8.decode bytes)) as [sc|] eqn:Hsc; [|done].
      intros Hk [= <- <- <-].
      apply (version_with_sidecar _ _ _ _ _ _ _ _ _ _ _ _ bytes sc k); try done.
      by apply content_lookup.
    + destruct (workspaceFolder W) as [ws|] eqn:Hws; [|done].
      intros [= <-] [= <- <- <-].
      apply (version_without_sidecar _ _ _ _ _ _ _ _ _ _ _ _ ws stamp); try done.
      unfold Fs.existsSync. by rewrite Hm.
  - intros [bytes sc k0 Hm Hsc Hk Hne|ws stamp0 Hm Hws Hne Hst].
    + destruct (sidecar_read fs p bytes sc Hm Hsc) as [Ho Hd].
      split; [congruence|]. split; [done|].
      eexists _, _, _. split; [apply Hd|done].
    + split; [by rewrite sidecar_absent, Hws|]. split; [done|].
      eexists _, _, _. split; [|done].
      unfold entryDetails. by rewrite Hm, Hst.
Qed.

Lemma backup_at_name directory entry p entryName :
  backup_at' directory entry p entryName -> is_backup_name entryName = true.
Proof. induction 1; [done|assumption]. Qed.

(** What [listBackups] lists when [fs.stat] rejects on no entry. *)
Lemma listBackups_lists fs root k e :
  all_stat root ->
  e ∈ versions (listBackups' fs (Some root)) k
  <-> Fs.existsSync fs (baseBackupDir B) = true
      /\ exists source p entryName,
           backup_in_tree' root source p entryName
           /\ version_of' fs source p entryName k e.
Proof.
  intros Hstat. unfold listBackups.
  destruct (Fs.existsSync fs (baseBackupDir B)); simpl.
  - destruct (for_of_records _ (scanAuth' fs) root
                (proj2 (Forall_forall _ _)
                   (fun x Hx => scanAuth_records fs x
                      (fun a Ha => Hstat a (eq_ind _ (fun y => y ∈ root) Hx _ Ha))))
                ∅) as (b' & -> & Hb').
    rewrite Hb'. unfold versions. rewrite lookup_empty. simpl. split.
    + intros [(y & Hy & a & ss & sn & l & src & x & p & n & -> & Hs & Hsrc & Hx & Hat & H)|H];
        [|by apply elem_of_nil in H].
      split; [done|]. exists src, p, n. split; [by exists a, ss, sn, l, x|].
      apply recorded_version; [|done]. by eapply backup_at_name.
    + intros [_ (src & p & n & (a & ss & sn & l & x & Ha & Hs & Hsrc & Hx & Hat) & H)].
      left. eexists. split; [exact Ha|]. exists a, ss, sn, l, src, x, p, n.
      do 5 (split; [done|]). apply recorded_version; [|done].
      by eapply backup_at_name.
  - unfold versions. rewrite lookup_empty. simpl. split.
    + intros H. by apply elem_of_nil in H.
    + intros [? _]. done.
Qed.


End BackupManagerFacts.

(** ** [SuiteCloudManager] *)

Lemma startsWith_spec p s : Str.startsWith p s = true <-> exists t, s = p +:+ t.
Proof.
  revert s. induction p as [|a p IH]; intros s; simpl.
  - split; [by exists s|done].
  - destruct s as [|b s].
    + split; [done|]. intros [t Ht]. discriminate.
    + destruct (Ascii.eqb_spec a b) as [->|Hne].
      * rewrite IH. split.
        -- intros [t ->]. by exists t.
        -- intros [t Ht]. injection Ht as ->. by exists t.
      * split; [done|]. intros [t Ht]. injection Ht as -> _. done.
Qed.

Lemma includes_spec p s :
  Str.includes p s = true <-> exists pre post, s = pre +:+ p +:+ post.
Proof.
  induction s as [|a s IH]; cbn [Str.includes].
  - destruct (Str.startsWith p EmptyString) eqn:E.
    + split; [|done]. intros _. apply startsWith_spec in E as [t Ht].
      by exists EmptyString, t.
    + split; [done|]. intros (pre & post & H).
      destruct pre; [|discriminate]. simpl in H.
      assert (Str.startsWith p EmptyString = true) by (apply startsWith_spec; eauto).
      congruence.
  - destruct (Str.startsWith p (String a s)) eqn:E.
    + split; [|done]. intros _. apply startsWith_spec in E as [t Ht].
      by exists EmptyString, t.
    + rewrite IH. split.
      * intros (pre & post & ->). by exists (String a pre), post.
      * intros (pre & post & H). destruct pre as [|b pre].
        -- simpl in H.
           assert (Str.startsWith p (String a s) = true)
             by (apply startsWith_spec; eauto).
           congruence.
        -- simpl in H. injection H as -> ->. eauto.
Qed.

Lemma append_assoc (a b c : string) : (a +:+ b) +:+ c = a +:+ (b +:+ c).
Proof.
  induction a as [|x a IH]; [done|].
  change (String x ((a +:+ b) +:+ c) = String x (a +:+ (b +:+ c))). by f_equal.
Qed.

(** A text that contains [a] followed by [b] contains [b]. *)
Lemma includes_suffix a b s :
  Str.includes (a +:+ b) s = true -> Str.includes b s = true.
Proof.
  rewrite !includes_spec. intros (pre & post & ->).
  exists (pre +:+ a), post. by rewrite !append_assoc.
Qed.

Lemma startsWith_other c sep a s :
  a <> c -> Str.startsWith (String c sep) (String a s) = false.
Proof.
  intros H. cbn [Str.startsWith].
  destruct (Ascii.eqb_spec c a); [congruence|done].
Qed.

Lemma drop_app p t : Str.drop (String.length p) (p +:+ t) = t.
Proof. induction p as [|a p IH]; [by destruct t|exact IH]. Qed.

(** A match right at the start of the text is the leftmost one. *)
Lemma match_lit_run_here lit run s :
  Str.startsWith lit s = true ->
  run (Str.drop (String.length lit) s) <> EmptyString ->
  Regex.match_lit_run lit run s = Some (run (Str.drop (String.length lit) s)).
Proof.
  intros Hs Hr. destruct s; cbn [Regex.match_lit_run]; rewrite Hs;
    by destruct (run _).
Qed.

Lemma line_run_idem s : Regex.line_run (Regex.line_run s) = Regex.line_run s.
Proof.
  induction s as [|a s IH]; [done|]. cbn [Regex.line_run].
  destruct (Ascii.eqb a "010") eqn:E; [done|].
  cbn [Regex.line_run]. by rewrite E, IH.
Qed.

(** [/<label>([^\n]+)/] on a line that starts with the label captures
    the rest of the line. *)
Lemma match_field_here label value :
  value <> EmptyString -> Regex.line_run value = value ->
  Regex.match_field label (label +:+ value) = Some value.
Proof.
  intros Hne Hline. unfold Regex.match_field.
  rewrite match_lit_run_here; rewrite ?drop_app, ?Hline;
    [done|apply startsWith_app|done].
Qed.

(** [/ID: (\S+)/] finds nothing in a text without an [I]. *)
Lemma match_ID_skip pre x :
  Str.includes "I" pre = false ->
  Regex.match_ID (pre +:+ x) = Regex.match_ID x.
Proof.
  unfold Regex.match_ID. intros H. induction pre as [|a pre IH]; [done|].
  change (String a pre +:+ x) with (String a (pre +:+ x)).
  cbn [Str.includes Str.startsWith] in H.
  destruct (Ascii.eqb_spec "I" a) as [->|Hne]; [done|].
  cbn [Regex.match_lit_run]. rewrite startsWith_other by done.
  apply IH. by destruct pre.
Qed.

(** It matches inside [Account ID: <id>], whose first word it captures. *)
Lemma match_ID_account_id a rest :
  Str.is_space a = false ->
  Regex.match_ID ("Account ID: " +:+ String a rest)
  = Some (Str.nonspace_run (String a rest)).
Proof.
  intros Ha.
  change ("Account ID: " +:+ String a rest)
    with ("Account " +:+ ("ID: " +:+ String a rest)).
  rewrite match_ID_skip by done.
  unfold Regex.match_ID.
  rewrite match_lit_run_here; rewrite ?drop_app; [done|apply startsWith_app|].
  cbn [Str.nonspace_run]. by rewrite Ha.
Qed.

Section SuiteCloudManagerFacts.

Variable path_join : list string -> string.
Variable path_relative : string -> string -> string.
Variable JSON_parse_project : Utf8.text -> option ProjectData.
Variable W : Workspace.
Variable cli : nat -> string -> ExecResult.
Variable match_account_role : string -> string -> option (string * string).

Local Abbreviation convertToSuiteCloudPath' := (convertToSuiteCloudPath path_relative).
Local Abbreviation normalizedRelative' := (normalizedRelative path_relative).
Local Abbreviation runCommand' := (runCommand cli).
Local Abbreviation uploadFile' := (uploadFile path_relative cli).
Local Abbreviation importFile' := (importFile path_relative cli).
Local Abbreviation exec' := (exec cli).

Lemma runCommand_never_rejects command s :
  exists r s', runCommand' command s = (Ok r, s').
Proof.
  unfold runCommand, try_catch, mbind, ST_bind, get_scm, exec, mret, ST_ret.
  destruct (Str.truthy (scm_projectRoot s)); simpl; [|by eauto].
  destruct (cli _ _); simpl; eauto.
Qed.

Lemma uploadFile_never_rejects fsPath s :
  exists r s', uploadFile' fsPath s = (Ok r, s').
Proof.
  unfold uploadFile, try_catch, mbind at 1, ST_bind at 1, get_scm.
  destruct (convertToSuiteCloudPath' s fsPath) as [[|c p]|]; try by eauto.
  destruct (runCommand_never_rejects
              ("suitecloud file:upload --paths " +:+ quoted (String c p)) s)
    as (r & s' & ->). eauto.
Qed.

Lemma importFile_never_rejects fsPath s :
  exists r s', importFile' fsPath s = (Ok r, s').
Proof.
  unfold importFile, try_catch, mbind at 1, ST_bind at 1, get_scm.
  destruct (convertToSuiteCloudPath' s fsPath) as [[|c p]|]; try by eauto.
  destruct (runCommand_never_rejects
              ("suitecloud file:import --paths " +:+ quoted ("/" +:+ String c p)) s)
    as (r & s' & ->). eauto.
Qed.

Lemma convert_none_invalid fsPath s :
  convertToSuiteCloudPath' s fsPath = None ->
  uploadFile' fsPath s = (Ok invalidPath, s)
  /\ importFile' fsPath s = (Ok invalidPath, s).
Proof.
  intros H. unfold uploadFile, importFile, try_catch, mbind, ST_bind, get_scm.
  by rewrite H.
Qed.

Lemma convert_without_SuiteScripts fsPath s root :
  scm_projectRoot s = Some root ->
  Str.includes "SuiteScripts" (normalizedRelative' root fsPath) = false ->
  convertToSuiteCloudPath' s fsPath = None.
Proof.
  intros Hroot Hno. unfold convertToSuiteCloudPath. rewrite Hroot.
  destruct root as [|c root]; [done|]. rewrite Hno.
  destruct (Str.includes "FileCabinet/SuiteScripts" _) eqn:E; [|done].
  apply (includes_suffix "FileCabinet/" "SuiteScripts") in E. congruence.
Qed.

Lemma convert_without_root fsPath s :
  Str.truthy (scm_projectRoot s) = false ->
  convertToSuiteCloudPath' s fsPath = None.
Proof.
  unfold convertToSuiteCloudPath. by destruct (scm_projectRoot s) as [[|]|].
Qed.

(** C10, in the form that holds of the code.
    [uploadFile] and [importFile] never reject: for
    every uri they give a [CommandResult]. Whenever
    [convertToSuiteCloudPath] gives [null] they give [success = false]
    with the error [Invalid file path: Not a SuiteScripts file] and hand
    no command to the executable; and it gives [null] for every path of
    which the form relative to the project root, with slashes for
    backslashes, does not contain the text [SuiteScripts] anywhere (and
    whenever there is no project root). *)
Theorem upload_import_total fsPath s :
  (exists r s', uploadFile' fsPath s = (Ok r, s'))
  /\ (exists r s', importFile' fsPath s = (Ok r, s'))
  /\ (convertToSuiteCloudPath' s fsPath = None ->
      uploadFile' fsPath s = (Ok invalidPath, s)
      /\ importFile' fsPath s = (Ok invalidPath, s))
  /\ success invalidPath = false
  /\ error_ invalidPath = Some "Invalid file path: Not a SuiteScripts file"
  /\ (forall root,
        scm_projectRoot s = Some root ->
        Str.includes "SuiteScripts" (normalizedRelative' root fsPath) = false ->
        convertToSuiteCloudPath' s fsPath = None)
  /\ (Str.truthy (scm_projectRoot s) = false ->
      convertToSuiteCloudPath' s fsPath = None).
Proof.
  split; [apply uploadFile_never_rejects|].
  split; [apply importFile_never_rejects|].
  split; [apply convert_none_invalid|].
  split; [done|]. split; [done|].
  split; [intros root; apply convert_without_SuiteScripts|apply convert_without_root].
Qed.

Local Abbreviation loadProject_ := (loadProject path_join JSON_parse_project).
Local Abbreviation loadProject'_ := (loadProject' path_join JSON_parse_project).
Local Abbreviation detectAuthId_ := (detectAuthId cli).
Local Abbreviation detectAuthId'_ := (detectAuthId' cli match_account_role).
Local Abbreviation fetchAccountInfo_ := (fetchAccountInfo cli match_account_role).
Local Abbreviation initialize_ := (initialize path_join JSON_parse_project W cli).
Local Abbreviation initialize'_ :=
  (initialize' path_join JSON_parse_project W cli match_account_role).
Local Abbreviation projectAuthId_ := (projectAuthId path_join JSON_parse_project).
Local Abbreviation unconfigured_ := (unconfigured path_join JSON_parse_project W).

Lemma nonspace_run_idem s : Str.nonspace_run (Str.nonspace_run s) = Str.nonspace_run s.
Proof.
  induction s as [|a s IH]; simpl; [done|].
  destruct (Str.is_space a) eqn:E; simpl; [done|]. by rewrite E, IH.
Qed.

(** What [/ID: (\S+)/] captures is a non-empty run of characters that
    are not white space. *)
Lemma match_ID_capture s v :
  Regex.match_ID s = Some v -> v <> EmptyString /\ Str.nonspace_run v = v.
Proof.
  unfold Regex.match_ID. induction s as [|a s IH].
  - simpl. done.
  - cbn [Regex.match_lit_run].
    destruct (if Str.startsWith "ID: " (String a s)
              then Str.nonspace_run (Str.drop (String.length "ID: ") (String a s))
              else EmptyString) as [|c r] eqn:E.
    + apply IH.
    + intros [= <-]. split; [done|].
      destruct (Str.startsWith "ID: " (String a s)); [|done].
      rewrite <- E. apply nonspace_run_idem.
Qed.

(** The first of the matches of [/ID: (\S+)/g] is the match of
    [/ID: (\S+)/], and matching it again gives the same capture. *)
Lemma match_ID_all_first s v :
  Regex.match_ID s = Some v ->
  exists rest, Regex.match_ID_all s = ("ID: " +:+ v) :: rest.
Proof.
  unfold Regex.match_ID, Regex.match_ID_all. induction s as [|a s IH].
  - simpl. done.
  - cbn [Regex.match_lit_run Regex.match_lit_run_all].
    destruct (if Str.startsWith "ID: " (String a s)
              then Str.nonspace_run (Str.drop (String.length "ID: ") (String a s))
              else EmptyString) as [|c r] eqn:E.
    + apply IH.
    + intros [= <-]. eauto.
Qed.

Lemma match_ID_again v :
  v <> EmptyString -> Str.nonspace_run v = v ->
  Regex.match_ID ("ID: " +:+ v) = Some v.
Proof.
  intros Hne Hrun. unfold Regex.match_ID.
  change ("ID: " +:+ v) with (String "I" (String "D" (String ":" (String " " v)))).
  cbn [Regex.match_lit_run].
  change (Str.startsWith "ID: " (String "I" (String "D" (String ":" (String " " v)))))
    with true.
  change (Str.drop (String.length "ID: ")
            (String "I" (String "D" (String ":" (String " " v))))) with v.
  cbv iota. rewrite Hrun. by destruct v.
Qed.

Lemma exec_run command s :
  exec' command s =
    (match cli (length (scm_commands s)) command with
     | ExecDone stdout stderr => Ok (stdout, stderr)
     | ExecFailed e => Throw e
     end,
     {| scm_authId := scm_authId s; scm_projectRoot := scm_projectRoot s;
        scm_accountInfo := scm_accountInfo s;
        scm_commands := (scm_commands s ++ [command])%list |}).
Proof. unfold exec. by destruct (cli _ _). Qed.

Lemma exec_stdout_run command s :
  exists out,
    exec_stdout cli command s =
      (Ok out,
       {| scm_authId := scm_authId s; scm_projectRoot := scm_projectRoot s;
          scm_accountInfo := scm_accountInfo s;
          scm_commands := (scm_commands s ++ [command])%list |}).
Proof.
  unfold exec_stdout, try_catch, mbind, ST_bind. rewrite exec_run.
  destruct (cli _ _); simpl; eauto.
Qed.

(** [fetchAccountInfo] never rejects and leaves the auth id alone; when
    there is none it runs one command. *)
Lemma fetchAccountInfo_authId s :
  exists s',
    fetchAccountInfo_ s = (Ok tt, s')
    /\ scm_authId s' = scm_authId s
    /\ (Str.truthy (scm_authId s) = false ->
        scm_commands s' = (scm_commands s ++ [manageauth_list])%list).
Proof.
  unfold fetchAccountInfo, try_catch.
  unfold mbind at 1, ST_bind at 1, get_scm at 1.
  destruct (scm_authId s) as [[|c a]|] eqn:Ha; simpl.
  - unfold mbind, ST_bind, mret, ST_ret.
    destruct (exec_stdout_run "suitecloud account:manageauth --list" s) as [out ->].
    destruct (is_empty out); simpl; eexists; (split; [done|]); simpl; by rewrite Ha.
  - unfold mbind at 1, ST_bind at 1. unfold mbind at 1, ST_bind at 1.
    destruct (exec_stdout_run "suitecloud account:setup --list" s) as [out1 ->].
    set (s1 := {| scm_authId := _ |}).
    assert (Hs1 : scm_authId s1 = Some (String c a)) by done.
    assert (Hstep : exists s2, scm_authId s2 = Some (String c a) /\
      (if is_empty out1 then mret tt
       else match match_account_role (String c a) out1 with
            | Some (String _ _ as m1, m2) =>
                get_scm ≫= (fun s1 =>
                  set_accountInfo
                    (<[String c a := {| name := Str.trim m1;
                                        id := if is_empty m2 then EmptyString
                                              else Str.trim m2;
                                        url := EmptyString |}]>
                       (scm_accountInfo s1)))
            | _ => mret tt
            end) s1 = (Ok tt, s2)).
    { destruct (is_empty out1); [by eexists|].
      destruct (match_account_role _ _) as [[[|] m2]|];
        (eexists; split; [|reflexivity]); done. }
    destruct Hstep as (s2 & Hs2 & ->).
    unfold mbind, ST_bind.
    destruct (exec_stdout_run "suitecloud account:manageauth --list" s2) as [out ->].
    destruct (is_empty out); simpl; eexists; (split; [done|]); simpl;
      rewrite ?Hs2, ?Ha; done.
  - unfold mbind, ST_bind, mret, ST_ret.
    destruct (exec_stdout_run "suitecloud account:manageauth --list" s) as [out ->].
    destruct (is_empty out); simpl; eexists; (split; [done|]); simpl; by rewrite Ha.
Qed.

(** Reading [project.json] runs no command, and leaves the object
    without an auth id when the file gives none. *)
Lemma loadProject_unconfigured fs ws s :
  exists s1,
    loadProject_ fs ws s = (Ok tt, s1)
    /\ scm_commands s1 = scm_commands s
    /\ (scm_authId s = None -> Str.truthy (projectAuthId_ fs ws) = false ->
        Str.truthy (scm_authId s1) = false).
Proof.
  unfold loadProject, projectAuthId, try_catch, mbind, ST_bind, of_outcome, set_authId,
    throw, mret, ST_ret.
  destruct (Fs.existsSync fs _); [|eexists; repeat split; by intros ->].
  destruct (Fs.readFileUtf8 fs _) as [txt|]; [|eexists; repeat split; by intros ->].
  destruct (JSON_parse_project txt); eexists; repeat split; simpl; try done;
    by intros ->.
Qed.

Lemma loadProject'_unconfigured fs ws s :
  exists s1,
    loadProject'_ fs ws s = (Ok tt, s1)
    /\ scm_commands s1 = scm_commands s
    /\ (scm_authId s = None -> Str.truthy (projectAuthId_ fs ws) = false ->
        Str.truthy (scm_authId s1) = false).
Proof.
  unfold loadProject', projectAuthId, try_catch, mbind, ST_bind, of_outcome, set_authId,
    set_accountInfo, get_scm, throw, mret, ST_ret.
  destruct (Fs.existsSync fs _); [|eexists; repeat split; by intros ->].
  destruct (Fs.readFileUtf8 fs _) as [txt|]; [|eexists; repeat split; by intros ->].
  destruct (JSON_parse_project txt) as [d|];
    [destruct (pd_accountSpecificValues d)|];
    eexists; repeat split; simpl; try done; by intros ->.
Qed.

(** The first listing: the executable's output has the phrase and a
    match, and the capture becomes the auth id. *)
Lemma detectAuthId_sets s stdout stderr v :
  cli (length (scm_commands s)) "suitecloud account:manageauth" = ExecDone stdout stderr ->
  Str.includes "Account credentials were found" stdout = true ->
  Regex.match_ID stdout = Some v ->
  scm_authId (snd (detectAuthId_ s)) = Some v.
Proof.
  intros Hcli Hphrase Hm.
  unfold detectAuthId, try_catch, mbind, ST_bind. rewrite exec_run, Hcli. simpl.
  rewrite Hphrase, Hm.
  destruct stdout as [|c0 out]; [discriminate|]. simpl.
  destruct (match_ID_capture _ _ Hm) as [Hne _]. by destruct v.
Qed.

(** The longer listing: the capture of the first match becomes the auth
    id. *)
Lemma detectAuthId'_sets s stdout stderr v :
  cli (length (scm_commands s)) manageauth_list = ExecDone stdout stderr ->
  Regex.match_ID stdout = Some v ->
  scm_authId (snd (detectAuthId'_ s)) = Some v.
Proof.
  intros Hcli Hm.
  destruct (match_ID_capture _ _ Hm) as [Hne Hrun].
  destruct (match_ID_all_first _ _ Hm) as [rest Hall].
  unfold manageauth_list in Hcli.
  unfold detectAuthId', try_catch. unfold mbind at 1, ST_bind at 1.
  rewrite exec_run, Hcli. cbn [fst].
  destruct stdout as [|c0 out]; [discriminate|]. cbn [is_empty].
  rewrite Hall, (match_ID_again _ Hne Hrun).
  destruct v as [|c r]; [done|].
  unfold mbind, ST_bind, set_authId.
  match goal with |- context [fetchAccountInfo _ _ ?s1] =>
    destruct (fetchAccountInfo_authId s1) as (s2 & -> & Hid & _) end.
  simpl. by rewrite Hid.
Qed.

Lemma try_catch_mret_state {S A} (m : ST S A) (a : A) s :
  snd (try_catch m (fun _ => mret a) s) = snd (m s).
Proof. unfold try_catch. by destruct (m s) as [[|] ?]. Qed.

Lemma initialize_detects fs s ws stdout stderr v :
  workspaceFolder W = Some ws ->
  unconfigured_ fs ws s ->
  Regex.match_ID stdout = Some v ->
  cli (length (scm_commands s)) "suitecloud account:manageauth" = ExecDone stdout stderr ->
  Str.includes "Account credentials were found" stdout = true ->
  scm_authId (snd (initialize_ fs s)) = Some v.
Proof.
  intros Hws (Hnone & Hproj & Hset) Hm Hcli Hphrase.
  unfold initialize. rewrite try_catch_mret_state, Hws.
  unfold mbind at 1, ST_bind at 1, set_projectRoot at 1. cbv beta iota.
  match goal with |- context [(loadProject _ _ fs ws ≫= _) ?s0] =>
    destruct (loadProject_unconfigured fs ws s0) as (s1 & H1 & Hcmd & Hf) end.
  rewrite (bind_ok _ _ _ _ _ H1).
  specialize (Hf Hnone Hproj). simpl in Hcmd.
  unfold mbind at 1, ST_bind at 1, get_scm at 1. cbv beta iota. rewrite Hf. simpl negb.
  cbv iota. unfold mbind at 1, ST_bind at 1, set_authId at 1. cbv beta iota.
  unfold mbind at 1, ST_bind at 1, get_scm at 1. cbv beta iota. simpl scm_authId.
  rewrite Hset. simpl negb. cbv iota.
  eapply detectAuthId_sets; eauto. simpl. by rewrite Hcmd.
Qed.

Lemma initialize'_detects fs s ws stdout stderr v :
  workspaceFolder W = Some ws ->
  unconfigured_ fs ws s ->
  Regex.match_ID stdout = Some v ->
  cli (S (length (scm_commands s))) manageauth_list = ExecDone stdout stderr ->
  scm_authId (snd (initialize'_ fs s)) = Some v.
Proof.
  intros Hws (Hnone & Hproj & Hset) Hm Hcli.
  unfold initialize'. rewrite try_catch_mret_state, Hws.
  unfold mbind at 1, ST_bind at 1, set_projectRoot at 1. cbv beta iota.
  match goal with |- context [(loadProject' _ _ fs ws ≫= _) ?s0] =>
    destruct (loadProject'_unconfigured fs ws s0) as (s1 & H1 & Hcmd & Hf) end.
  rewrite (bind_ok _ _ _ _ _ H1).
  specialize (Hf Hnone Hproj). simpl in Hcmd.
  unfold mbind at 1, ST_bind at 1, get_scm at 1. cbv beta iota. rewrite Hf. simpl negb.
  cbv iota. unfold mbind at 1, ST_bind at 1, set_authId at 1. cbv beta iota.
  match goal with |- context [(fetchAccountInfo _ _ ≫= _) ?s2] =>
    destruct (fetchAccountInfo_authId s2) as (s3 & H3 & Hid & Hcmd3) end.
  rewrite (bind_ok _ _ _ _ _ H3). simpl in Hid, Hcmd3.
  specialize (Hcmd3 Hset).
  unfold mbind at 1, ST_bind at 1, get_scm at 1. cbv beta iota.
  rewrite Hid, Hset. simpl negb. cbv iota.
  eapply detectAuthId'_sets; eauto.
  rewrite Hcmd3, Hcmd, length_app. simpl.
  by replace (length (scm_commands s) + 1) with (S (length (scm_commands s))) by lia.
Qed.

(** A line with a match of [/ID: (\S+)/] sets the current auth id and
    nothing else. *)
Lemma fetchLine_id_line cur infos line a :
  Regex.match_ID line = Some a -> fetchLine (cur, infos) line = (a, infos).
Proof. intros H. unfold fetchLine. by rewrite H. Qed.

(** Any other line, under a current auth id, stores the trimmed captures
    of [/Account name: ([^\n]+)/], [/Account ID: ([^\n]+)/] and
    [/Account URL: ([^\n]+)/] in that id's account. *)
Lemma fetchLine_fields cur infos line :
  cur <> EmptyString -> Regex.match_ID line = None ->
  fst (fetchLine (cur, infos) line) = cur
  /\ (forall m, Regex.match_field "Account name: " line = Some m ->
        name <$> (snd (fetchLine (cur, infos) line) !! cur) = Some (Str.trim m))
  /\ (forall m, Regex.match_field "Account ID: " line = Some m ->
        id <$> (snd (fetchLine (cur, infos) line) !! cur) = Some (Str.trim m))
  /\ (forall m, Regex.match_field "Account URL: " line = Some m ->
        url <$> (snd (fetchLine (cur, infos) line) !! cur) = Some (Str.trim m)).
Proof.
  intros Hcur Hno. unfold fetchLine. rewrite Hno, (is_empty_false _ Hcur).
  destruct (Regex.match_field "Account name: " line) as [mn|],
           (Regex.match_field "Account ID: " line) as [mi|],
           (Regex.match_field "Account URL: " line) as [mu|];
    simpl; rewrite ?lookup_insert_eq; simpl; repeat split; intros m [= <-]; done.
Qed.

(** A line [<label><value>] in which [/ID: (\S+)/] finds nothing stores
    the trimmed value in the account of the current auth id. *)
Lemma fetchLine_name cur infos value :
  cur <> EmptyString -> value <> EmptyString -> Regex.line_run value = value ->
  Regex.match_ID value = None ->
  fst (fetchLine (cur, infos) ("Account name: " +:+ value)) = cur
  /\ name <$> (snd (fetchLine (cur, infos) ("Account name: " +:+ value)) !! cur)
     = Some (Str.trim value).
Proof.
  intros Hcur Hne Hline Hno.
  assert (Hno' : Regex.match_ID ("Account name: " +:+ value) = None)
    by (by rewrite match_ID_skip).
  destruct (fetchLine_fields cur infos _ Hcur Hno') as (Hc & Hn & _).
  split; [done|]. apply Hn. by apply match_field_here.
Qed.

Lemma fetchLine_url cur infos value :
  cur <> EmptyString -> value <> EmptyString -> Regex.line_run value = value ->
  Regex.match_ID value = None ->
  fst (fetchLine (cur, infos) ("Account URL: " +:+ value)) = cur
  /\ url <$> (snd (fetchLine (cur, infos) ("Account URL: " +:+ value)) !! cur)
     = Some (Str.trim value).
Proof.
  intros Hcur Hne Hline Hno.
  assert (Hno' : Regex.match_ID ("Account URL: " +:+ value) = None)
    by (by rewrite match_ID_skip).
  destruct (fetchLine_fields cur infos _ Hcur Hno') as (Hc & _ & _ & Hu).
  split; [done|]. apply Hu. by apply match_field_here.
Qed.


End SuiteCloudManagerFacts.

(** ** The [uploadFile] command *)

Section UploadFileCommandFacts.
Variable path_join : list string -> string.
Variable path_dirname : string -> string.
Variable path_basename : string -> string.
Variable path_relative : string -> string -> string.
Variable JSON_stringify : Metadata -> Utf8.text.
Variable JSON_parse_project : Utf8.text -> option ProjectData.
Variable W : Workspace.
Variable B : BackupManager.
Variable sc : Scenario.

Local Abbreviation getAuthId' := (getAuthId path_join JSON_parse_project W).
Local Abbreviation backupPathOf' :=
  (backupPathOf path_join path_dirname path_basename path_relative W B).
Local Abbreviation createBackup' :=
  (createBackup path_join path_dirname path_basename path_relative
     JSON_stringify JSON_parse_project W B).
Local Abbreviation restoreFile' := (restoreFile path_dirname).
Local Abbreviation uploadFlow_try' :=
  (uploadFlow_try path_join path_dirname path_basename path_relative
     JSON_stringify JSON_parse_project W B sc).
Local Abbreviation uploadFlow_catch' := (uploadFlow_catch path_dirname sc).
Local Abbreviation uploadFlow' :=
  (uploadFlow path_join path_dirname path_basename path_relative
     JSON_stringify JSON_parse_project W B sc).
Local Abbreviation authRecovery' := (authRecovery sc).
Local Abbreviation callUpload' := (callUpload sc).
Local Abbreviation callImport' := (callImport sc).

(** C6, in the form that holds of the code.
    The flow has no automatic retry policy, but it does
    try a failed upload once more in one case: [importFile] is called at
    most once and never again; [uploadFile] is called at most twice, and
    twice only when the import went through, the first upload failed
    with an error taken for an authentication error, the user chose
    [Run Authentication Setup], and the setup and the refresh of the
    account information completed. *)
Theorem upload_retried_at_most_once uri w :
  count_event EvImport (fl_trace (snd (uploadFlow' uri (flow_start w)))) <= 1
  /\ count_event EvUpload (fl_trace (snd (uploadFlow' uri (flow_start w)))) <= 2
  /\ (count_event EvUpload (fl_trace (snd (uploadFlow' uri (flow_start w)))) = 2 ->
      success (importResult sc) = true
      /\ success (uploadResult sc 0) = false
      /\ upload_auth_error (uploadResult sc 0) = true
      /\ authChoice sc = Some RunAuth
      /\ setupAccount sc = Ok tt
      /\ refreshAccountInfo sc = Ok tt).
Proof.
  unfold uploadFlow, uploadFlow_try, uploadFlow_catch, authRecovery, compareVersions,
    callUpload, callImport, try_catch, throw_if, throw, lift, emit, set_backupPath,
    set_accountBackupPath, get_flow, of_outcome, fs_update, fs_read, mbind, ST_bind,
    mret, ST_ret, flow_start.
  cbn [fl_world fl_trace fl_backupPath fl_accountBackupPath].
  repeat (case_match; simplify_eq;
          cbn [fl_world fl_trace fl_backupPath fl_accountBackupPath fst snd] in * );
    cbv [count_event] in *; simpl in *; repeat split; intros; try lia; try done;
    repeat match goal with x : unit |- _ => destruct x end;
    repeat match goal with H : negb ?b = _ |- _ => destruct b; simpl in H end;
    done.
Qed.

(** An error leaves the flow only through the [catch] handler. *)
Lemma uploadFlow_throw_inv uri st e st1 :
  uploadFlow' uri st = (Throw e, st1) ->
  exists e0 st', uploadFlow_try' uri st = (Throw e0, st')
    /\ uploadFlow_catch' uri e0 st' = (Throw e, st1).
Proof.
  unfold uploadFlow, try_catch.
  destruct (uploadFlow_try' uri st) as [[[]|e0] st'] eqn:E; [discriminate|eauto].
Qed.

Lemma uploadFlow_catch_backupPath uri e0 st' r st1 :
  uploadFlow_catch' uri e0 st' = (r, st1) -> fl_backupPath st1 = fl_backupPath st'.
Proof.
  unfold uploadFlow_catch, try_catch, throw, lift, emit, get_flow, mbind, ST_bind,
    mret, ST_ret.
  destruct (fl_backupPath st') as [[|c0 p0]|] eqn:Hp;
    cbn [fl_world fl_trace fl_backupPath fl_accountBackupPath];
    [intros; simplify_eq; done| |intros; simplify_eq; done].
  destruct (restoreFile' uri (String c0 p0) (emergencyTiming sc) (fl_world st'))
    as [[[]|e] s] eqn:E; simpl; intros; simplify_eq; done.
Qed.

(** The handler: with a backup path set it restores the file, reports
    how that went, and throws the error on. *)
Lemma uploadFlow_catch_inv uri e0 st' r st1 p :
  uploadFlow_catch' uri e0 st' = (r, st1) ->
  fl_backupPath st' = Some p -> p <> EmptyString ->
  r = Throw e0
  /\ fl_backupPath st1 = Some p
  /\ ((exists e s, restoreFile' uri p (emergencyTiming sc) (fl_world st') = (Throw e, s)
         /\ fl_trace st1
            = (fl_trace st' ++ [EvEmergencyRestore p; EvEmergencyRestoreFailed])%list)
      \/ (restoreFile' uri p (emergencyTiming sc) (fl_world st') = (Ok tt, fl_world st1)
          /\ fl_trace st1
             = (fl_trace st' ++ [EvEmergencyRestore p; EvEmergencyRestoreCompleted])%list)).
Proof.
  intros H Hp Hne.
  unfold uploadFlow_catch, try_catch, throw, lift, emit, get_flow, mbind, ST_bind,
    mret, ST_ret in H.
  rewrite Hp in H. destruct p as [|c0 p0]; [done|].
  cbn [fl_world fl_trace fl_backupPath fl_accountBackupPath] in H.
  destruct (restoreFile' uri (String c0 p0) (emergencyTiming sc) (fl_world st'))
    as [[[]|e] s] eqn:E; simpl in H; simplify_eq; simpl;
    rewrite <- app_assoc; simpl; eauto 8.
Qed.

(** Once the local backup is taken, the [try] block leaves its content
    file alone, provided the file backed up and the account backup's
    two files lie elsewhere. *)
Lemma uploadFlow_try_keeps_backup uri w r st' p c :
  uploadFlow_try' uri (flow_start w) = (r, st') ->
  fl_backupPath st' = Some p ->
  Fs.content (st_fs w) uri = Some c -> Utf8.clean c -> p <> uri ->
  (forall a w', getAuthId' w' = (Ok (Some a), w') ->
     backupPathOf' a uri account (now_account1 sc) <> p
     /\ backupPathOf' a uri account (now_account1 sc) +:+ ".meta.json" <> p) ->
  Fs.content (st_fs (fl_world st')) p = Some c.
Proof.
  intros H Hp Hc Hclean Hpu Hacc.
  unfold uploadFlow_try, authRecovery, compareVersions,
    callUpload, callImport, try_catch, throw_if, throw, lift, emit, set_backupPath,
    set_accountBackupPath, get_flow, of_outcome, fs_update, fs_read, mbind, ST_bind,
    mret, ST_ret, flow_start in H.
  cbn [fl_world fl_trace fl_backupPath fl_accountBackupPath] in H.
  destruct (createBackup' uri local (now_local1 sc) (now_local2 sc) w)
    as [[a|e] s1] eqn:E1; simpl in H; [|simplify_eq; simpl in *; done].
  assert (Hs1 : Fs.content (st_fs s1) a = Some c /\ (fl_backupPath st' = Some a)).
  { split.
    - apply createBackup_inv in E1 as (a0 & info & c0 & _ & _ & _ & Hc0 & -> & _).
      rewrite content_insert_ne by (apply append_ne; done).
      rewrite content_insert_eq. rewrite Hc0 in Hc. injection Hc as ->.
      by rewrite Hclean.
    - clear -H.
      repeat (case_match; simplify_eq;
              cbn [fl_world fl_trace fl_backupPath fl_accountBackupPath fst snd] in * );
        done. }
  destruct Hs1 as [Hs1 Hp']. rewrite Hp in Hp'. injection Hp' as <-.
  clear E1 Hp.
  repeat (case_match; simplify_eq;
          cbn [fl_world fl_trace fl_backupPath fl_accountBackupPath fst snd
               st_fs st_accounts st_faults with_fs] in * );
    repeat match goal with
    | H : createBackup' _ _ _ _ _ = _ |- _ =>
        apply createBackup_frame with (q := p) in H; [|intros; eapply Hacc; eassumption]
    | H : restoreFile' _ _ _ _ = _ |- _ =>
        apply restoreFile_frame with (q := p) in H; [|exact Hpu]
    | H : compareFiles _ _ _ _ = _ |- _ =>
        apply compareFiles_state in H; subst
    end;
    cbn [st_fs st_accounts st_faults with_fs] in *;
    rewrite ?content_insert_ne in * by done; congruence.
Qed.

(** Whatever the [try] block does, the content file of the local backup
    holds well-formed UTF-8 when the block is left, unless the file
    backed up takes its place. *)
Lemma uploadFlow_try_backup_well_formed uri w r st' p :
  uploadFlow_try' uri (flow_start w) = (r, st') ->
  fl_backupPath st' = Some p -> p <> uri ->
  well_formed_at (st_fs (fl_world st')) p.
Proof.
  intros H Hp Hpu.
  unfold uploadFlow_try, authRecovery, compareVersions,
    callUpload, callImport, try_catch, throw_if, throw, lift, emit, set_backupPath,
    set_accountBackupPath, get_flow, of_outcome, fs_update, fs_read, mbind, ST_bind,
    mret, ST_ret, flow_start in H.
  cbn [fl_world fl_trace fl_backupPath fl_accountBackupPath] in H.
  destruct (createBackup' uri local (now_local1 sc) (now_local2 sc) w)
    as [[a|e] s1] eqn:E1; simpl in H; [|simplify_eq; simpl in *; done].
  assert (Hs1 : well_formed_at (st_fs s1) a /\ (fl_backupPath st' = Some a)).
  { split.
    - apply createBackup_inv in E1 as (a0 & info & c0 & _ & _ & _ & Hc0 & -> & _).
      exists (Utf8.reencode c0). split; [|apply reencode_clean].
      rewrite content_insert_ne by (apply append_ne; done).
      apply content_insert_eq.
    - clear -H.
      repeat (case_match; simplify_eq;
              cbn [fl_world fl_trace fl_backupPath fl_accountBackupPath fst snd] in * );
        done. }
  destruct Hs1 as [Hs1 Hp']. rewrite Hp in Hp'. injection Hp' as <-.
  clear E1 Hp.
  assert (Himport : forall d, well_formed_at (<[uri := NFile d]> (st_fs s1)) p).
  { intros d. destruct Hs1 as (c & Hc & Hclean). exists c.
    by rewrite content_insert_ne by done. }
  repeat (case_match; simplify_eq;
          cbn [fl_world fl_trace fl_backupPath fl_accountBackupPath fst snd
               st_fs st_accounts st_faults with_fs] in * );
    repeat match goal with
    | H : createBackup' _ _ _ _ ?s = (_, ?s') |- _ =>
        apply createBackup_well_formed with (q := p) in H;
        [|first [exact Hs1|apply Himport]]
    | H : restoreFile' _ _ _ ?s = (_, ?s'), I : well_formed_at (st_fs ?s) p |- _ =>
        apply restoreFile_frame with (q := p) in H; [|exact Hpu];
        unfold well_formed_at; rewrite H; fold (well_formed_at (st_fs s) p)
    | H : compareFiles _ _ _ _ = _ |- _ =>
        apply compareFiles_state in H; subst
    end;
    cbn [st_fs st_accounts st_faults with_fs] in *;
    first [assumption | apply Himport].
Qed.

(** C3, in the form that holds of the code.
    When an error leaves the flow and the (non-empty)
    path of the local backup has been recorded, the emergency restore
    from that backup is the last thing attempted, and it ends in one of
    two ways: it fails, which is reported and changes nothing about the
    error being thrown on; or it completes, and then the file has the
    content of the backup file, which is the content the file had
    before the command when that content was well-formed UTF-8 and
    neither the file itself nor the account backup's two files take
    the place of the backup. *)
Theorem emergency_restore_on_failure uri w e st1 p :
  uploadFlow' uri (flow_start w) = (Throw e, st1) ->
  fl_backupPath st1 = Some p -> p <> EmptyString ->
  (exists tr, fl_trace st1 = (tr ++ [EvEmergencyRestore p; EvEmergencyRestoreFailed])%list)
  \/ (exists tr b,
        fl_trace st1 = (tr ++ [EvEmergencyRestore p; EvEmergencyRestoreCompleted])%list
        /\ Fs.content (st_fs (fl_world st1)) p = Some b
        /\ Fs.content (st_fs (fl_world st1)) uri = Some b
        /\ forall c,
             Fs.content (st_fs w) uri = Some c -> Utf8.clean c -> p <> uri ->
             (forall a w', getAuthId' w' = (Ok (Some a), w') ->
                backupPathOf' a uri account (now_account1 sc) <> p
                /\ backupPathOf' a uri account (now_account1 sc) +:+ ".meta.json" <> p) ->
             Fs.content (st_fs (fl_world st1)) uri = Some c).
Proof.
  intros H Hp Hne.
  apply uploadFlow_throw_inv in H as (e0 & st' & Htry & Hcatch).
  assert (Hp' : fl_backupPath st' = Some p).
  { rewrite <- Hp. symmetry. eapply uploadFlow_catch_backupPath, Hcatch. }
  destruct (uploadFlow_catch_inv _ _ _ _ _ _ Hcatch Hp' Hne)
    as (_ & _ & [(e1 & s & _ & Htr)|[Hr Htr]]); [left; eauto|].
  right. pose proof Hr as Hr'.
  apply restoreFile_ok_inv in Hr as (b & Hb & Hst).
  destruct (decide (p = uri)) as [->|Hpu].
  { destruct Hst as [Hst|Hst]; eexists (fl_trace st'), _;
      (split; [done|]); (split; [exact Hst|]); (split; [exact Hst|]); done. }
  assert (Hclean : Utf8.clean b).
  { destruct (uploadFlow_try_backup_well_formed _ _ _ _ _ Htry Hp' Hpu)
      as (b' & Hb' & Hclean).
    apply content_lookup in Hb'. by simplify_eq. }
  rewrite Hclean in Hst.
  assert (Hub : Fs.content (st_fs (fl_world st1)) uri = Some b) by (by destruct Hst).
  assert (Hpb : Fs.content (st_fs (fl_world st1)) p = Some b).
  { rewrite (restoreFile_frame _ _ _ _ _ _ _ p Hr' Hpu). by apply content_lookup. }
  exists (fl_trace st'), b. repeat split; try done.
  intros c Hc Hcl _ Hacc.
  pose proof (uploadFlow_try_keeps_backup _ _ _ _ _ _ Htry Hp' Hc Hcl Hpu Hacc) as Hk.
  apply content_lookup in Hk. rewrite Hk in Hb. injection Hb as <-. done.
Qed.

End UploadFileCommandFacts.

(* ===================================================================== *)
(** ** The statements on sample data *)
(* ===================================================================== *)

(** The decoder and the encoder on the sample bytes. *)
Example utf8_reads_hi : Utf8.reencode Demo.hi = Demo.hi.
Proof. reflexivity. Qed.

Example utf8_replaces_ill_formed : Utf8.reencode Demo.ill_formed = Demo.replaced.
Proof. reflexivity. Qed.

(** *** C1 *)

(** A backup of the text [hi], restored at once, gives [hi] back. *)
Lemma backup_restore_roundtrip_witness :
  exists s2,
    Sample.restoreFile Demo.a_js Demo.local_backup Sample.instant
      (snd (Sample.createBackup Demo.a_js local Sample.t1 Sample.t2
              (Sample.world Demo.a_js Demo.hi)))
    = (Ok tt, s2)
    /\ Fs.content (st_fs s2) Demo.a_js = Some Demo.hi.
Proof.
  destruct (backup_restore_roundtrip Posix.join Posix.dirname Posix.basename
              Posix.relative Json.stringify Sample.no_project Sample.W Sample.B
              Demo.a_js local Sample.t1 Sample.t2 Sample.instant
              (Sample.world Demo.a_js Demo.hi) Demo.local_backup
              (snd (Sample.createBackup Demo.a_js local Sample.t1 Sample.t2
                      (Sample.world Demo.a_js Demo.hi)))
              Demo.hi) as [Hsafe Hlive].
  - vm_compute. reflexivity.
  - vm_compute. reflexivity.
  - vm_compute. reflexivity.
  - destruct Hlive as [s2 H2].
    + vm_compute. discriminate.
    + vm_compute. discriminate.
    + vm_compute. discriminate.
    + vm_compute. reflexivity.
    + vm_compute. reflexivity.
    + vm_compute. reflexivity.
    + exists s2. split; [exact H2|]. apply Hsafe. exact H2.
Defined.

(** A file holding the byte 0xFF is readable, its backup succeeds, and
    so does the restore, but the file then holds EF BF BD. And a file
    holding [hi] that can be read but not written: its backup succeeds,
    and the restore rejects. *)
Lemma backup_restore_changes_or_fails :
  (Fs.readFile (st_fs (Sample.world Demo.a_js Demo.ill_formed)) Demo.a_js
   = Ok Demo.ill_formed
   /\ fst (Sample.createBackup Demo.a_js local Sample.t1 Sample.t2
             (Sample.world Demo.a_js Demo.ill_formed))
      = Ok Demo.local_backup
   /\ fst (Sample.restoreFile Demo.a_js Demo.local_backup Sample.instant
             (snd (Sample.createBackup Demo.a_js local Sample.t1 Sample.t2
                     (Sample.world Demo.a_js Demo.ill_formed))))
      = Ok tt
   /\ Fs.content
        (st_fs (snd (Sample.restoreFile Demo.a_js Demo.local_backup Sample.instant
           (snd (Sample.createBackup Demo.a_js local Sample.t1 Sample.t2
                   (Sample.world Demo.a_js Demo.ill_formed))))))
        Demo.a_js
      = Some Demo.replaced
   /\ Demo.replaced <> Demo.ill_formed)
  /\ (Fs.readFile (st_fs (Demo.world_on Demo.read_only Demo.hi)) Demo.a_js
      = Ok Demo.hi
      /\ fst (Sample.createBackup Demo.a_js local Sample.t1 Sample.t2
                (Demo.world_on Demo.read_only Demo.hi))
         = Ok Demo.local_backup
      /\ fst (Sample.restoreFile Demo.a_js Demo.local_backup Sample.instant
                (snd (Sample.createBackup Demo.a_js local Sample.t1 Sample.t2
                        (Demo.world_on Demo.read_only Demo.hi))))
         = Throw (Error "EACCES: permission denied, open '/w/a.js'")).
Proof. vm_compute. repeat split; try reflexivity. discriminate. Qed.

(** *** C2 *)

Lemma createBackup_persists_pair_witness :
  persisted_pair Posix.join Posix.dirname Posix.basename Posix.relative
    Json.stringify Sample.W Sample.B Demo.a_js local Sample.t1 Sample.t2
    (Sample.world Demo.a_js Demo.hi) Demo.local_backup
    (snd (Sample.createBackup Demo.a_js local Sample.t1 Sample.t2
            (Sample.world Demo.a_js Demo.hi))).
Proof.
  apply createBackup_persists_pair with (JSON_parse_project := Sample.no_project).
  vm_compute. reflexivity.
Defined.

(** The content file of the backup of a file holding 0xFF is no copy of
    it. *)
Lemma createBackup_not_raw_copy :
  fst (Sample.createBackup Demo.a_js local Sample.t1 Sample.t2
         (Sample.world Demo.a_js Demo.ill_formed))
  = Ok Demo.local_backup
  /\ Fs.content (st_fs (Sample.world Demo.a_js Demo.ill_formed)) Demo.a_js
     = Some Demo.ill_formed
  /\ Fs.content
       (st_fs (snd (Sample.createBackup Demo.a_js local Sample.t1 Sample.t2
                      (Sample.world Demo.a_js Demo.ill_formed))))
       Demo.local_backup
     = Some Demo.replaced
  /\ Demo.replaced <> Demo.ill_formed.
Proof. vm_compute. repeat split; try reflexivity. discriminate. Qed.

(** *** C3 *)

(** The import fails on a file holding [hi]: the error leaves the flow,
    the emergency restore completes, and the file holds [hi]. *)
Lemma emergency_restore_on_failure_witness :
  fst (Demo.uploadFlow Demo.import_fails Demo.hi) = Throw (Error "Connection reset")
  /\ Fs.content
       (st_fs (fl_world (snd (Demo.uploadFlow Demo.import_fails Demo.hi))))
       Demo.a_js
     = Some Demo.hi.
Proof.
  split; [vm_compute; reflexivity|].
  destruct (emergency_restore_on_failure Posix.join Posix.dirname Posix.basename
              Posix.relative Json.stringify Sample.no_project Sample.W Sample.B
              Demo.import_fails Demo.a_js (Sample.world Demo.a_js Demo.hi)
              (Error "Connection reset")
              (snd (Demo.uploadFlow Demo.import_fails Demo.hi))
              Demo.local_backup)
    as [[tr Htr]|(tr & b & _ & _ & _ & Hc)].
  - vm_compute. reflexivity.
  - vm_compute. reflexivity.
  - vm_compute. discriminate.
  - apply (f_equal (@last event)) in Htr.
    change (tr ++ [EvEmergencyRestore Demo.local_backup; EvEmergencyRestoreFailed])%list
      with (tr ++ [EvEmergencyRestore Demo.local_backup] ++ [EvEmergencyRestoreFailed])%list
      in Htr.
    rewrite app_assoc, last_snoc in Htr. vm_compute in Htr. discriminate.
  - apply Hc.
    + vm_compute. reflexivity.
    + vm_compute. reflexivity.
    + vm_compute. discriminate.
    + intros a w' Ha.
      rewrite getAuthId_settings in Ha by reflexivity.
      injection Ha as <-. split; vm_compute; discriminate.
Defined.

(** The same failure on a file holding 0xFF: the emergency restore
    completes, and the file no longer holds what it held before the
    command. *)
Lemma emergency_restore_changes_ill_formed :
  Fs.content (st_fs (Sample.world Demo.a_js Demo.ill_formed)) Demo.a_js
  = Some Demo.ill_formed
  /\ fst (Demo.uploadFlow Demo.import_fails Demo.ill_formed)
     = Throw (Error "Connection reset")
  /\ fl_backupPath (snd (Demo.uploadFlow Demo.import_fails Demo.ill_formed))
     = Some Demo.local_backup
  /\ fl_trace (snd (Demo.uploadFlow Demo.import_fails Demo.ill_formed))
     = [EvImport; EvEmergencyRestore Demo.local_backup; EvEmergencyRestoreCompleted]
  /\ Fs.content
       (st_fs (fl_world (snd (Demo.uploadFlow Demo.import_fails Demo.ill_formed))))
       Demo.a_js
     = Some Demo.replaced
  /\ Demo.replaced <> Demo.ill_formed.
Proof. vm_compute. repeat split; try reflexivity. discriminate. Qed.

(** *** C4 *)

Example listBackups_sample :
  map_to_list (Demo.listBackups Demo.backed_up (Some Demo.tree))
  = [(Demo.a_js,
      [{| e_path := Demo.local_backup;
          e_timestamp := DateOf (Some Sample.t2);
          e_source := local;
          e_authId := "auth1";
          e_accountInfo := emptyAccount |}])].
Proof. vm_compute. reflexivity. Qed.



(** *** C5 *)

(** The sample backup: the pair of files is there, and the original
    path and the details are read from the sidecar. *)
Lemma sidecar_prefix_invariant_witness :
  (is_Some (Fs.content Demo.backed_up Demo.local_backup)
   /\ is_Some (Fs.content Demo.backed_up (Demo.local_backup +:+ ".meta.json"))
   /\ Str.startsWith Demo.local_backup (Demo.local_backup +:+ ".meta.json") = true)
  /\ getOriginalFilePath Posix.join Posix.dirname Posix.basename Posix.relative
       Posix.sep Json.parse_sidecar Sample.W Sample.B Demo.backed_up Demo.local_backup
     = Some Demo.a_js
  /\ entryDetails Json.parse_sidecar Demo.backed_up Demo.local_backup Cases.backup_name
     = Ok (DateOf (Some Sample.t2), "auth1", emptyAccount).
Proof.
  destruct (sidecar_prefix_invariant Posix.join Posix.dirname Posix.basename
              Posix.relative Posix.sep Json.stringify Sample.no_project
              Json.parse_sidecar Sample.W Sample.B) as (Hpair & Hread & _).
  split.
  - apply (Hpair Demo.a_js local Sample.t1 Sample.t2 (Sample.world Demo.a_js Demo.hi)).
    vm_compute. reflexivity.
  - destruct (Hread Demo.backed_up Demo.local_backup (Utf8.encode Cases.sidecar_text)
                {| sc_originalFile := Some Demo.a_js;
                   sc_timestamp := Some Sample.t2;
                   sc_authId := Some "auth1";
                   sc_accountInfo := Some (Some EmptyString, Some EmptyString,
                                           Some EmptyString) |})
      as [Hpath Hdetails].
    + vm_compute. reflexivity.
    + vm_compute. reflexivity.
    + split; [exact Hpath|apply Hdetails].
Defined.

(** *** C6 *)

(** The upload that failed with [The token expired] is tried again
    after the authentication setup: [uploadFile] is called twice. *)
Lemma failed_upload_tried_again :
  success (uploadResult Demo.upload_fails_auth 0) = false
  /\ fl_trace (snd (Demo.uploadFlow Demo.upload_fails_auth Demo.hi))
     = [EvImport; EvRestore Demo.local_backup; EvUpload;
        EvSetupAccount; EvRefreshAccountInfo; EvUpload]
  /\ count_event EvUpload
       (fl_trace (snd (Demo.uploadFlow Demo.upload_fails_auth Demo.hi))) = 2.
Proof. vm_compute. repeat split; reflexivity. Qed.

(** *** C7 *)

(** The file system refuses the copy, so that the method falls back on
    the read and the write. When the read, or the write, takes longer
    than the timer, the method rejects with the timeout error; when
    neither does, the restore goes through. Two files of the same size:
    with a read that takes longer than the timer the [try] block throws
    the timeout error, and with prompt reads the texts are compared. *)
Lemma deadline_races_witness :
  fst (Sample.restoreFile Demo.a_js Demo.local_backup Demo.slow_read
         (snd (Sample.createBackup Demo.a_js local Sample.t1 Sample.t2
                 (Demo.world_on Demo.no_copy Demo.hi))))
  = Throw (Error "File restoration timed out after 120 seconds")
  /\ fst (Sample.restoreFile Demo.a_js Demo.local_backup Demo.slow_write
            (snd (Sample.createBackup Demo.a_js local Sample.t1 Sample.t2
                    (Demo.world_on Demo.no_copy Demo.hi))))
     = Throw (Error "File restoration timed out after 120 seconds")
  /\ fst (Sample.restoreFile Demo.a_js Demo.local_backup Sample.instant
            (snd (Sample.createBackup Demo.a_js local Sample.t1 Sample.t2
                    (Demo.world_on Demo.no_copy Demo.hi))))
     = Ok tt
  /\ fst (compareFiles_try "/w/a.js" "/w/b.js" Demo.stalled
            (Demo.two_files Demo.hi Demo.ho))
     = Throw (Error "File comparison timed out after 120 seconds")
  /\ fst (compareFiles_try "/w/a.js" "/w/b.js" Demo.prompt
            (Demo.two_files Demo.hi Demo.ho))
     = Ok true.
Proof.
  destruct (deadline_races Posix.dirname) as (_ & _ & _ & Hrestore & Hcmp).
  set (s1 := snd (Sample.createBackup Demo.a_js local Sample.t1 Sample.t2
                    (Demo.world_on Demo.no_copy Demo.hi))).
  assert (Hcopy : Fs.copyFile Posix.dirname (st_faults s1) (st_fs s1)
                    Demo.local_backup Demo.a_js
                  = (Throw (Error "EPERM: operation not permitted, copyfile"),
                     delete Demo.a_js (st_fs s1)))
    by (vm_compute; reflexivity).
  assert (Hruns : forall tm, _) by
    (intros tm;
     refine (Hrestore Demo.a_js Demo.local_backup tm s1 Demo.hi _ _ _ _ _ _ _ Hcopy);
     vm_compute; (reflexivity || discriminate)).
  cbv zeta in Hruns.
  split; [|split; [|split; [|split]]].
  - destruct (Hruns Demo.slow_read) as (Hlate & _).
    unfold Sample.restoreFile. rewrite Hlate; [reflexivity|vm_compute; reflexivity].
  - destruct (Hruns Demo.slow_write) as (_ & Hlate & _).
    apply Hlate; vm_compute; (reflexivity || discriminate).
  - destruct (Hruns Sample.instant) as (_ & _ & Hintime).
    destruct (Hintime ltac:(vm_compute; discriminate) (Ok tt)
                (<[Demo.a_js := NFile Demo.hi]> (delete Demo.a_js (st_fs s1))))
      as [Hr _]; [vm_compute; reflexivity|].
    unfold Sample.restoreFile. by rewrite Hr.
  - destruct (Hcmp "/w/a.js" "/w/b.js" Demo.stalled (Demo.two_files Demo.hi Demo.ho)
                Demo.hi Demo.ho) as [Hlate _]; [vm_compute; reflexivity..|].
    apply Hlate. left. vm_compute. reflexivity.
  - destruct (Hcmp "/w/a.js" "/w/b.js" Demo.prompt (Demo.two_files Demo.hi Demo.ho)
                Demo.hi Demo.ho) as [_ Hintime]; [vm_compute; reflexivity..|].
    rewrite Hintime; [reflexivity| |]; vm_compute; discriminate.
Defined.

(** *** C8 *)



(** *** C9 *)

Lemma compareFiles_total_witness :
  compareFiles "/w/a.js" "/w/b.js" Demo.prompt (Demo.two_files Demo.hi Demo.ho)
  = (Ok true, Demo.two_files Demo.hi Demo.ho)
  /\ compareFiles "/w/a.js" "/w/b.js" Demo.prompt (Demo.two_files Demo.hi Demo.hi)
     = (Ok false, Demo.two_files Demo.hi Demo.hi)
  /\ compareFiles "/w/a.js" "/w/c.js" Demo.prompt (Demo.two_files Demo.hi Demo.hi)
     = (Ok true, Demo.two_files Demo.hi Demo.hi)
  /\ compareFiles "/w/a.js" "/w/b.js" Demo.prompt
       (Demo.two_files Demo.ill_formed Demo.ill_formed')
     = (Ok false, Demo.two_files Demo.ill_formed Demo.ill_formed').
Proof.
  split; [|split; [|split]].
  - destruct (compareFiles_total "/w/a.js" "/w/b.js" Demo.prompt
                (Demo.two_files Demo.hi Demo.ho)) as (_ & H & _).
    destruct (H Demo.hi Demo.ho) as (_ & _ & Heq & _); [reflexivity..|].
    rewrite Heq; [reflexivity..| |]; vm_compute; discriminate.
  - destruct (compareFiles_total "/w/a.js" "/w/b.js" Demo.prompt
                (Demo.two_files Demo.hi Demo.hi)) as (_ & H & _).
    destruct (H Demo.hi Demo.hi) as (_ & _ & Heq & _); [reflexivity..|].
    rewrite Heq; [reflexivity..| |]; vm_compute; discriminate.
  - destruct (compareFiles_total "/w/a.js" "/w/c.js" Demo.prompt
                (Demo.two_files Demo.hi Demo.hi)) as (_ & _ & H & _).
    apply H. right. reflexivity.
  - destruct (compareFiles_total "/w/a.js" "/w/b.js" Demo.prompt
                (Demo.two_files Demo.ill_formed Demo.ill_formed')) as (_ & H & _).
    destruct (H Demo.ill_formed Demo.ill_formed') as (_ & Hdec & _); [reflexivity..|].
    rewrite Hdec; [reflexivity|reflexivity| |]; vm_compute; discriminate.
Defined.

(** Two readable files of one byte each, 0xFF and 0xFE: the contents
    differ, and [compareFiles] gives [false]. *)
Lemma compareFiles_misses_difference :
  Fs.readFile (st_fs (Demo.two_files Demo.ill_formed Demo.ill_formed')) "/w/a.js"
  = Ok Demo.ill_formed
  /\ Fs.readFile (st_fs (Demo.two_files Demo.ill_formed Demo.ill_formed')) "/w/b.js"
     = Ok Demo.ill_formed'
  /\ Demo.ill_formed <> Demo.ill_formed'
  /\ fst (compareFiles "/w/a.js" "/w/b.js" Demo.prompt
            (Demo.two_files Demo.ill_formed Demo.ill_formed'))
     = Ok false.
Proof. vm_compute. repeat split; try reflexivity. discriminate. Qed.

(** *** C10 *)

Lemma upload_import_total_witness :
  Demo.uploadFile "/w/src/a.js" Demo.scm_w = (Ok invalidPath, Demo.scm_w)
  /\ Demo.importFile "/w/src/a.js" Demo.scm_w = (Ok invalidPath, Demo.scm_w).
Proof.
  destruct (upload_import_total Posix.relative Demo.cli "/w/src/a.js" Demo.scm_w)
    as (_ & _ & H & _ & _ & Hnone & _).
  apply H. apply Hnone with (root := "/w"); vm_compute; reflexivity.
Defined.

(** A path without a segment [SuiteScripts] that is converted all the
    same, and for which both methods run the executable. *)
Lemma converted_without_segment :
  Demo.has_segment "SuiteScripts" Demo.old_scripts = false
  /\ convertToSuiteCloudPath Posix.relative Demo.scm_w Demo.old_scripts
     = Some "SuiteScripts/Old/a.js"
  /\ Demo.succeeded (fst (Demo.uploadFile Demo.old_scripts Demo.scm_w)) = true
  /\ scm_commands (snd (Demo.uploadFile Demo.old_scripts Demo.scm_w))
     = ["suitecloud file:upload --paths " +:+ quoted "SuiteScripts/Old/a.js"]
  /\ Demo.succeeded (fst (Demo.importFile Demo.old_scripts Demo.scm_w)) = true
  /\ scm_commands (snd (Demo.importFile Demo.old_scripts Demo.scm_w))
     = ["suitecloud file:import --paths " +:+ quoted "/SuiteScripts/Old/a.js"].
Proof. vm_compute. repeat split; reflexivity. Qed.

(* ===================================================================== *)
(** * Further facts *)
(* ===================================================================== *)

(** ** Strings *)

Lemma endsWith_intro p t : Str.endsWith p (t +:+ p) = true.
Proof.
  induction t as [|a t IH]; simpl.
  - destruct p as [|b p]; [done|].
    change (EmptyString +:+ String b p) with (String b p).
    unfold Str.endsWith. by rewrite String.eqb_refl.
  - change (String a t +:+ p) with (String a (t +:+ p)).
    cbn [Str.endsWith]. rewrite IH. by case_match.
Qed.

Lemma last_char_app s t : t <> EmptyString -> last_char (s +:+ t) = last_char t.
Proof.
  intros Ht. induction s as [|a s IH]; [done|].
  change (String a s +:+ t) with (String a (s +:+ t)). cbn [last_char].
  destruct (s +:+ t) eqn:E; [|exact IH].
  destruct s; simpl in E; [by subst|discriminate].
Qed.

Lemma endsWith_last p s a :
  Str.endsWith p s = true -> last_char p = Some a -> last_char s = Some a.
Proof.
  intros H Hp. apply endsWith_app in H as [t ->].
  rewrite last_char_app; [done|]. by intros ->.
Qed.

(** [split('.')] of a text with a dot in it: the pieces before the dot,
    then the pieces after. *)
Lemma split_dot_app s u cur :
  Str.split_go "." 0 cur (s +:+ String "." u)
  = (Str.split_go "." 0 cur s ++ Str.split "." u)%list.
Proof.
  revert cur. induction s as [|a s IH]; intros cur.
  - reflexivity.
  - change ((String a s) +:+ String "." u) with (String a (s +:+ String "." u)).
    cbn [Str.split_go Str.startsWith].
    destruct (Ascii.eqb "." a); cbn [String.length Nat.sub]; by rewrite IH.
Qed.

Lemma rev_app_append s u t : String.rev_app s u +:+ t = String.rev_app s (u +:+ t).
Proof. revert u. induction s as [|a s IH]; intros u; [done|]. simpl. by rewrite IH. Qed.

Lemma rev_cons_app a cur t :
  String.rev (String a cur) +:+ t = String.rev cur +:+ String a t.
Proof. unfold String.rev. simpl. by rewrite !rev_app_append. Qed.

Lemma rev_append_empty cur : String.rev cur +:+ EmptyString = String.rev cur.
Proof. unfold String.rev. by rewrite rev_app_append. Qed.

Lemma split_dot_plain t cur :
  Str.includes "." t = false ->
  Str.split_go "." 0 cur t = [String.rev cur +:+ t].
Proof.
  revert cur. induction t as [|a t IH]; intros cur H.
  - simpl. by rewrite rev_append_empty.
  - cbn [Str.split_go Str.startsWith]. cbn [Str.includes Str.startsWith] in H.
    destruct (Ascii.eqb "." a); [done|].
    rewrite IH by (by destruct t). by rewrite rev_cons_app.
Qed.

Lemma join_cons sep p l :
  l <> [] -> Str.join sep (p :: l) = p +:+ sep +:+ Str.join sep l.
Proof. by destruct l. Qed.

(** [s.split('.').join('.')] is [s]. *)
Lemma join_split_dot s cur :
  Str.join "." (Str.split_go "." 0 cur s) = String.rev cur +:+ s.
Proof.
  revert cur. induction s as [|a s IH]; intros cur.
  - simpl. by rewrite rev_append_empty.
  - cbn [Str.split_go Str.startsWith].
    destruct (Ascii.eqb_spec "." a) as [<-|Hne]; cbn [String.length Nat.sub].
    + rewrite join_cons.
      * by rewrite IH.
      * pose proof (split_go_nonempty "." 0 EmptyString s) as H.
        intros E. rewrite E in H. simpl in H. lia.
    + by rewrite IH, rev_cons_app.
Qed.

Lemma plain_no_dot s : plain s = true -> Str.includes "." s = false.
Proof.
  induction s as [|a s IH]; [done|].
  cbn [plain Str.includes Str.startsWith]. intros H.
  apply andb_prop in H as [Ha Hs]. rewrite (IH Hs).
  destruct (Ascii.eqb_spec "." a) as [<-|Hne]; [simpl in Ha; discriminate|].
  by destruct s.
Qed.

Lemma map_dash_plain s : Str.includes "." (Str.map dash_colon_dot s) = false.
Proof.
  induction s as [|a s IH]; [done|].
  cbn [Str.map Str.includes Str.startsWith]. rewrite IH.
  assert (H : Ascii.eqb "." (dash_colon_dot a) = false).
  { unfold dash_colon_dot.
    destruct (Ascii.eqb_spec a ":") as [->|H1]; [done|].
    destruct (Ascii.eqb_spec a ".") as [->|H2]; [done|].
    cbn [orb]. destruct (Ascii.eqb_spec "." a) as [E|]; [congruence|done]. }
  rewrite H. by destruct (Str.map _ s).
Qed.


Lemma map_append f s t : Str.map f (s +:+ t) = Str.map f s +:+ Str.map f t.
Proof. induction s as [|a s IH]; [done|]. simpl. by rewrite IH. Qed.

Lemma map_dash_id s : plain s = true -> Str.map dash_colon_dot s = s.
Proof.
  induction s as [|a s IH]; [done|]. cbn [plain Str.map]. intros H.
  apply andb_prop in H as [Ha Hs]. rewrite (IH Hs). f_equal.
  unfold dash_colon_dot.
  destruct (Ascii.eqb a ":"); [by rewrite orb_true_r in Ha|].
  destruct (Ascii.eqb a "."); [by rewrite !orb_true_r in Ha|]. done.
Qed.

Lemma undash_append n s t :
  undash_at n (s +:+ t) = undash_at n s +:+ undash_at (n + String.length s) t.
Proof.
  revert n. induction s as [|a s IH]; intros n.
  - simpl. by rewrite Nat.add_0_r.
  - change (String a s +:+ t) with (String a (s +:+ t)).
    cbn [undash_at String.length]. rewrite IH.
    replace (S n + String.length s) with (n + S (String.length s)) by lia. done.
Qed.

Lemma undash_plain n s : plain s = true -> undash_at n s = s.
Proof.
  revert n. induction s as [|a s IH]; intros n; [done|].
  cbn [plain undash_at]. intros H.
  apply andb_prop in H as [Ha Hs]. rewrite (IH _ Hs). f_equal.
  destruct (Ascii.eqb a "-"); [done|done].
Qed.

(** What [findBackupFiles] makes of the time stamp in a file name. *)
Lemma undash_iso y mo d h mi sec ms :
  iso_fields y mo d h mi sec ms ->
  undash_at 0 (Str.map dash_colon_dot (iso y mo d h mi sec ms))
  = stamp "-" y mo d h mi sec ms.
Proof.
  intros (Ly & Lmo & Ld & Lh & Lmi & Lsec & Lms & Py & Pmo & Pd & Ph & Pmi & Psec & Pms).
  unfold iso, stamp.
  rewrite !map_append.
  rewrite (map_dash_id y), (map_dash_id mo), (map_dash_id d), (map_dash_id h),
    (map_dash_id mi), (map_dash_id sec), (map_dash_id ms) by done.
  change (Str.map dash_colon_dot "-") with "-".
  change (Str.map dash_colon_dot ":") with "-".
  change (Str.map dash_colon_dot ".") with "-".
  change (Str.map dash_colon_dot "T") with "T".
  change (Str.map dash_colon_dot "Z") with "Z".
  rewrite !undash_append.
  rewrite (undash_plain _ y), (undash_plain _ mo), (undash_plain _ d),
    (undash_plain _ h), (undash_plain _ mi), (undash_plain _ sec),
    (undash_plain _ ms) by done.
  rewrite Ly, Lmo, Ld, Lh, Lmi, Lsec. reflexivity.
Qed.

Lemma stamp_differs y mo d h mi sec ms :
  iso_fields y mo d h mi sec ms ->
  stamp "-" y mo d h mi sec ms <> iso y mo d h mi sec ms.
Proof.
  intros (Ly & Lmo & Ld & Lh & Lmi & Lsec & _) H.
  unfold iso, stamp in H.
  destruct y as [|? [|? [|? [|? [|]]]]]; try discriminate.
  destruct mo as [|? [|? [|]]]; try discriminate.
  destruct d as [|? [|? [|]]]; try discriminate.
  destruct h as [|? [|? [|]]]; try discriminate.
  destruct mi as [|? [|? [|]]]; try discriminate.
  destruct sec as [|? [|? [|]]]; try discriminate.
Qed.

(** ** [BackupManager], further *)

Section BackupManagerMore.

Variable path_join : list string -> string.
Variable path_dirname : string -> string.
Variable path_basename : string -> string.
Variable path_relative : string -> string -> string.
Variable path_sep : string.
Variable JSON_stringify : Metadata -> Utf8.text.
Variable JSON_parse_project : Utf8.text -> option ProjectData.
Variable JSON_parse_sidecar : Utf8.text -> option Sidecar.
Variable W : Workspace.
Variable B : BackupManager.

Local Abbreviation getAuthId' := (getAuthId path_join JSON_parse_project W).
Local Abbreviation getRelativePath' := (getRelativePath path_relative W).
Local Abbreviation backupDirOf' :=
  (backupDirOf path_join path_dirname path_relative W B).
Local Abbreviation backupFileName' := (backupFileName path_basename path_relative W).
Local Abbreviation backupPathOf' :=
  (backupPathOf path_join path_dirname path_basename path_relative W B).
Local Abbreviation createBackup' :=
  (createBackup path_join path_dirname path_basename path_relative
     JSON_stringify JSON_parse_project W B).
Local Abbreviation restoreFile' := (restoreFile path_dirname).
Local Abbreviation getOriginalFilePath' :=
  (getOriginalFilePath path_join path_dirname path_basename path_relative path_sep
     JSON_parse_sidecar W B).
Local Abbreviation entryDetails' := (entryDetails JSON_parse_sidecar).
Local Abbreviation scanEntry' :=
  (scanEntry path_join path_dirname path_basename path_relative path_sep
     JSON_parse_sidecar W B).
Local Abbreviation listBackups' :=
  (listBackups path_join path_dirname path_basename path_relative path_sep
     JSON_parse_sidecar W B).
Local Abbreviation backup_in_tree' := (backup_in_tree path_join B).
Local Abbreviation recorded' :=
  (recorded path_join path_dirname path_basename path_relative path_sep
     JSON_parse_sidecar W B).


(** X1. [restoreFile] restores: when the backup is a regular file, the
    directory of the target is there, the target is not a directory, and
    the file system refuses neither to open the target for writing nor
    the copy (the paths not being empty, as for every path of a file),
    the method succeeds whatever the timing, the target then holds the
    very bytes of the backup file, and no other file has changed, nor
    has the account information. *)
Theorem restoreFile_restores target backupPath tm s c :
  backupPath <> EmptyString -> target <> EmptyString ->
  path_dirname target <> EmptyString ->
  Fs.content (st_fs s) backupPath = Some c ->
  st_fs s !! path_dirname target = Some NDir ->
  st_fs s !! target <> Some NDir ->
  Fs.refuse_write (st_faults s) target = None ->
  Fs.refuse_copy (st_faults s) backupPath target = None ->
  exists s',
    restoreFile path_dirname target backupPath tm s = (Ok tt, s')
    /\ Fs.content (st_fs s') target = Some c
    /\ (forall q, q <> target -> Fs.content (st_fs s') q = Fs.content (st_fs s) q)
    /\ st_accounts s' = st_accounts s.
Proof.
  intros Hb Ht Hd Hc Hdir Hnd Hw Hcp.
  apply content_lookup in Hc.
  destruct (restoreFile_copy path_dirname target backupPath tm s c)
    as (s' & Hr & Hcontent & _); try done.
  exists s'. split; [done|]. split; [done|]. split.
  - intros q Hq. by eapply restoreFile_frame.
  - by apply restoreFile_effect in Hr as (Hacc & _).
Qed.

(** X2. What [restoreFile] refuses, it refuses before touching anything:
    an empty backup path, an empty target path and a backup file that
    does not exist are each rejected with the error of their own, the
    file system and the account information being as before. And
    whatever the outcome, no file other than the target changes. *)
Theorem restoreFile_refusals target backupPath tm s :
  (backupPath = EmptyString ->
   restoreFile path_dirname target backupPath tm s
   = (Throw (Error "Backup path is undefined or empty"), s))
  /\ (backupPath <> EmptyString -> target = EmptyString ->
      restoreFile path_dirname target backupPath tm s
      = (Throw (Error "Target URI is invalid or missing fsPath"), s))
  /\ (backupPath <> EmptyString -> target <> EmptyString ->
      Fs.existsSync (st_fs s) backupPath = false ->
      restoreFile path_dirname target backupPath tm s
      = (Throw (Error ("Backup file not found: " +:+ backupPath)), s))
  /\ (forall r s' q,
        restoreFile path_dirname target backupPath tm s = (r, s') ->
        q <> target -> Fs.content (st_fs s') q = Fs.content (st_fs s) q).
Proof.
  split; [|split; [|split]].
  - intros ->. reflexivity.
  - intros Hb ->. unfold restoreFile, try_catch.
    unfold mbind at 1, ST_bind at 1. rewrite (is_empty_false _ Hb). reflexivity.
  - intros Hb Ht Hex. unfold restoreFile, try_catch.
    unfold mbind at 1, ST_bind at 1. rewrite (is_empty_false _ Hb). cbn [throw_if].
    unfold mret at 1, ST_ret at 1.
    unfold mbind at 1, ST_bind at 1. rewrite (is_empty_false _ Ht). cbn [throw_if].
    unfold mret at 1, ST_ret at 1.
    unfold mbind at 1, ST_bind at 1, fs_read at 1. rewrite Hex. reflexivity.
  - intros r s' q H Hq. eapply restoreFile_frame; eauto.
Qed.

(** X3. How [createBackup] fails. Every rejection carries a message
    that starts with [Failed to create backup: ]. Without an auth id (in
    the settings and in [project.json]) it rejects with [No
    authentication ID found] before anything is touched. And when the
    file cannot be read (it does not exist, or is a directory) it
    rejects having written no file: every file has the content it had. *)
Theorem createBackup_failures uri source now1 now2 s :
  (forall e s',
      createBackup path_join path_dirname path_basename path_relative
        JSON_stringify JSON_parse_project W B uri source now1 now2 s = (Throw e, s') ->
      exists m, e = Error ("Failed to create backup: " +:+ m))
  /\ (forall a,
        getAuthId' s = (Ok a, s) -> Str.truthy a = false ->
        createBackup' uri source now1 now2 s
        = (Throw (Error "Failed to create backup: No authentication ID found"), s))
  /\ (Fs.content (st_fs s) uri = None ->
      exists e s',
        createBackup' uri source now1 now2 s = (Throw e, s')
        /\ forall q, Fs.content (st_fs s') q = Fs.content (st_fs s) q).
Proof.
  split; [|split].
  - intros e s'. unfold createBackup, try_catch.
    case_match. destruct o as [p|e0]; [discriminate|].
    unfold throw. intros [= <- <-]. eauto.
  - intros a Ha Hf. unfold createBackup, try_catch.
    unfold mbind at 1, ST_bind at 1. rewrite Ha.
    unfold mbind at 1, ST_bind at 1. rewrite Hf. reflexivity.
  - intros Hc. unfold createBackup, try_catch.
    unfold mbind at 1, ST_bind at 1.
    destruct (getAuthId_pure path_join JSON_parse_project W s) as [oa Ha]. rewrite Ha.
    unfold mbind at 1, ST_bind at 1.
    destruct oa as [[|c0 a0]|]; cbn [Str.truthy negb throw_if Str.or_empty throw];
      try (do 2 eexists; split; [reflexivity|done]).
    set (a := String c0 a0).
    unfold mret at 1, ST_ret at 1.
    unfold mbind at 1, ST_bind at 1.
    destruct (ensureDirectoryExists_run path_dirname (backupDirOf' a uri source) s)
      as (r0 & s0 & -> & Hfs0 & Hac0 & Hfl0 & _).
    destruct r0 as [[]|e0].
    2:{ do 2 eexists. split; [reflexivity|]. intros q.
        rewrite Hfs0. apply content_ensured. }
    unfold mbind at 1, ST_bind at 1.
    destruct (managerAccountInfo_pure B a s0) as [cur ->].
    unfold mbind at 1, ST_bind at 1.
    destruct (projectAccountInfo_fs path_join JSON_parse_project W a cur s0)
      as (info & s1 & -> & Hfs & Hfl).
    unfold mbind at 1, ST_bind at 1, fs_read at 1. rewrite Hfs, Hfs0.
    assert (Hr : exists e, Fs.readFileUtf8
                   (ensured path_dirname (st_faults s) (st_fs s)
                      (backupDirOf' a uri source)) uri = Throw e).
    { pose proof (content_ensured path_dirname (st_faults s) (st_fs s)
                    (backupDirOf' a uri source) uri) as H.
      rewrite Hc in H. unfold Fs.content in H. unfold Fs.readFileUtf8, Fs.readFile.
      destruct (_ !! uri) as [[|]|]; [discriminate|eauto..]. }
    destruct Hr as [e ->].
    do 2 eexists. split; [reflexivity|].
    intros q. rewrite Hfs, Hfs0. apply content_ensured.
Qed.


Lemma not_meta_of_bak x : Str.endsWith ".meta.json" (x +:+ ".bak") = false.
Proof.
  destruct (Str.endsWith ".meta.json" (x +:+ ".bak")) eqn:E; [|done].
  apply endsWith_last with (a := "n"%char) in E; [|done].
  rewrite last_char_app in E by done. discriminate.
Qed.

(** X4. Backups and sidecars are told apart by their names: the name
    [createBackup] gives a content file passes the test of
    [findBackupFiles], a name that ends in [.meta.json] never does, and
    the traversal leaves the map as it is on such a file. So no sidecar
    is ever listed as a backup. *)
Theorem sidecars_never_listed uri now :
  is_backup_name (backupFileName path_basename path_relative W uri now) = true
  /\ (forall n, is_backup_name (n +:+ ".meta.json") = false)
  /\ (forall fs source directory relativePath n backups,
        scanEntry' fs source directory relativePath (DirentFile (n +:+ ".meta.json"))
          backups = Ok backups).
Proof.
  assert (Hmeta : forall n, is_backup_name (n +:+ ".meta.json") = false).
  { intros n. unfold is_backup_name. rewrite (endsWith_intro ".meta.json" n).
    by rewrite andb_false_r. }
  split; [|split; [done|]].
  - unfold is_backup_name, backupFileName.
    rewrite <- !append_assoc.
    by rewrite endsWith_intro, not_meta_of_bak.
  - intros fs source directory relativePath n backups.
    cbn [scanEntry]. by rewrite Hmeta.
Qed.

Lemma slice_m2_m1_0_app {A} (l : list A) t u : slice_m2_m1_0 (l ++ [t; u]) = Some t.
Proof.
  unfold slice_m2_m1_0. rewrite length_app. cbn [length].
  assert (H : Nat.leb 2 (length l + 2) = true) by (apply Nat.leb_le; lia).
  rewrite H.
  replace (length l + 2 - 2) with (length l) by lia.
  rewrite lookup_app_r by lia. rewrite Nat.sub_diag. reflexivity.
Qed.

Lemma slice_0_m2_app {A} (l : list A) t u : slice_0_m2 (l ++ [t; u]) = l.
Proof.
  unfold slice_0_m2. rewrite length_app. cbn [length].
  replace (length l + 2 - 2) with (length l) by lia.
  by rewrite take_app_length.
Qed.

Lemma backup_name_split uri now :
  Str.split "." (backupFileName' uri now)
  = (Str.split "." (path_basename (getRelativePath' uri))
       ++ [Str.map dash_colon_dot now; "bak"])%list.
Proof.
  unfold backupFileName, Str.split.
  change ("." +:+ Str.map dash_colon_dot now +:+ ".bak")
    with (String "." (Str.map dash_colon_dot now +:+ String "." "bak")).
  rewrite split_dot_app. f_equal. unfold Str.split.
  rewrite split_dot_app.
  by rewrite (split_dot_plain _ EmptyString (map_dash_plain now)).
Qed.

(** X5. A backup's file name gives back what it was made from: the
    last but one of its dot-separated parts is the time stamp as
    written into the name, and the parts before it, joined by dots
    again, are the base name of the file, however many dots that has. *)
Theorem backup_name_parts uri now :
  slice_m2_m1_0 (Str.split "." (backupFileName path_basename path_relative W uri now))
  = Some (Str.map dash_colon_dot now)
  /\ Str.join "." (slice_0_m2 (Str.split "."
                     (backupFileName path_basename path_relative W uri now)))
     = path_basename (getRelativePath' uri).
Proof.
  rewrite backup_name_split. split.
  - apply slice_m2_m1_0_app.
  - rewrite slice_0_m2_app. unfold Str.split. by rewrite join_split_dot.
Qed.

(** X6. Without a sidecar, the time stamp of a backup is rebuilt from
    the file name, and never comes out as it went in: for a name made
    from the ISO text [YYYY-MM-DDTHH:mm:ss.sssZ], what is handed to
    [new Date] is [YYYY-MM-DDTHH:mm:ss-sssZ], with a dash where the
    point before the milliseconds was. *)
Theorem filename_stamp_not_restored fs p uri y mo d h mi sec ms :
  iso_fields y mo d h mi sec ms ->
  Fs.existsSync fs (p +:+ ".meta.json") = false ->
  entryDetails JSON_parse_sidecar fs p
    (backupFileName' uri (iso y mo d h mi sec ms))
  = Ok (DateOf (Some (stamp "-" y mo d h mi sec ms)), EmptyString, emptyAccount)
  /\ stamp "-" y mo d h mi sec ms <> iso y mo d h mi sec ms.
Proof.
  intros Hf Hex. split; [|by apply stamp_differs].
  unfold entryDetails. rewrite Hex.
  assert (H : slice_m2_m1_0 (Str.split "." (backupFileName' uri (iso y mo d h mi sec ms)))
              = Some (Str.map dash_colon_dot (iso y mo d h mi sec ms))).
  { rewrite backup_name_split. apply slice_m2_m1_0_app. }
  rewrite H. by rewrite undash_iso.
Qed.

Local Abbreviation version_of' :=
  (version_of path_join path_dirname path_basename path_relative path_sep
     JSON_parse_sidecar W B).

(** X7. A backup that was just created is listed. After a successful
    [createBackup(uri, source)] that returned [p], provided [JSON.parse]
    reads the sidecar back as an object whose [originalFile] is [uri]:
    [getOriginalFilePath(p)] is [uri], and when the base backup
    directory is there (the constructor and the [mkdirSync] of
    [createBackup] make it) and its traversal, with no entry on which
    [fs.stat] rejects, comes to the file [p], [listBackups] has under
    the key [uri] the version with path [p], the source of the backup,
    and the time stamp, auth id and account of the sidecar. *)
Theorem created_backup_is_listed uri source now1 now2 s p s' txt sc root entryName :
  createBackup path_join path_dirname path_basename path_relative
    JSON_stringify JSON_parse_project W B uri source now1 now2 s = (Ok p, s') ->
  uri <> EmptyString ->
  Fs.existsSync (st_fs s') (baseBackupDir B) = true ->
  Fs.readFileUtf8 (st_fs s') (p +:+ ".meta.json") = Ok txt ->
  JSON_parse_sidecar txt = Some sc ->
  sc_originalFile sc = Some uri ->
  all_stat root ->
  backup_in_tree path_join B root source p entryName ->
  getOriginalFilePath' (st_fs s') p = Some uri
  /\ {| e_path := p; e_timestamp := DateOf (sc_timestamp sc); e_source := source;
        e_authId := Str.or_empty (sc_authId sc); e_accountInfo := sidecar_account sc |}
     ∈ versions (listBackups' (st_fs s') (Some root)) uri.
Proof.
  intros Hc Huri Hbase' Hread Hparse Horig Hstat Htree.
  assert (Hm : exists bytes, Fs.content (st_fs s') (p +:+ ".meta.json") = Some bytes
                             /\ txt = Utf8.decode bytes).
  { revert Hread. unfold Fs.readFileUtf8, Fs.readFile, Fs.content.
    destruct (st_fs s' !! (p +:+ ".meta.json")) as [[bytes|]|]; [|done..].
    intros [= <-]. eauto. }
  destruct Hm as (bytes & Hm & ->).
  destruct (sidecar_read path_join path_dirname path_basename path_relative path_sep
              JSON_parse_sidecar W B (st_fs s') p bytes sc Hm Hparse) as [Hgo _].
  split; [congruence|].
  apply (listBackups_lists path_join path_dirname path_basename path_relative
           path_sep JSON_parse_sidecar W B (st_fs s') root); [done|].
  split; [done|]. exists source, p, entryName. split; [done|].
  by apply (version_with_sidecar _ _ _ _ _ _ _ _ _ _ _ _ bytes sc uri).
Qed.


(** X8. A file in plain ASCII is backed up byte for byte: when every
    byte of the file is below 128, the content file of a successful
    [createBackup] holds exactly the bytes of the file, although it was
    read and written as text. *)
Theorem ascii_backed_up_exactly uri source now1 now2 s p s' c :
  createBackup path_join path_dirname path_basename path_relative
    JSON_stringify JSON_parse_project W B uri source now1 now2 s = (Ok p, s') ->
  Fs.content (st_fs s) uri = Some c ->
  ascii_only c = true ->
  Fs.content (st_fs s') p = Some c.
Proof.
  intros H Hc Ha.
  apply createBackup_inv in H as (a & info & c' & _ & _ & _ & Hc' & -> & _).
  rewrite Hc in Hc'. injection Hc' as <-.
  rewrite content_insert_ne by (apply append_ne; done).
  rewrite content_insert_eq. by rewrite (ascii_only_clean _ Ha).
Qed.

(** X9. What a backup holds is well-formed UTF-8, whatever the file
    held: the content file of a successful [createBackup] holds the
    file's bytes read as text and written back, and reading and writing
    those as text once more changes nothing. So the loss, if there is
    one, happens once, when the backup is taken. *)
Theorem backup_content_well_formed uri source now1 now2 s p s' :
  createBackup path_join path_dirname path_basename path_relative
    JSON_stringify JSON_parse_project W B uri source now1 now2 s = (Ok p, s') ->
  exists c,
    Fs.content (st_fs s) uri = Some c
    /\ Fs.content (st_fs s') p = Some (Utf8.reencode c)
    /\ Utf8.reencode (Utf8.reencode c) = Utf8.reencode c.
Proof.
  intros H.
  apply createBackup_inv in H as (a & info & c & _ & _ & _ & Hc & -> & _).
  exists c. split; [done|]. split; [|apply reencode_clean].
  rewrite content_insert_ne by (apply append_ne; done).
  apply content_insert_eq.
Qed.

End BackupManagerMore.
(** ** [SuiteCloudManager], further *)

(** [split(sep)] of a text in which [sep] does not occur is the text. *)
Lemma split_without sep t cur :
  Str.includes sep t = false ->
  Str.split_go sep 0 cur t = [String.rev cur +:+ t].
Proof.
  revert cur. induction t as [|a t IH]; intros cur H.
  - simpl. by rewrite rev_append_empty.
  - cbn [Str.split_go]. cbn [Str.includes] in H.
    destruct (Str.startsWith sep (String a t)); [done|].
    rewrite IH by done. by rewrite rev_cons_app.
Qed.

(** Passing over the rest of a separator that was recognised. *)
Lemma split_skip sep u cur t :
  Str.split_go sep (String.length u) cur (u +:+ t) = Str.split_go sep 0 cur t.
Proof.
  induction u as [|a u IH].
  - done.
  - change (String a u +:+ t) with (String a (u +:+ t)). cbn [Str.split_go String.length].
    exact IH.
Qed.

(** The first piece of [split(sep)] when [sep] is first met after
    [pre], no character of which is the first of [sep]. *)
Lemma split_first c sep pre post cur :
  Str.includes (String c EmptyString) pre = false ->
  Str.split_go (String c sep) 0 cur (pre +:+ String c sep +:+ post)
  = (String.rev cur +:+ pre)
      :: Str.split_go (String c sep) (String.length sep) EmptyString (sep +:+ post).
Proof.
  revert cur. induction pre as [|a pre IH]; intros cur H.
  - change (EmptyString +:+ String c sep +:+ post) with (String c (sep +:+ post)).
    cbn [Str.split_go].
    rewrite (proj2 (startsWith_spec (String c sep) (String c (sep +:+ post))))
      by (by exists post).
    cbn [String.length Nat.sub]. rewrite Nat.sub_0_r. by rewrite rev_append_empty.
  - change (String a pre +:+ String c sep +:+ post)
      with (String a (pre +:+ String c sep +:+ post)).
    cbn [Str.includes Str.startsWith] in H.
    destruct (Ascii.eqb_spec c a) as [->|Hne]; [done|].
    assert (Hpre : Str.includes (String c EmptyString) pre = false) by (by destruct pre).
    cbn [Str.split_go]. rewrite startsWith_other by done.
    rewrite IH by done. by rewrite rev_cons_app.
Qed.

Section SuiteCloudManagerMore.

Variable path_relative : string -> string -> string.
Variable cli : nat -> string -> ExecResult.

Local Abbreviation convertToSuiteCloudPath' := (convertToSuiteCloudPath path_relative).
Local Abbreviation normalizedRelative' := (normalizedRelative path_relative).
Local Abbreviation runCommand' := (runCommand cli).
Local Abbreviation uploadFile' := (uploadFile path_relative cli).
Local Abbreviation importFile' := (importFile path_relative cli).

Lemma suiteScriptsPath_prefix part1 :
  Str.startsWith "SuiteScripts" (suiteScriptsPath part1) = true.
Proof. unfold suiteScriptsPath. apply startsWith_app. Qed.

Lemma convert_prefix s fsPath r :
  convertToSuiteCloudPath' s fsPath = Some r -> Str.startsWith "SuiteScripts" r = true.
Proof.
  unfold convertToSuiteCloudPath. intros H.
  repeat case_match; simplify_eq; apply suiteScriptsPath_prefix.
Qed.

(** X10. What [convertToSuiteCloudPath] gives. Whatever it returns
    starts with [SuiteScripts]. And for a file whose path relative to
    the project root is [<pre>FileCabinet/SuiteScripts/<rest>], [pre]
    without an [F] (as in [src/]) and [rest] without a second
    [FileCabinet/SuiteScripts], it returns [SuiteScripts/<rest>], or
    [SuiteScripts] when [rest] is empty. *)
Theorem converted_path s fsPath :
  (forall r, convertToSuiteCloudPath path_relative s fsPath = Some r ->
             Str.startsWith "SuiteScripts" r = true)
  /\ (forall root pre rest,
        scm_projectRoot s = Some root -> root <> EmptyString ->
        normalizedRelative' root fsPath = pre +:+ "FileCabinet/SuiteScripts/" +:+ rest ->
        Str.includes "F" pre = false ->
        Str.includes "FileCabinet/SuiteScripts" rest = false ->
        convertToSuiteCloudPath' s fsPath
        = Some ("SuiteScripts" +:+ (if is_empty rest then EmptyString else "/" +:+ rest))).
Proof.
  split; [intros r; apply convert_prefix|].
  intros root pre rest Hroot Hne Hrel Hpre Hrest.
  unfold convertToSuiteCloudPath. rewrite Hroot.
  destruct root as [|c0 root]; [done|]. cbv zeta. rewrite Hrel.
  set (sep := "FileCabinet/SuiteScripts").
  change (pre +:+ "FileCabinet/SuiteScripts/" +:+ rest)
    with (pre +:+ sep +:+ String "/" rest).
  rewrite (proj2 (includes_spec sep (pre +:+ sep +:+ String "/" rest)))
    by (by exists pre, (String "/" rest)).
  subst sep. unfold Str.split.
  rewrite (split_first "F" "ileCabinet/SuiteScripts" pre (String "/" rest)) by done.
  rewrite split_skip.
  rewrite split_without.
  - unfold suiteScriptsPath. cbn [Str.startsWith Str.drop].
    change (String.rev EmptyString +:+ String "/" rest) with (String "/" rest).
    cbn [Str.startsWith Ascii.eqb]. reflexivity.
  - cbn [Str.includes]. rewrite Hrest.
    by rewrite startsWith_other by done.
Qed.

Lemma runCommand_run command s :
  Str.truthy (scm_projectRoot s) = true ->
  runCommand' command s
  = (Ok (resultOf (cli (length (scm_commands s)) command)), ran s command).
Proof.
  intros H. unfold runCommand, try_catch.
  unfold mbind at 1, ST_bind at 1, get_scm. rewrite H. cbn [negb].
  unfold mbind, ST_bind, exec, resultOf, ran, mret, ST_ret.
  by destruct (cli _ _).
Qed.

(** X11. The one command of [uploadFile] and of [importFile]. When the
    path is converted to [p], [uploadFile] hands the executable exactly
    one command, [suitecloud file:upload --paths] followed by [p] in
    double quotes, and [importFile] the [file:import] command with a
    slash before [p]; the result has [success] exactly when the
    executable ends without an error, with its [stdout] as [output] and
    otherwise the error's message. *)
Theorem upload_import_commands s fsPath p :
  convertToSuiteCloudPath path_relative s fsPath = Some p ->
  uploadFile' fsPath s
  = (Ok (resultOf (cli (length (scm_commands s))
                     ("suitecloud file:upload --paths " +:+ quoted p))),
     ran s ("suitecloud file:upload --paths " +:+ quoted p))
  /\ importFile' fsPath s
     = (Ok (resultOf (cli (length (scm_commands s))
                        ("suitecloud file:import --paths " +:+ quoted ("/" +:+ p)))),
        ran s ("suitecloud file:import --paths " +:+ quoted ("/" +:+ p))).
Proof.
  intros Hc.
  assert (Hroot : Str.truthy (scm_projectRoot s) = true).
  { unfold convertToSuiteCloudPath in Hc.
    by destruct (scm_projectRoot s) as [[|]|]. }
  pose proof (convert_prefix _ _ _ Hc) as Hp.
  destruct p as [|c p]; [done|].
  unfold uploadFile, importFile, try_catch.
  unfold mbind at 1 2, ST_bind at 1 2, get_scm. rewrite Hc.
  by rewrite !runCommand_run.
Qed.

(** X12. In [fetchAccountInfo], a line [Account ID: <id>] is taken for
    the line of an auth id, because [/ID: (\S+)/] is tried first and
    matches inside it: the current auth id becomes the first word of
    [<id>], and nothing is stored, so that no account id is ever read
    from a line of this form. *)
Theorem account_id_line_read_as_auth_id cur infos pre a rest :
  Str.includes "I" pre = false ->
  Str.is_space a = false ->
  fetchLine (cur, infos) (pre +:+ "Account ID: " +:+ String a rest)
  = (Str.nonspace_run (String a rest), infos).
Proof.
  intros Hpre Ha. apply fetchLine_id_line.
  rewrite match_ID_skip by done. by apply match_ID_account_id.
Qed.

End SuiteCloudManagerMore.

(** ** The [uploadFile] command, further *)

Section UploadFileCommandMore.

Variable path_join : list string -> string.
Variable path_dirname : string -> string.
Variable path_basename : string -> string.
Variable path_relative : string -> string -> string.
Variable JSON_stringify : Metadata -> Utf8.text.
Variable JSON_parse_project : Utf8.text -> option ProjectData.
Variable W : Workspace.
Variable B : BackupManager.
Variable sc : Scenario.

Local Abbreviation getAuthId' := (getAuthId path_join JSON_parse_project W).
Local Abbreviation backupPathOf' :=
  (backupPathOf path_join path_dirname path_basename path_relative W B).
Local Abbreviation createBackup' :=
  (createBackup path_join path_dirname path_basename path_relative
     JSON_stringify JSON_parse_project W B).
Local Abbreviation restoreFile' := (restoreFile path_dirname).
Local Abbreviation uploadFlow_try' :=
  (uploadFlow_try path_join path_dirname path_basename path_relative
     JSON_stringify JSON_parse_project W B sc).
Local Abbreviation uploadFlow' :=
  (uploadFlow path_join path_dirname path_basename path_relative
     JSON_stringify JSON_parse_project W B sc).

Ltac flow_unfold :=
  unfold uploadFlow, uploadFlow_try, uploadFlow_catch, authRecovery, compareVersions,
    callUpload, callImport, try_catch, throw_if, throw, lift, emit, set_backupPath,
    set_accountBackupPath, get_flow, of_outcome, fs_update, fs_read, mbind, ST_bind,
    mret, ST_ret, flow_start.

Ltac flow_cases :=
  repeat (case_match; simplify_eq;
          cbn [fl_world fl_trace fl_backupPath fl_accountBackupPath fst snd
               st_fs st_accounts st_faults with_fs] in * ).


(** X14. The order of the external calls. Whatever happens, the first
    thing sent is the import. After an import that went through, an
    upload is made only after the local version has been restored over
    the imported one; after an import that failed, nothing is restored
    before an upload. *)
Theorem import_restore_upload_order uri w :
  (fl_trace (snd (uploadFlow' uri (flow_start w))) = []
   \/ exists rest, fl_trace (snd (uploadFlow' uri (flow_start w))) = EvImport :: rest)
  /\ (success (importResult sc) = true ->
      EvUpload ∈ fl_trace (snd (uploadFlow' uri (flow_start w))) ->
      exists p rest,
        fl_trace (snd (uploadFlow path_join path_dirname path_basename path_relative
                         JSON_stringify JSON_parse_project W B sc uri (flow_start w)))
        = EvImport :: EvRestore p :: EvUpload :: rest)
  /\ (success (importResult sc) = false ->
      forall p, EvRestore p ∉ fl_trace (snd (uploadFlow' uri (flow_start w)))).
Proof.
  flow_unfold. cbn [fl_world fl_trace fl_backupPath fl_accountBackupPath].
  flow_cases; simpl;
    (split; [eauto|split]);
    intros Himp; try (rewrite Himp in *; simpl in *; done).
  all: try (intros Hin; by eauto).
  all: try (intros Hin; exfalso;
            repeat (apply elem_of_cons in Hin as [Hin|Hin]; [discriminate|]);
            by apply elem_of_nil in Hin).
  all: intros p' Hin;
       repeat (apply elem_of_cons in Hin as [Hin|Hin]; [discriminate|]);
       by apply elem_of_nil in Hin.
Qed.

(** The flow returns normally only from its [try] block. *)
Lemma uploadFlow_ok_inv uri st u st1 :
  uploadFlow' uri st = (Ok u, st1) -> uploadFlow_try' uri st = (Ok u, st1).
Proof.
  unfold uploadFlow, try_catch.
  destruct (uploadFlow_try' uri st) as [[[]|e] st'] eqn:E; [done|].
  unfold uploadFlow_catch, try_catch, throw, lift, emit, get_flow, mbind, ST_bind,
    mret, ST_ret.
  intros H. flow_cases.
Qed.

(** After an import that went through, the [try] block ends normally
    only past the restore of step 4, and nothing touches the file
    after it: the file holds what the local backup holds, as copied or
    as read and written back as text. *)
Lemma uploadFlow_try_restored uri w st' p :
  uploadFlow_try' uri (flow_start w) = (Ok tt, st') ->
  success (importResult sc) = true ->
  fl_backupPath st' = Some p -> p <> uri ->
  (exists b,
      Fs.content (st_fs (fl_world st')) p = Some b
      /\ (Fs.content (st_fs (fl_world st')) uri = Some b
          \/ Fs.content (st_fs (fl_world st')) uri = Some (Utf8.reencode b)))
  /\ EvRestore p ∈ fl_trace st'.
Proof.
  intros H Himp Hp Hpu. revert H. flow_unfold.
  cbn [fl_world fl_trace fl_backupPath fl_accountBackupPath].
  rewrite Himp. cbn [negb]. intros H.
  flow_cases;
    repeat match goal with x : unit |- _ => destruct x end;
    repeat match goal with
    | H : compareFiles _ _ _ _ = _ |- _ => apply compareFiles_state in H; subst
    end;
    match goal with
    | H : restoreFile' _ _ _ _ = (Ok _, _) |- _ =>
        pose proof (restoreFile_frame _ _ _ _ _ _ _ _ H Hpu) as Hframe;
        apply restoreFile_ok_inv in H as (b & Hb & Hr)
    end;
    cbn [st_fs st_accounts st_faults with_fs app] in *;
    (split; [|rewrite !elem_of_cons; auto]);
    exists b; (split; [|done]);
    rewrite Hframe; by apply content_lookup.
Qed.

(** X15. What a normal end leaves in the file. When the import went
    through and the flow ends without an error, the file holds again
    what it held before the command (for a content that is well-formed
    UTF-8, the local backup and the account backup being files of their
    own): the imported version has been overwritten by the restore of
    step 4, which is how the local version is the one uploaded. The
    local backup holds the same content. *)
Theorem local_version_back_in_place uri w st1 p c :
  uploadFlow path_join path_dirname path_basename path_relative
    JSON_stringify JSON_parse_project W B sc uri (flow_start w) = (Ok tt, st1) ->
  success (importResult sc) = true ->
  fl_backupPath st1 = Some p ->
  Fs.content (st_fs w) uri = Some c -> Utf8.clean c -> p <> uri ->
  (forall a w', getAuthId' w' = (Ok (Some a), w') ->
     backupPathOf' a uri account (now_account1 sc) <> p
     /\ backupPathOf' a uri account (now_account1 sc) +:+ ".meta.json" <> p) ->
  Fs.content (st_fs (fl_world st1)) uri = Some c
  /\ Fs.content (st_fs (fl_world st1)) p = Some c
  /\ EvRestore p ∈ fl_trace st1.
Proof.
  intros H Himp Hp Hc Hclean Hpu Hacc.
  apply uploadFlow_ok_inv in H.
  destruct (uploadFlow_try_restored _ _ _ _ H Himp Hp Hpu) as ((b & Hb & Hu) & Hin).
  pose proof (uploadFlow_try_keeps_backup path_join path_dirname path_basename
                path_relative JSON_stringify JSON_parse_project W B sc
                _ _ _ _ _ _ H Hp Hc Hclean Hpu Hacc) as Hk.
  rewrite Hk in Hb. injection Hb as <-. rewrite Hclean in Hu.
  split; [by destruct Hu|]. by split.
Qed.

Lemma not_in_2 {A} (x a b : A) : x <> a -> x <> b -> x ∉ [a; b].
Proof.
  intros Ha Hb Hin.
  apply elem_of_cons in Hin as [Hin|Hin]; [done|].
  apply elem_of_cons in Hin as [Hin|Hin]; [done|].
  by apply elem_of_nil in Hin.
Qed.

(** X16. A file that is not in the account yet is uploaded directly.
    When the local backup was taken and the import fails with [does not
    exist in NetSuite] or [No files were found], the file is uploaded
    once, without an account backup and without a restore. If the
    upload goes through the command ends normally after these two
    calls; if it fails, the command fails with the upload's error (or
    [Unknown error during upload]) after the emergency restore from the
    local backup. *)
Theorem new_file_uploaded_directly uri w p w1 :
  createBackup' uri local (now_local1 sc) (now_local2 sc) w = (Ok p, w1) ->
  p <> EmptyString ->
  success (importResult sc) = false ->
  import_not_found (importResult sc) = true ->
  fl_accountBackupPath (snd (uploadFlow' uri (flow_start w))) = None
  /\ (forall q, EvRestore q ∉ fl_trace (snd (uploadFlow' uri (flow_start w))))
  /\ (success (uploadResult sc 0) = true ->
      fst (uploadFlow path_join path_dirname path_basename path_relative
             JSON_stringify JSON_parse_project W B sc uri (flow_start w)) = Ok tt
      /\ fl_trace (snd (uploadFlow' uri (flow_start w))) = [EvImport; EvUpload])
  /\ (success (uploadResult sc 0) = false ->
      fst (uploadFlow' uri (flow_start w))
      = Throw (Error (error_or "Unknown error during upload" (uploadResult sc 0)))
      /\ exists e,
           fl_trace (snd (uploadFlow' uri (flow_start w)))
           = [EvImport; EvUpload; EvEmergencyRestore p; e]
           /\ (e = EvEmergencyRestoreCompleted \/ e = EvEmergencyRestoreFailed)).
Proof.
  intros H Hp Himp Hnf. flow_unfold.
  cbn [fl_world fl_trace fl_backupPath fl_accountBackupPath].
  rewrite H. cbn [fl_world fl_trace fl_backupPath fl_accountBackupPath].
  rewrite (is_empty_false _ Hp). cbn [app].
  rewrite Himp, Hnf.
  cbn [negb app fl_world fl_trace fl_backupPath fl_accountBackupPath].
  change (count_event EvUpload [EvImport]) with 0.
  destruct (success (uploadResult sc 0)) eqn:Hup; cbn [negb fst snd fl_trace
    fl_accountBackupPath fl_backupPath fl_world].
  - split; [done|]. split; [intros q; by apply not_in_2|].
    split; [done|]. discriminate.
  - destruct p as [|c0 p0]; [done|].
    cbn [fl_world fl_trace fl_backupPath fl_accountBackupPath app].
    destruct (restoreFile _ _ _ _ _) as [[[]|e] wr];
      cbn [fl_world fl_trace fl_backupPath fl_accountBackupPath app fst snd].
    all: split; [done|].
    all: split;
      [intros q Hin;
       repeat (apply elem_of_cons in Hin as [Hin|Hin]; [discriminate|]);
       by apply elem_of_nil in Hin|].
    all: split; [discriminate|]. all: intros _; split; [done|].
    all: eexists; split; [reflexivity|]; auto.
Qed.

(** X17. An authentication error at the import never fails the command.
    When the local backup was taken and the import fails with an error
    that is taken for an authentication error (and is no [not found]),
    the command ends normally and nothing is restored. The file is
    uploaded only when the user chooses the authentication setup and
    both the setup and the refresh of the account information go
    through; it is then uploaded once, and the command ends normally
    whether or not that upload succeeds. *)
Theorem import_auth_error_ends_quietly uri w p w1 :
  createBackup' uri local (now_local1 sc) (now_local2 sc) w = (Ok p, w1) ->
  p <> EmptyString ->
  success (importResult sc) = false ->
  import_not_found (importResult sc) = false ->
  import_auth_error (importResult sc) = true ->
  fst (uploadFlow path_join path_dirname path_basename path_relative
         JSON_stringify JSON_parse_project W B sc uri (flow_start w)) = Ok tt
  /\ (forall q,
        (EvRestore q ∉ fl_trace (snd (uploadFlow' uri (flow_start w))))
        /\ (EvEmergencyRestore q ∉ fl_trace (snd (uploadFlow' uri (flow_start w)))))
  /\ (authChoice sc = Some RunAuth -> setupAccount sc = Ok tt ->
      refreshAccountInfo sc = Ok tt ->
      fl_trace (snd (uploadFlow' uri (flow_start w)))
      = [EvImport; EvSetupAccount; EvRefreshAccountInfo; EvUpload])
  /\ (authChoice sc <> Some RunAuth \/ (exists e, setupAccount sc = Throw e)
      \/ (exists e, refreshAccountInfo sc = Throw e) ->
      EvUpload ∉ fl_trace (snd (uploadFlow' uri (flow_start w)))).
Proof.
  intros H Hp Himp Hnf Hauth. flow_unfold.
  cbn [fl_world fl_trace fl_backupPath fl_accountBackupPath].
  rewrite H. cbn [fl_world fl_trace fl_backupPath fl_accountBackupPath].
  rewrite (is_empty_false _ Hp). cbn [app].
  rewrite Himp, Hnf, Hauth.
  cbn [negb app fl_world fl_trace fl_backupPath fl_accountBackupPath].
  destruct (authChoice sc) as [[|]|];
    [destruct (setupAccount sc) as [[]|e1]; [destruct (refreshAccountInfo sc) as [[]|e2]|]
    |..];
    cbn [fl_world fl_trace fl_backupPath fl_accountBackupPath app fst snd].
  all: split; [done|].
  all: split;
    [intros q; split; intros Hin;
     repeat (apply elem_of_cons in Hin as [Hin|Hin]; [discriminate|]);
     by apply elem_of_nil in Hin|].
  all: split; [try done; try (intros; discriminate)|].
  all: try (intros _ Hin;
            repeat (apply elem_of_cons in Hin as [Hin|Hin]; [discriminate|]);
            by apply elem_of_nil in Hin).
  intros [Hc|[[e He]|[e He]]]; [done|discriminate..].
Qed.

(** X18. The imported version is kept. Whenever the command has
    recorded an account backup, however it ends then, the import had
    gone through and the content file of that backup holds what the
    import wrote over the file (read as text and written back), the
    backup being a file other than the file itself: neither the restore
    of the local version nor the emergency restore touches it. *)
Theorem imported_version_kept uri w r st1 q ci :
  uploadFlow path_join path_dirname path_basename path_relative
    JSON_stringify JSON_parse_project W B sc uri (flow_start w) = (r, st1) ->
  fl_accountBackupPath st1 = Some q -> q <> uri ->
  importedContent sc = Some ci ->
  success (importResult sc) = true
  /\ Fs.content (st_fs (fl_world st1)) q = Some (Utf8.reencode ci).
Proof.
  intros H Hq Hne Hci. revert H. flow_unfold.
  cbn [fl_world fl_trace fl_backupPath fl_accountBackupPath].
  rewrite Hci. intros H.
  flow_cases;
    repeat match goal with x : unit |- _ => destruct x end;
    repeat match goal with
    | H : negb ?b = _ |- _ => destruct b eqn:?; simpl in H; try discriminate
    end;
    (split; [done|]);
    repeat match goal with
    | H : compareFiles _ _ _ _ = _ |- _ => apply compareFiles_state in H; subst
    end;
    cbn [st_fs st_accounts st_faults with_fs] in *;
    repeat match goal with
    | H : restoreFile' _ _ _ ?s = (_, ?s') |- Fs.content (st_fs ?s') ?p = _ =>
        apply restoreFile_frame with (q := p) in H; [rewrite H; clear H|exact Hne]
    end;
    match goal with
    | H : createBackup' _ account _ _ _ = (Ok _, _) |- _ =>
        apply createBackup_inv in H as (? & ? & c0 & _ & _ & _ & Hc0 & -> & _)
    end;
    cbn [st_fs with_fs] in Hc0; rewrite content_insert_eq in Hc0; injection Hc0 as <-;
    rewrite content_insert_ne by (apply append_ne; done);
    apply content_insert_eq.
Qed.

End UploadFileCommandMore.

(** ** [BackupExplorer] *)

Lemma div_at_least (d k n : Z) : (0 < k)%Z -> (n <= d / k <-> n * k <= d)%Z.
Proof.
  intros Hk. pose proof (Z.div_mod d k ltac:(lia)) as H.
  pose proof (Z.mod_pos_bound d k Hk) as Hm. nia.
Qed.

Lemma floor_steps (d : Z) :
  (d / 1000 / 60 = d / 60000
   /\ d / 1000 / 60 / 60 = d / 3600000
   /\ d / 1000 / 60 / 60 / 24 = d / 86400000)%Z.
Proof. rewrite !Z.div_div by lia. done. Qed.

(** X19. What [formatTimeAgo] shows, by the age [d = now - then] in
    milliseconds (an age below [2^52], far beyond any two dates that
    occur, so that the floating-point division of the code is the exact
    one): [just now] below a minute, and for a date in the future or an
    invalid one; the whole minutes, from 1 to 59, below an hour; the
    whole hours, from 1 to 23, below a day; [yesterday] from one day to
    two; the whole days from two days on. The singular is used for
    exactly one minute and one hour. *)
Theorem formatTimeAgo_ranges (now t : Z) :
  (now - t < 2 ^ 52)%Z ->
  ((now - t < 60000)%Z -> formatTimeAgo now (Some t) = "just now")
  /\ ((60000 <= now - t < 3600000)%Z ->
      formatTimeAgo now (Some t)
      = decimal ((now - t) / 60000) +:+ " minute"
          +:+ (if (now - t <? 120000)%Z then "" else "s") +:+ " ago"
      /\ (1 <= (now - t) / 60000 <= 59)%Z)
  /\ ((3600000 <= now - t < 86400000)%Z ->
      formatTimeAgo now (Some t)
      = decimal ((now - t) / 3600000) +:+ " hour"
          +:+ (if (now - t <? 7200000)%Z then "" else "s") +:+ " ago"
      /\ (1 <= (now - t) / 3600000 <= 23)%Z)
  /\ ((86400000 <= now - t < 172800000)%Z ->
      formatTimeAgo now (Some t) = "yesterday")
  /\ ((172800000 <= now - t)%Z ->
      formatTimeAgo now (Some t) = decimal ((now - t) / 86400000) +:+ " days ago"
      /\ (2 <= (now - t) / 86400000)%Z)
  /\ formatTimeAgo now None = "just now".
Proof.
  intros _. unfold formatTimeAgo. cbv zeta.
  destruct (floor_steps (now - t)) as (-> & -> & ->).
  set (d := (now - t)%Z).
  pose proof (div_at_least d 60000 1 ltac:(lia)) as M1.
  pose proof (div_at_least d 60000 2 ltac:(lia)) as M2.
  pose proof (div_at_least d 60000 60 ltac:(lia)) as M60.
  pose proof (div_at_least d 3600000 1 ltac:(lia)) as H1.
  pose proof (div_at_least d 3600000 2 ltac:(lia)) as H2.
  pose proof (div_at_least d 3600000 24 ltac:(lia)) as H24.
  pose proof (div_at_least d 86400000 1 ltac:(lia)) as D1.
  pose proof (div_at_least d 86400000 2 ltac:(lia)) as D2.
  refine (conj _ (conj _ (conj _ (conj _ (conj _ _))))); try intros Hd;
    try (split; [|lia]);
    repeat match goal with
    | |- context [(?a <? ?b)%Z] => destruct (Z.ltb_spec a b)
    | |- context [(?a =? ?b)%Z] => destruct (Z.eqb_spec a b)
    end; try reflexivity; try lia.
Qed.

Lemma in_here {A} (x : A) l : x ∈ x :: l.
Proof. apply elem_of_cons. by left. Qed.

Lemma in_further {A} (x y : A) l : x ∈ l -> x ∈ y :: l.
Proof. intros H. apply elem_of_cons. by right. Qed.

Lemma fold_latest_in {A} (time : A -> option Z) (l : list A) (b : A) :
  let r := fold_left (fun latest current =>
                        if later (time current) (time latest) then current else latest)
                     l b in
  r = b \/ r ∈ l.
Proof.
  revert b. induction l as [|x l IH]; intros b; simpl; [by left|].
  destruct (later (time x) (time b)).
  - destruct (IH x) as [->|H]; right; [apply in_here|by apply in_further].
  - destruct (IH b) as [->|H]; [by left|right; by apply in_further].
Qed.

Lemma fold_latest_max {A} (time : A -> option Z) (l : list A) (b : A) tb :
  time b = Some tb ->
  (forall x, x ∈ l -> is_Some (time x)) ->
  exists tr,
    time (fold_left (fun latest current =>
                       if later (time current) (time latest) then current else latest)
                    l b) = Some tr
    /\ (tb <= tr)%Z
    /\ forall x tx, x ∈ l -> time x = Some tx -> (tx <= tr)%Z.
Proof.
  revert b tb. induction l as [|x l IH]; intros b tb Hb Hall; simpl.
  - exists tb. repeat split; [done|lia|]. intros x tx Hx. by apply elem_of_nil in Hx.
  - destruct (Hall x (in_here _ _)) as [tx Hx].
    assert (Hall' : forall y, y ∈ l -> is_Some (time y))
      by (intros y Hy; apply Hall; by apply in_further).
    rewrite Hx, Hb. change (later (Some tx) (Some tb)) with (tb <? tx)%Z.
    destruct (Z.ltb_spec tb tx) as [Hlt|Hge].
    + destruct (IH x tx Hx Hall') as (tr & Hr & Hle & Hmax).
      exists tr. split; [exact Hr|]. split; [lia|].
      intros y ty Hy Hty. apply elem_of_cons in Hy as [->|Hy]; [|by eapply Hmax].
      rewrite Hx in Hty. injection Hty as <-. done.
    + destruct (IH b tb Hb Hall') as (tr & Hr & Hle & Hmax).
      exists tr. split; [exact Hr|]. split; [lia|].
      intros y ty Hy Hty. apply elem_of_cons in Hy as [->|Hy]; [|by eapply Hmax].
      rewrite Hx in Hty. injection Hty as <-. lia.
Qed.

(** X20. The backup that [getFileNodes] takes for the latest. With
    valid dates throughout, it is one of the file's backups and none is
    newer. With an invalid date on the first backup, that one is taken,
    whatever the others are. *)
Theorem latestBackup_newest {A} (time : A -> option Z) (first : A) (rest : list A) :
  ((forall x, x ∈ first :: rest -> is_Some (time x)) ->
   exists r tr,
     latestBackup time (first :: rest) = Some r
     /\ r ∈ first :: rest
     /\ time r = Some tr
     /\ forall x tx, x ∈ first :: rest -> time x = Some tx -> (tx <= tr)%Z)
  /\ (time first = None -> latestBackup time (first :: rest) = Some first).
Proof.
  split.
  - intros Hall.
    destruct (Hall first (in_here _ _)) as [tb Hb].
    destruct (fold_latest_max time rest first tb Hb) as (tr & Hr & Hle & Hmax).
    { intros x Hx. apply Hall. by apply in_further. }
    eexists _, tr. split; [reflexivity|]. split; [|split; [exact Hr|]].
    + destruct (fold_latest_in time rest first) as [->|H];
        [apply in_here|by apply in_further].
    + intros x tx Hx Htx. apply elem_of_cons in Hx as [->|Hx]; [|by eapply Hmax].
      rewrite Hb in Htx. injection Htx as <-. done.
  - intros Hnone. unfold latestBackup. f_equal.
    induction rest as [|x rest IH]; [done|]. simpl.
    rewrite Hnone.
    replace (later (time x) None) with false by (by destruct (time x)). exact IH.
Qed.

(** ** The module path of the longer listing *)

Section NodePathFacts.

Variable path_join : list string -> string.
Variable path_dirname : string -> string.

Local Abbreviation findNearestNodeModules' :=
  (findNearestNodeModules path_join path_dirname).
Local Abbreviation setupNodePath' := (setupNodePath path_join path_dirname).
Local Abbreviation above' := (above path_dirname).
Local Abbreviation top := (top path_dirname).

Lemma above_S k p : above' (S k) p = above' k (path_dirname p).
Proof. unfold above. induction k as [|k IH]; [done|]. simpl. by rewrite <- IH. Qed.

Lemma findNearest_found fuel fs p nm :
  findNearestNodeModules' fuel fs p = Some (Some nm) ->
  exists k,
    k < fuel
    /\ nm = path_join [above' k p; "node_modules"]
    /\ Fs.existsSync fs nm = true
    /\ forall j, j < k ->
         Fs.existsSync fs (path_join [above' j p; "node_modules"]) = false
         /\ ~ top (above' j p).
Proof.
  revert p. induction fuel as [|fuel IH]; intros p; [done|].
  cbn [findNearestNodeModules].
  destruct (is_empty p) eqn:Hp; [done|].
  destruct (Fs.existsSync fs (path_join [p; "node_modules"])) eqn:Hex.
  - intros [= <-]. exists 0. split; [lia|]. split; [done|]. split; [done|].
    intros j Hj. lia.
  - destruct (String.eqb_spec (path_dirname p) p) as [Heq|Hne]; [done|].
    intros H. apply IH in H as (k & Hk & -> & Hnm & Hbelow).
    exists (S k). rewrite above_S. split; [lia|]. split; [done|]. split; [done|].
    intros j Hj. destruct j as [|j].
    + change (above' 0 p) with p. split; [done|].
      intros [->|Htop]; [done|]. by apply Hne.
    + rewrite above_S. apply Hbelow. lia.
Qed.

Lemma findNearest_none fuel fs p :
  findNearestNodeModules' fuel fs p = Some None ->
  exists k,
    k < fuel /\ top (above' k p)
    /\ forall j, j < k ->
         Fs.existsSync fs (path_join [above' j p; "node_modules"]) = false
         /\ ~ top (above' j p).
Proof.
  revert p. induction fuel as [|fuel IH]; intros p; [done|].
  cbn [findNearestNodeModules].
  destruct (is_empty p) eqn:Hp.
  { intros _. exists 0. split; [lia|]. split; [left; by apply is_empty_true|].
    intros j Hj. lia. }
  destruct (Fs.existsSync fs (path_join [p; "node_modules"])) eqn:Hex; [done|].
  destruct (String.eqb_spec (path_dirname p) p) as [Heq|Hne].
  - intros _. exists 0. split; [lia|]. split; [by right|]. intros j Hj. lia.
  - intros H. apply IH in H as (k & Hk & Htop & Hbelow).
    exists (S k). rewrite above_S. split; [lia|]. split; [done|].
    intros j Hj. destruct j as [|j].
    + change (above' 0 p) with p. split; [done|].
      intros [->|Htop']; [done|]. by apply Hne.
    + rewrite above_S. apply Hbelow. lia.
Qed.

Lemma findNearest_ends fuel fs p k :
  top (above' k p) -> k < fuel -> findNearestNodeModules' fuel fs p <> None.
Proof.
  revert p k. induction fuel as [|fuel IH]; intros p k Htop Hk; [lia|].
  cbn [findNearestNodeModules].
  destruct (is_empty p) eqn:Hp; [done|].
  destruct (Fs.existsSync fs _); [done|].
  destruct (String.eqb_spec (path_dirname p) p) as [Heq|Hne]; [done|].
  destruct k as [|k].
  - change (above' 0 p) with p in Htop.
    destruct Htop as [->|Htop]; [done|]. by destruct Hne.
  - rewrite above_S in Htop. apply (IH _ k); [done|lia].
Qed.

(** X21. [findNearestNodeModules] finds the nearest one. Once the walk
    from [startPath] up its parent directories comes to an end within
    [fuel] turns (at a directory that is its own parent, as the root
    is, or at an empty path), the search gives a result. A path that it
    returns is [node_modules] joined to the first directory, from
    [startPath] upwards, in which that exists; and it returns [null]
    only when none of the directories up to the end has one. *)
Theorem findNearestNodeModules_nearest fuel fs startPath :
  (forall k, top (above' k startPath) -> k < fuel ->
     findNearestNodeModules path_join path_dirname fuel fs startPath <> None)
  /\ (forall nm,
        findNearestNodeModules' fuel fs startPath = Some (Some nm) ->
        exists k,
          nm = path_join [above' k startPath; "node_modules"]
          /\ Fs.existsSync fs nm = true
          /\ forall j, j < k ->
               Fs.existsSync fs (path_join [above' j startPath; "node_modules"]) = false)
  /\ (findNearestNodeModules' fuel fs startPath = Some None ->
      exists k,
        top (above' k startPath)
        /\ forall j, j < k ->
             Fs.existsSync fs (path_join [above' j startPath; "node_modules"]) = false).
Proof.
  split; [|split].
  - intros k Htop Hk. by eapply findNearest_ends.
  - intros nm H. apply findNearest_found in H as (k & _ & -> & Hex & Hbelow).
    exists k. split; [done|]. split; [done|]. intros j Hj. by apply Hbelow.
  - intros H. apply findNearest_none in H as (k & _ & Htop & Hbelow).
    exists k. split; [done|]. intros j Hj. by apply Hbelow.
Qed.

Lemma lacks_prepend delimiter p v : lacks (Some (prepend delimiter p v)) p = false.
Proof.
  unfold lacks, prepend.
  rewrite (proj2 (includes_spec p _)); [done|].
  by exists EmptyString, (match v with Some (String _ _ as v) => delimiter +:+ v
                                  | _ => EmptyString end).
Qed.

(** X22. [setupNodePath] adds a path once. The directory chosen is the
    custom path of the settings when that is set and exists, else the
    nearest [node_modules] above the project root, if there is one. The
    [NODE_PATH] returned is the one given when that has the chosen
    directory in it already (or when no directory is chosen); else it
    is the chosen directory followed, after the platform's delimiter,
    by what was there before. Either way the chosen directory is in it,
    and calling the method again on the result changes nothing more. *)
Theorem setupNodePath_once customPath win32 fuel fs NODE_PATH projectRoot r :
  setupNodePath path_join path_dirname customPath win32 fuel fs NODE_PATH projectRoot
  = Some r ->
  let added p :=
    if lacks NODE_PATH p
    then Some (prepend (if win32 then ";" else ":") p NODE_PATH) else NODE_PATH in
  let no_custom :=
    forall c, customPath = Some c -> c <> EmptyString -> Fs.existsSync fs c = false in
  setupNodePath' customPath win32 fuel fs r projectRoot = Some r
  /\ (forall c, customPath = Some c -> c <> EmptyString -> Fs.existsSync fs c = true ->
        r = added c /\ lacks r c = false)
  /\ (forall nm,
        no_custom ->
        findNearestNodeModules' fuel fs projectRoot = Some (Some nm) ->
        nm <> EmptyString ->
        r = added nm /\ lacks r nm = false)
  /\ (no_custom -> findNearestNodeModules' fuel fs projectRoot = Some None ->
      r = NODE_PATH).
Proof.
  intros H added no_custom.
  assert (Hadded : forall p, r = added p -> lacks r p = false).
  { intros p ->. unfold added. destruct (lacks NODE_PATH p) eqn:E; [|done].
    apply lacks_prepend. }
  split; [|split; [|split]].
  - revert H. unfold setupNodePath. cbv zeta. intros H.
    repeat (case_match; simplify_eq);
      repeat match goal with
      | H : lacks (Some (prepend _ _ _)) _ = true |- _ =>
          rewrite lacks_prepend in H; discriminate
      end; reflexivity.
  - intros c -> Hc Hex. revert H. unfold setupNodePath. cbv zeta.
    destruct c as [|a c]; [done|]. rewrite Hex.
    assert (r = added (String a c) -> r = added (String a c) /\ lacks r (String a c) = false)
      by (intros E; split; [done|by apply Hadded]).
    unfold added in *. destruct (lacks NODE_PATH (String a c)); intros [= <-]; auto.
  - intros nm Hno Hnm Hne. revert H. unfold setupNodePath. cbv zeta. rewrite Hnm.
    destruct nm as [|a nm]; [done|].
    assert (r = added (String a nm)
            -> r = added (String a nm) /\ lacks r (String a nm) = false)
      by (intros E; split; [done|by apply Hadded]).
    unfold added in *.
    destruct customPath as [[|a0 c]|]; [| |];
      try (rewrite (Hno (String a0 c)) by done);
      destruct (lacks NODE_PATH (String a nm)); intros [= <-]; auto.
  - intros Hno Hnone. revert H. unfold setupNodePath. cbv zeta. rewrite Hnone.
    destruct customPath as [[|a0 c]|]; [| |];
      try (rewrite (Hno (String a0 c)) by done); by intros [= <-].
Qed.

End NodePathFacts.

(** ** The conversion of paths in the longer listing *)

Section ConvertLongerFacts.

Variable path_relative : string -> string -> string.
Variable path_isAbsolute : string -> bool.

Local Abbreviation convertToSuiteCloudPath2' :=
  (convertToSuiteCloudPath2 path_relative path_isAbsolute).

Lemma unset_some r : unset (Some r) = false -> r <> EmptyString.
Proof. by destruct r. Qed.

Lemma includes_intro p pre post : Str.includes p (pre +:+ p +:+ post) = true.
Proof. apply includes_spec. by exists pre, post. Qed.

(** X23. The conversion of the longer listing. A file under
    [src/FileCabinet/SuiteScripts/] or [FileCabinet/SuiteScripts/] of
    the project is converted to [/SuiteScripts/] followed by the rest of
    its path. And no file inside the project is refused: a relative
    path that is not empty, does not start with a dot and is not
    absolute is always converted, to a path that is not empty, whether
    or not it lies in the file cabinet. Without a project root the
    result is [null]. *)
Theorem convertToSuiteCloudPath2_cases s fsPath :
  (forall root rest,
      scm_projectRoot s = Some root -> root <> EmptyString ->
      (Str.map slash_of_backslash (path_relative root fsPath)
         = "src/FileCabinet/SuiteScripts/" +:+ rest
       \/ Str.map slash_of_backslash (path_relative root fsPath)
         = "FileCabinet/SuiteScripts/" +:+ rest) ->
      convertToSuiteCloudPath2 path_relative path_isAbsolute s fsPath
      = Some ("/SuiteScripts/" +:+ rest))
  /\ (forall root,
        scm_projectRoot s = Some root -> root <> EmptyString ->
        Str.map slash_of_backslash (path_relative root fsPath) <> EmptyString ->
        Str.startsWith "." (Str.map slash_of_backslash (path_relative root fsPath)) = false ->
        path_isAbsolute (Str.map slash_of_backslash (path_relative root fsPath)) = false ->
        exists r, convertToSuiteCloudPath2' s fsPath = Some r /\ r <> EmptyString)
  /\ (Str.truthy (scm_projectRoot s) = false ->
      convertToSuiteCloudPath2' s fsPath = None).
Proof.
  split; [|split].
  - intros root rest Hroot Hne Hrel.
    unfold convertToSuiteCloudPath2. rewrite Hroot.
    destruct root as [|c0 root]; [done|]. cbv zeta.
    destruct Hrel as [-> | ->]; reflexivity.
  - intros root Hroot Hne Hrel Hdot Habs.
    unfold convertToSuiteCloudPath2. rewrite Hroot.
    destruct root as [|c0 root]; [done|]. cbv zeta.
    rewrite Hdot, Habs. cbn [negb andb].
    repeat case_match; simplify_eq; eexists; (split; [reflexivity|]);
      try done; try (by apply unset_some).
    all: try match goal with
             | H : unset (Some ?r) = false |- _ => apply unset_some in H
             end; try done.
  - intros H. unfold convertToSuiteCloudPath2.
    by destruct (scm_projectRoot s) as [[|]|].
Qed.

End ConvertLongerFacts.

(** ** The command [suitecloudbackup.restoreBackup] *)

Section RestoreBackupCommandFacts.

Variable path_dirname : string -> string.
Variable path_basename : string -> string.
Variable Uri_file_fsPath : string -> string.

Local Abbreviation restoreBackupCommand' :=
  (restoreBackupCommand path_dirname path_basename Uri_file_fsPath).

(** X24. The command [restoreBackup]. It never rejects: every failure
    ends in an error message. Called without a backup object, without
    one of the two paths, or for a backup file that does not exist, it
    shows its message and leaves everything as it is. And it reports
    [Backup restored] only when it was given both paths, the backup file
    existed and [restoreFile] went through for them, no file other than
    the target having changed. *)
Theorem restoreBackupCommand_outcomes backup tm s :
  (exists n s', restoreBackupCommand path_dirname path_basename Uri_file_fsPath
                  backup tm s = (Ok n, s'))
  /\ (backup = None ->
      restoreBackupCommand' backup tm s
      = (Ok (ShowError "Failed to restore backup: Invalid backup data"), s))
  /\ (forall b, backup = Some b -> Str.truthy (ba_backupPath b) = false ->
      restoreBackupCommand' backup tm s
      = (Ok (ShowError "Failed to restore backup: Missing backup file path"), s))
  /\ (forall b, backup = Some b -> Str.truthy (ba_backupPath b) = true ->
      Str.truthy (ba_targetPath b) = false ->
      restoreBackupCommand' backup tm s
      = (Ok (ShowError "Failed to restore backup: Missing target file path"), s))
  /\ (forall b p, backup = Some b -> ba_backupPath b = Some p -> p <> EmptyString ->
      Str.truthy (ba_targetPath b) = true ->
      Fs.existsSync (st_fs s) p = false ->
      restoreBackupCommand' backup tm s
      = (Ok (ShowError ("Backup file not found: " +:+ path_basename p)), s))
  /\ (forall m s',
      restoreBackupCommand' backup tm s = (Ok (ShowInformation m), s') ->
      exists b p t,
        backup = Some b /\ ba_backupPath b = Some p /\ ba_targetPath b = Some t
        /\ m = "Backup restored: " +:+ path_basename t
        /\ Fs.existsSync (st_fs s) p = true
        /\ restoreFile path_dirname (Uri_file_fsPath t) p tm s = (Ok tt, s')
        /\ forall q, q <> Uri_file_fsPath t ->
             Fs.content (st_fs s') q = Fs.content (st_fs s) q).
Proof.
  unfold restoreBackupCommand, try_catch.
  refine (conj _ (conj _ (conj _ (conj _ (conj _ _))))).
  - destruct backup as [[[[|? ?]|] [[|? ?]|]]|]; cbn; eauto.
    unfold mbind at 1, ST_bind at 1, fs_read at 1.
    destruct (Fs.existsSync _ _); cbn [negb]; [|cbn; eauto].
    unfold mbind, ST_bind.
    destruct (restoreFile _ _ _ _ _) as [[[]|e] sr]; cbn; eauto.
  - by intros ->.
  - intros b -> Hb. by destruct b as [[[|? ?]|] ?].
  - intros b -> Hb Ht. by destruct b as [[[|? ?]|] [[|? ?]|]].
  - intros b p -> Hb Hp Ht Hex. destruct b as [bp [[|? ?]|]]; try done.
    cbn in Hb. subst bp. destruct p as [|? ?]; [done|]. cbn.
    unfold mbind at 1, ST_bind at 1, fs_read at 1. by rewrite Hex.
  - intros m s'.
    destruct backup as [[[[|c1 p]|] [[|c2 t]|]]|]; cbn; try (intros [= <-]; done);
      try discriminate.
    unfold mbind at 1, ST_bind at 1, fs_read at 1.
    destruct (Fs.existsSync _ _) eqn:Hex; cbn [negb]; [|cbn; discriminate].
    unfold mbind, ST_bind.
    destruct (restoreFile _ _ _ _ _) as [[[]|e] sr] eqn:Hr; cbn; [|discriminate].
    intros [= <- <-].
    pose proof (fun q => restoreFile_frame _ _ _ _ _ _ _ q Hr) as Hframe.
    exists {| ba_backupPath := Some (String c1 p); ba_targetPath := Some (String c2 t) |},
      (String c1 p), (String c2 t).
    refine (conj _ (conj _ (conj _ (conj _ (conj _ (conj _ _)))))); done.
Qed.

End RestoreBackupCommandFacts.

(** ** The first listing of [BackupManager] and of the command *)

Section BackupManager1Facts.

Variable path_join : list string -> string.
Variable path_dirname : string -> string.
Variable path_basename : string -> string.
Variable path_relative : string -> string -> string.
Variable JSON_stringify1 : Metadata1 -> Utf8.text.
Variable JSON_parse_project : Utf8.text -> option ProjectData.
Variable W : Workspace.
Variable B : BackupManager.

Local Abbreviation getAuthId' := (getAuthId path_join JSON_parse_project W).
Local Abbreviation backupPathOf1' :=
  (backupPathOf1 path_join path_dirname path_basename path_relative W B).
Local Abbreviation createBackup1' :=
  (createBackup1 path_join path_dirname path_basename path_relative
     JSON_stringify1 JSON_parse_project W B).

Local Abbreviation restoreFile1' := (restoreFile1 path_dirname).

Lemma createBackup1_inv uri source now1 now2 s p s' :
  createBackup1' uri source now1 now2 s = (Ok p, s') ->
  exists a c d m,
    getAuthId' s = (Ok (Some a), s) /\ a <> EmptyString
    /\ p = backupPathOf1' a uri source now1
    /\ Fs.content (st_fs s) uri = Some c
    /\ st_fs s' = <[p +:+ ".meta.json" := NFile m]>
                    (<[p := NFile (Utf8.reencode c)]>
                       (ensured path_dirname (st_faults s) (st_fs s) d))
    /\ st_faults s' = st_faults s
    /\ ensured path_dirname (st_faults s) (st_fs s) d !! p <> Some NDir
    /\ ensured path_dirname (st_faults s) (st_fs s) d !! (p +:+ ".meta.json")
       <> Some NDir.
Proof.
  unfold createBackup1, try_catch.
  destruct (getAuthId_pure path_join JSON_parse_project W s) as [oa Ha].
  unfold mbind at 1, ST_bind at 1. rewrite Ha.
  unfold mbind at 1, ST_bind at 1.
  destruct oa as [[|c0 a0]|]; cbn [Str.truthy negb throw_if Str.or_empty];
    try discriminate.
  set (a := String c0 a0).
  unfold mret at 1, ST_ret at 1.
  unfold mbind at 1, ST_bind at 1.
  match goal with |- context [ensureDirectoryExists path_dirname ?d s] =>
    destruct (ensureDirectoryExists_run path_dirname d s)
      as (r0 & s0 & -> & Hfs0 & Hac0 & Hfl0 & _);
    set (fs0 := ensured path_dirname (st_faults s) (st_fs s) d) in * end.
  destruct r0 as [[]|e0]; [|discriminate].
  unfold mbind at 1, ST_bind at 1, fs_read at 1. rewrite Hfs0.
  unfold Fs.readFileUtf8, Fs.readFile.
  destruct (fs0 !! uri) as [[c|]|] eqn:Huri; try discriminate.
  unfold mbind at 1, ST_bind at 1, fs_change at 1. rewrite Hfs0, Hfl0.
  destruct (Fs.writeFile _ _ fs0 _ _) as [r1 fs1] eqn:Hw1.
  apply writeFile_inv in Hw1 as [(-> & -> & Ho1)|[[e1 ->] ->]]; [|discriminate].
  unfold mbind at 1, ST_bind at 1, fs_change at 1. cbn [st_fs st_faults with_fs].
  rewrite Hfl0.
  destruct (Fs.writeFile _ _ _ (_ +:+ ".meta.json") _) as [r2 fs2] eqn:Hw2.
  apply writeFile_inv in Hw2 as [(-> & -> & Ho2)|[[e2 ->] ->]]; [|discriminate].
  unfold mret, ST_ret. intros [= <- <-]. cbn [st_fs st_faults with_fs].
  apply open_error_none_inv in Ho1 as (Hp & _).
  apply open_error_none_inv in Ho2 as (Hm & _).
  exists a, c. eexists _, _. repeat split; try done.
  - unfold fs0 in Huri. apply content_lookup in Huri.
    by rewrite content_ensured in Huri.
  - intros Hd. apply Hm. rewrite lookup_insert_ne; [done|].
    apply not_eq_sym, append_ne. done.
Qed.

Lemma restoreFile1_ok_inv target backupPath s s' :
  restoreFile1' target backupPath s = (Ok tt, s') ->
  exists b,
    Fs.content (st_fs s) backupPath = Some b
    /\ st_fs s' = <[target := NFile (Utf8.reencode b)]> (st_fs s).
Proof.
  unfold restoreFile1, try_catch, fs_change, fs_read, mbind, ST_bind, mret, ST_ret,
    throw, Fs.readFileUtf8, Fs.readFile, Fs.content.
  destruct (st_fs s !! backupPath) as [[b|]|]; try done.
  destruct (Fs.writeFile _ _ _ _ _) as [r fs1] eqn:Hw.
  apply writeFile_inv in Hw as [(-> & -> & _)|[[e ->] ->]]; [|done].
  intros [= <-]. by exists b.
Qed.

Lemma restoreFile1_ok target backupPath s b :
  Fs.content (st_fs s) backupPath = Some b ->
  st_fs s !! path_dirname target = Some NDir ->
  st_fs s !! target <> Some NDir ->
  Fs.refuse_write (st_faults s) target = None ->
  restoreFile1' target backupPath s
  = (Ok tt, with_fs s (<[target := NFile (Utf8.reencode b)]> (st_fs s))).
Proof.
  intros Hb%content_lookup Hd Ht Hw.
  unfold restoreFile1, try_catch, fs_change, fs_read, mbind, ST_bind, mret, ST_ret,
    throw, Fs.readFileUtf8, Fs.readFile.
  rewrite Hb. by rewrite writeFile_ok by (by apply open_error_none).
Qed.

Lemma compareFiles1_state f1 f2 s r s' :
  compareFiles1 f1 f2 s = (r, s') -> s' = s.
Proof.
  unfold compareFiles1, try_catch, fs_read, mbind, ST_bind, mret, ST_ret, throw.
  intros H. repeat (case_match; simplify_eq); done.
Qed.

(** X25. The round trip of the first listing. After a successful
    [createBackup(uri, source)] that returned [p], the content file
    holds the file's bytes decoded as UTF-8 and encoded again; every
    [restoreFile(uri, p)] that succeeds, run next, leaves exactly that
    in the file, changing no other file: the bytes the file had when
    they were well-formed UTF-8. Although the restore reads and writes
    text once more, it adds no loss of its own. And the restore does
    succeed when the directory of the file is there and the file system
    does not refuse to open the file for writing. *)
Theorem first_listing_roundtrip uri source now1 now2 s p s1 :
  createBackup1 path_join path_dirname path_basename path_relative
    JSON_stringify1 JSON_parse_project W B uri source now1 now2 s = (Ok p, s1) ->
  exists c,
    Fs.content (st_fs s) uri = Some c
    /\ Fs.content (st_fs s1) p = Some (Utf8.reencode c)
    /\ (forall s2,
          restoreFile1 path_dirname uri p s1 = (Ok tt, s2) ->
          Fs.content (st_fs s2) uri = Some (Utf8.reencode c)
          /\ (Utf8.clean c -> Fs.content (st_fs s2) uri = Some c)
          /\ (forall q, q <> uri -> Fs.content (st_fs s2) q = Fs.content (st_fs s1) q))
    /\ (st_fs s !! path_dirname uri = Some NDir ->
        Fs.refuse_write (st_faults s) uri = None ->
        exists s2, restoreFile1 path_dirname uri p s1 = (Ok tt, s2)).
Proof.
  intros H.
  apply createBackup1_inv in H
    as (a & c & d & m & _ & _ & _ & Hc & Hfs & Hfl & Hpd & Hmd).
  set (fs0 := ensured path_dirname (st_faults s) (st_fs s) d) in *.
  assert (Hpm : p +:+ ".meta.json" <> p) by (by apply append_ne).
  assert (Hp : Fs.content (st_fs s1) p = Some (Utf8.reencode c)).
  { rewrite Hfs, content_insert_ne by done. apply content_insert_eq. }
  exists c. split; [done|]. split; [exact Hp|]. split.
  - intros s2 Hr. apply restoreFile1_ok_inv in Hr as (b & Hb & ->).
    rewrite Hp in Hb. injection Hb as <-. rewrite reencode_clean.
    split; [apply content_insert_eq|].
    split; [intros Hclean; rewrite content_insert_eq; by rewrite Hclean|].
    intros q Hq. by rewrite content_insert_ne.
  - intros Hd Hw.
    assert (Hu : st_fs s1 !! uri <> Some NDir).
    { rewrite Hfs. destruct (decide (p +:+ ".meta.json" = uri)) as [<-|Hn1].
      { by rewrite lookup_insert_eq. }
      rewrite lookup_insert_ne by done.
      destruct (decide (p = uri)) as [<-|Hn2].
      { by rewrite lookup_insert_eq. }
      rewrite lookup_insert_ne by done.
      apply content_lookup in Hc. unfold fs0.
      by rewrite (lookup_ensured_some _ _ _ _ _ _ Hc). }
    assert (Hd0 : fs0 !! path_dirname uri = Some NDir)
      by (by apply lookup_ensured_some).
    assert (Hd1 : st_fs s1 !! path_dirname uri = Some NDir).
    { rewrite Hfs, !lookup_insert_ne; [done| |]; intros E; rewrite E in *; congruence. }
    eexists. apply restoreFile1_ok with (b := Utf8.reencode c); try done.
    congruence.
Qed.

Variable sc : Scenario.
Variable viewDifferences : option (outcome unit).

Local Abbreviation uploadFlow1' :=
  (uploadFlow1 path_join path_dirname path_basename path_relative
     JSON_stringify1 JSON_parse_project W B sc viewDifferences).

Ltac flow1_unfold :=
  unfold uploadFlow1, callUpload, callImport, try_catch, throw, lift, emit,
    get_flow, of_outcome, fs_update, mbind, ST_bind, mret, ST_ret, flow_start.

(** X26. The command of the first listing. It never rejects: whatever
    fails ends in a message. The upload comes first: when the local
    backup cannot be taken nothing is sent; when the upload fails
    nothing is imported and the file is as it was; when the import
    fails nothing is restored. It reports [File processed
    successfully] only when the upload and the import both went
    through and the restore from the local backup was the last thing
    done to the file, which then holds the content of that backup. *)
Theorem first_upload_flow uri w :
  exists n st,
    uploadFlow1 path_join path_dirname path_basename path_relative
      JSON_stringify1 JSON_parse_project W B sc viewDifferences uri (flow_start w)
    = (Ok n, st)
    /\ (forall e w',
          createBackup1' uri local (now_local1 sc) (now_local2 sc) w = (Throw e, w') ->
          n = ErrorMessage ("Operation failed: " +:+ message_of e)
          /\ fl_trace st = [] /\ fl_world st = w')
    /\ (forall p w1,
          createBackup1' uri local (now_local1 sc) (now_local2 sc) w = (Ok p, w1) ->
          (success (uploadResult sc 0) = false ->
           n = ErrorMessage ("Upload failed: " +:+ template (error_ (uploadResult sc 0)))
           /\ fl_trace st = [EvUpload] /\ fl_world st = w1)
          /\ (success (uploadResult sc 0) = true -> success (importResult sc) = false ->
              n = Warning ("File uploaded, but could not import account version: "
                             +:+ template (error_ (importResult sc)))
              /\ fl_trace st = [EvUpload; EvImport])
          /\ (forall m, n = Information m ->
              success (uploadResult sc 0) = true /\ success (importResult sc) = true
              /\ fl_trace st = [EvUpload; EvImport; EvRestore p]
              /\ exists b,
                   Fs.content (st_fs (fl_world st)) uri = Some (Utf8.reencode b)
                   /\ (p <> uri -> Fs.content (st_fs (fl_world st)) p = Some b))).
Proof.
  flow1_unfold. cbn [fl_world fl_trace fl_backupPath fl_accountBackupPath].
  destruct (createBackup1' uri local (now_local1 sc) (now_local2 sc) w)
    as [[p|e] w1] eqn:E1;
    cbn [fl_world fl_trace fl_backupPath fl_accountBackupPath app];
    [|do 2 eexists; split; [reflexivity|]; split;
      [intros ? ? [= <- <-]; done|intros ? ? [=]]].
  change (count_event EvUpload []) with 0.
  destruct (success (uploadResult sc 0)) eqn:Hup;
    cbn [fl_world fl_trace fl_backupPath fl_accountBackupPath app];
    [|do 2 eexists; split; [reflexivity|]; split; [intros ? ? [=]|];
      intros ? ? [= <- <-]; split; [done|]; split; [done|]; intros m [=]].
  destruct (success (importResult sc)) eqn:Himp;
    cbn [fl_world fl_trace fl_backupPath fl_accountBackupPath app];
    [|do 2 eexists; split; [reflexivity|]; split; [intros ? ? [=]|];
      intros ? ? [= <- <-]; split; [done|]; split; [done|]; intros m [=]].
  destruct (createBackup1' uri account _ _ _) as [[q|e2] w2] eqn:E2;
    cbn [fl_world fl_trace fl_backupPath fl_accountBackupPath app];
    [|do 2 eexists; split; [reflexivity|]; split; [intros ? ? [=]|];
      intros ? ? [= <- <-]; split; [done|]; split; [done|]; intros m [=]].
  destruct (restoreFile1' uri p w2) as [[[]|e3] w3] eqn:E3;
    cbn [fl_world fl_trace fl_backupPath fl_accountBackupPath app];
    [|do 2 eexists; split; [reflexivity|]; split; [intros ? ? [=]|];
      intros ? ? [= <- <-]; split; [done|]; split; [done|]; intros m [=]].
  apply restoreFile1_ok_inv in E3 as (b & Hb & Hw3).
  destruct (compareFiles1 p q _) as [[d|e4] w4] eqn:E4;
    apply compareFiles1_state in E4 as ->;
    cbn [fl_world fl_trace fl_backupPath fl_accountBackupPath app];
    [|do 2 eexists; split; [reflexivity|]; split; [intros ? ? [=]|];
      intros ? ? [= <- <-]; split; [done|]; split; [done|]; intros m [=]].
  assert (Hfin : exists b0,
             Fs.content (st_fs w3) uri = Some (Utf8.reencode b0)
             /\ (p <> uri -> Fs.content (st_fs w3) p = Some b0)).
  { exists b. rewrite Hw3. split; [apply content_insert_eq|].
    intros Hne. rewrite content_insert_ne by done. exact Hb. }
  destruct d; [destruct viewDifferences as [[[]|e5]|]|];
    cbn [fl_world fl_trace fl_backupPath fl_accountBackupPath app st_fs];
    do 2 eexists; (split; [reflexivity|]); (split; [intros ? ? [=]|]);
    intros ? ? [= <- <-]; (split; [done|]); (split; [done|]); intros m [=];
    done.
Qed.

End BackupManager1Facts.

(* ===================================================================== *)
(** ** The further facts on sample data *)
(* ===================================================================== *)

(** The backup [b.js] is restored over [a.js]. *)
Lemma restoreFile_restores_witness :
  exists s',
    restoreFile Posix.dirname Demo.a_js Cases.b_js Sample.instant
      (Demo.two_files Demo.hi Demo.ho) = (Ok tt, s')
    /\ Fs.content (st_fs s') Demo.a_js = Some Demo.ho
    /\ (forall q, q <> Demo.a_js ->
          Fs.content (st_fs s') q
          = Fs.content (st_fs (Demo.two_files Demo.hi Demo.ho)) q)
    /\ st_accounts s' = st_accounts (Demo.two_files Demo.hi Demo.ho).
Proof.
  apply restoreFile_restores.
  - vm_compute. discriminate.
  - vm_compute. discriminate.
  - vm_compute. discriminate.
  - vm_compute. reflexivity.
  - vm_compute. reflexivity.
  - vm_compute. discriminate.
  - vm_compute. reflexivity.
  - vm_compute. reflexivity.
Defined.

(** The time stamp of [Sample.t1], rebuilt from the name of a backup
    without a sidecar. *)
Lemma filename_stamp_not_restored_witness :
  entryDetails Sample.no_sidecar ∅ Demo.local_backup
    (backupFileName Posix.basename Posix.relative Sample.W Demo.a_js
       (iso "2024" "05" "06" "07" "08" "09" "123"))
  = Ok (DateOf (Some (stamp "-" "2024" "05" "06" "07" "08" "09" "123")),
        EmptyString, emptyAccount)
  /\ stamp "-" "2024" "05" "06" "07" "08" "09" "123"
     <> iso "2024" "05" "06" "07" "08" "09" "123".
Proof.
  apply filename_stamp_not_restored.
  - vm_compute. repeat split; reflexivity.
  - vm_compute. reflexivity.
Defined.

(** The local backup of [a.js] is listed under [a.js]. *)
Lemma created_backup_is_listed_witness :
  getOriginalFilePath Posix.join Posix.dirname Posix.basename Posix.relative Posix.sep
    Json.parse_sidecar Sample.W Sample.B Demo.backed_up Demo.local_backup
  = Some Demo.a_js
  /\ {| e_path := Demo.local_backup;
        e_timestamp := DateOf (Some Sample.t2);
        e_source := local;
        e_authId := "auth1";
        e_accountInfo := emptyAccount |}
     ∈ versions (Demo.listBackups Demo.backed_up (Some Demo.tree)) Demo.a_js.
Proof.
  apply (created_backup_is_listed Posix.join Posix.dirname Posix.basename
           Posix.relative Posix.sep Json.stringify Sample.no_project
           Json.parse_sidecar Sample.W Sample.B Demo.a_js local Sample.t1 Sample.t2
           (Sample.world Demo.a_js Demo.hi) Demo.local_backup
           (snd (Sample.createBackup Demo.a_js local Sample.t1 Sample.t2
                   (Sample.world Demo.a_js Demo.hi)))
           Cases.sidecar_text
           {| sc_originalFile := Some Demo.a_js;
              sc_timestamp := Some Sample.t2;
              sc_authId := Some "auth1";
              sc_accountInfo := Some (Some EmptyString, Some EmptyString,
                                      Some EmptyString) |}
           Demo.tree Cases.backup_name).
  - vm_compute. reflexivity.
  - vm_compute. discriminate.
  - vm_compute. reflexivity.
  - vm_compute. reflexivity.
  - vm_compute. reflexivity.
  - reflexivity.
  - intros authId Hin. apply list_elem_of_singleton in Hin. discriminate.
  - exists "auth1",
      [DirentDir "local"
         (Some [DirentFile Cases.backup_name;
                DirentFile (Cases.backup_name +:+ ".meta.json")])],
      "local",
      [DirentFile Cases.backup_name; DirentFile (Cases.backup_name +:+ ".meta.json")],
      (DirentFile Cases.backup_name).
    split; [apply in_here|]. split; [apply in_here|]. split; [reflexivity|].
    split; [apply in_here|].
    apply (backup_at_file Posix.join
             (Posix.join [Posix.join [baseBackupDir Sample.B; "auth1"]; "local"])
             Cases.backup_name).
    vm_compute. reflexivity.
Defined.

(** The commands for a script in the file cabinet. *)
Lemma upload_import_commands_witness :
  uploadFile Posix.relative Demo.cli Cases.script Demo.scm_w
  = (Ok (resultOf (Demo.cli (length (scm_commands Demo.scm_w))
                     ("suitecloud file:upload --paths " +:+ quoted "SuiteScripts/a.js"))),
     ran Demo.scm_w ("suitecloud file:upload --paths " +:+ quoted "SuiteScripts/a.js"))
  /\ importFile Posix.relative Demo.cli Cases.script Demo.scm_w
     = (Ok (resultOf (Demo.cli (length (scm_commands Demo.scm_w))
                        ("suitecloud file:import --paths "
                           +:+ quoted ("/" +:+ "SuiteScripts/a.js")))),
        ran Demo.scm_w ("suitecloud file:import --paths "
                          +:+ quoted ("/" +:+ "SuiteScripts/a.js"))).
Proof.
  apply upload_import_commands.
  vm_compute. reflexivity.
Defined.

(** The line [Account ID: 1234567] sets the current auth id. *)
Lemma account_id_line_read_as_auth_id_witness :
  fetchLine ("prod", ∅) (EmptyString +:+ "Account ID: " +:+ String "1" "234567")
  = (Str.nonspace_run (String "1" "234567"), ∅).
Proof.
  apply account_id_line_read_as_auth_id.
  - reflexivity.
  - reflexivity.
Defined.


(** The import brought [ho]; at the end the file holds [hi] again. *)
Lemma local_version_back_in_place_witness :
  Fs.content
    (st_fs (fl_world (snd (Demo.uploadFlow Demo.upload_fails_auth Demo.hi))))
    Demo.a_js = Some Demo.hi
  /\ Fs.content
       (st_fs (fl_world (snd (Demo.uploadFlow Demo.upload_fails_auth Demo.hi))))
       Demo.local_backup = Some Demo.hi
  /\ EvRestore Demo.local_backup
       ∈ fl_trace (snd (Demo.uploadFlow Demo.upload_fails_auth Demo.hi)).
Proof.
  apply local_version_back_in_place
    with (path_join := Posix.join) (path_dirname := Posix.dirname)
         (path_basename := Posix.basename) (path_relative := Posix.relative)
         (JSON_stringify := Json.stringify) (JSON_parse_project := Sample.no_project)
         (W := Sample.W) (B := Sample.B) (sc := Demo.upload_fails_auth)
         (w := Sample.world Demo.a_js Demo.hi).
  - vm_compute. reflexivity.
  - reflexivity.
  - vm_compute. reflexivity.
  - vm_compute. reflexivity.
  - vm_compute. reflexivity.
  - vm_compute. discriminate.
  - intros a w' Ha.
    rewrite getAuthId_settings in Ha by reflexivity.
    injection Ha as <-. split; vm_compute; discriminate.
Defined.

(** A backup a quarter of an hour old. *)
Lemma formatTimeAgo_ranges_witness :
  formatTimeAgo Cases.now (Some Cases.then_) = "15 minutes ago".
Proof.
  assert (H52 : (Cases.now - Cases.then_ < 2 ^ 52)%Z) by (vm_compute; reflexivity).
  assert (Hage : (60000 <= Cases.now - Cases.then_ < 3600000)%Z)
    by (vm_compute; split; [discriminate|reflexivity]).
  destruct (formatTimeAgo_ranges Cases.now Cases.then_ H52) as (_ & H & _).
  destruct (H Hage) as [-> _]. vm_compute. reflexivity.
Defined.

(** The [node_modules] of the project is put before what was there,
    and is not put there again. *)
Lemma setupNodePath_once_witness :
  setupNodePath Posix.join Posix.dirname None false 8 Cases.project Cases.node_path "/w"
  = Some (Some "/w/node_modules:/usr/lib/node")
  /\ setupNodePath Posix.join Posix.dirname None false 8 Cases.project
       (Some "/w/node_modules:/usr/lib/node") "/w"
     = Some (Some "/w/node_modules:/usr/lib/node")
  /\ lacks (Some "/w/node_modules:/usr/lib/node") "/w/node_modules" = false.
Proof.
  assert (Hrun : setupNodePath Posix.join Posix.dirname None false 8 Cases.project
                   Cases.node_path "/w"
                 = Some (Some "/w/node_modules:/usr/lib/node"))
    by (vm_compute; reflexivity).
  destruct (setupNodePath_once Posix.join Posix.dirname None false 8 Cases.project
              Cases.node_path "/w" (Some "/w/node_modules:/usr/lib/node") Hrun)
    as (Hagain & _ & Hnearest & _).
  split; [exact Hrun|]. split; [exact Hagain|].
  apply (Hnearest "/w/node_modules").
  - intros c Hc. discriminate.
  - vm_compute. reflexivity.
  - discriminate.
Defined.

(** The backup of the text [hi] holds [hi]. *)
Lemma ascii_backed_up_exactly_witness :
  Fs.content
    (st_fs (snd (Sample.createBackup Demo.a_js local Sample.t1 Sample.t2
                   (Sample.world Demo.a_js Demo.hi))))
    Demo.local_backup
  = Some Demo.hi.
Proof.
  apply ascii_backed_up_exactly
    with (path_join := Posix.join) (path_dirname := Posix.dirname)
         (path_basename := Posix.basename) (path_relative := Posix.relative)
         (JSON_stringify := Json.stringify) (JSON_parse_project := Sample.no_project)
         (W := Sample.W) (B := Sample.B) (uri := Demo.a_js) (source := local)
         (now1 := Sample.t1) (now2 := Sample.t2) (s := Sample.world Demo.a_js Demo.hi).
  - vm_compute. reflexivity.
  - vm_compute. reflexivity.
  - reflexivity.
Defined.

(** The backup of a file holding 0xFF holds EF BF BD, which is read and
    written back as it is. *)
Lemma backup_content_well_formed_witness :
  exists c,
    Fs.content (st_fs (Sample.world Demo.a_js Demo.ill_formed)) Demo.a_js = Some c
    /\ Fs.content
         (st_fs (snd (Sample.createBackup Demo.a_js local Sample.t1 Sample.t2
                        (Sample.world Demo.a_js Demo.ill_formed))))
         Demo.local_backup
       = Some (Utf8.reencode c)
    /\ Utf8.reencode (Utf8.reencode c) = Utf8.reencode c.
Proof.
  apply backup_content_well_formed
    with (path_join := Posix.join) (path_dirname := Posix.dirname)
         (path_basename := Posix.basename) (path_relative := Posix.relative)
         (JSON_stringify := Json.stringify) (JSON_parse_project := Sample.no_project)
         (W := Sample.W) (B := Sample.B) (source := local)
         (now1 := Sample.t1) (now2 := Sample.t2).
  vm_compute. reflexivity.
Defined.

(** The script of the file cabinet, by the first listing. *)
Lemma converted_path_witness :
  convertToSuiteCloudPath Posix.relative Demo.scm_w Cases.script
  = Some ("SuiteScripts" +:+ (if is_empty "a.js" then EmptyString else "/" +:+ "a.js")).
Proof.
  apply (proj2 (converted_path Posix.relative Demo.scm_w Cases.script))
    with (root := "/w") (pre := "src/").
  - reflexivity.
  - discriminate.
  - vm_compute. reflexivity.
  - reflexivity.
  - reflexivity.
Defined.

(** The run with two uploads starts with the import and the restore. *)
Lemma import_restore_upload_order_witness :
  exists p rest,
    fl_trace (snd (uploadFlow Posix.join Posix.dirname Posix.basename Posix.relative
                     Json.stringify Sample.no_project Sample.W Sample.B
                     Demo.upload_fails_auth Demo.a_js
                     (flow_start (Sample.world Demo.a_js Demo.hi))))
    = EvImport :: EvRestore p :: EvUpload :: rest.
Proof.
  apply (proj1 (proj2 (import_restore_upload_order Posix.join Posix.dirname
                         Posix.basename Posix.relative Json.stringify Sample.no_project
                         Sample.W Sample.B Demo.upload_fails_auth Demo.a_js
                         (Sample.world Demo.a_js Demo.hi)))).
  - reflexivity.
  - assert (Htr : fl_trace
                    (snd (uploadFlow Posix.join Posix.dirname Posix.basename
                            Posix.relative Json.stringify Sample.no_project Sample.W
                            Sample.B Demo.upload_fails_auth Demo.a_js
                            (flow_start (Sample.world Demo.a_js Demo.hi))))
                  = [EvImport; EvRestore Demo.local_backup; EvUpload;
                     EvSetupAccount; EvRefreshAccountInfo; EvUpload])
      by (vm_compute; reflexivity).
    rewrite Htr. apply in_further, in_further, in_here.
Defined.

(** Of three backups the one of time 7 is the latest. *)
Lemma latestBackup_newest_witness :
  exists r tr,
    latestBackup Some [3; 7; 5]%Z = Some r
    /\ r ∈ [3; 7; 5]%Z
    /\ Some r = Some tr
    /\ forall x tx, x ∈ [3; 7; 5]%Z -> Some x = Some tx -> (tx <= tr)%Z.
Proof.
  apply (proj1 (latestBackup_newest Some 3%Z [7; 5]%Z)).
  intros x _. by exists x.
Defined.

(** From [/w/src] the search finds [/w/node_modules], one level up. *)
Lemma findNearestNodeModules_nearest_witness :
  exists k,
    "/w/node_modules" = Posix.join [above Posix.dirname k "/w/src"; "node_modules"]
    /\ Fs.existsSync Cases.project "/w/node_modules" = true
    /\ forall j, j < k ->
         Fs.existsSync Cases.project
           (Posix.join [above Posix.dirname j "/w/src"; "node_modules"]) = false.
Proof.
  apply (proj1 (proj2 (findNearestNodeModules_nearest Posix.join Posix.dirname 8
                         Cases.project "/w/src"))).
  vm_compute. reflexivity.
Defined.

(** The script of the file cabinet, by the longer listing. *)
Lemma convertToSuiteCloudPath2_cases_witness :
  convertToSuiteCloudPath2 Posix.relative (Str.startsWith "/") Demo.scm_w Cases.script
  = Some ("/SuiteScripts/" +:+ "a.js").
Proof.
  apply (proj1 (convertToSuiteCloudPath2_cases Posix.relative (Str.startsWith "/")
                  Demo.scm_w Cases.script))
    with (root := "/w").
  - reflexivity.
  - discriminate.
  - left. vm_compute. reflexivity.
Defined.

(** A new file: import, then upload, and the command ends normally. *)
Lemma new_file_uploaded_directly_witness :
  fst (Demo.uploadFlow Cases.new_file Demo.hi) = Ok tt
  /\ fl_trace (snd (Demo.uploadFlow Cases.new_file Demo.hi)) = [EvImport; EvUpload].
Proof.
  assert (Hb : createBackup Posix.join Posix.dirname Posix.basename Posix.relative
                 Json.stringify Sample.no_project Sample.W Sample.B Demo.a_js local
                 (now_local1 Cases.new_file) (now_local2 Cases.new_file)
                 (Sample.world Demo.a_js Demo.hi)
               = (Ok Demo.local_backup,
                  snd (Sample.createBackup Demo.a_js local Sample.t1 Sample.t2
                         (Sample.world Demo.a_js Demo.hi))))
    by (vm_compute; reflexivity).
  assert (Hp : Demo.local_backup <> EmptyString) by discriminate.
  assert (Himp : success (importResult Cases.new_file) = false) by reflexivity.
  assert (Hnf : import_not_found (importResult Cases.new_file) = true)
    by (vm_compute; reflexivity).
  destruct (new_file_uploaded_directly Posix.join Posix.dirname Posix.basename
              Posix.relative Json.stringify Sample.no_project Sample.W Sample.B
              Cases.new_file Demo.a_js _ _ _ Hb Hp Himp Hnf) as (_ & _ & H & _).
  apply H. reflexivity.
Defined.

(** The import is refused for the credentials and the user dismisses
    the message: the command ends normally after the import. *)
Lemma import_auth_error_ends_quietly_witness :
  fst (Demo.uploadFlow Cases.import_unauthorized Demo.hi) = Ok tt
  /\ EvUpload ∉ fl_trace (snd (Demo.uploadFlow Cases.import_unauthorized Demo.hi)).
Proof.
  assert (Hb : createBackup Posix.join Posix.dirname Posix.basename Posix.relative
                 Json.stringify Sample.no_project Sample.W Sample.B Demo.a_js local
                 (now_local1 Cases.import_unauthorized)
                 (now_local2 Cases.import_unauthorized)
                 (Sample.world Demo.a_js Demo.hi)
               = (Ok Demo.local_backup,
                  snd (Sample.createBackup Demo.a_js local Sample.t1 Sample.t2
                         (Sample.world Demo.a_js Demo.hi))))
    by (vm_compute; reflexivity).
  assert (Hp : Demo.local_backup <> EmptyString) by discriminate.
  assert (Himp : success (importResult Cases.import_unauthorized) = false)
    by reflexivity.
  assert (Hnf : import_not_found (importResult Cases.import_unauthorized) = false)
    by (vm_compute; reflexivity).
  assert (Hauth : import_auth_error (importResult Cases.import_unauthorized) = true)
    by (vm_compute; reflexivity).
  destruct (import_auth_error_ends_quietly Posix.join Posix.dirname Posix.basename
              Posix.relative Json.stringify Sample.no_project Sample.W Sample.B
              Cases.import_unauthorized Demo.a_js _ _ _ Hb Hp Himp Hnf Hauth)
    as (Hok & _ & _ & H).
  split; [exact Hok|]. apply H. left. discriminate.
Defined.

(** The import brought [ho], and the account backup holds it. *)
Lemma imported_version_kept_witness :
  success (importResult Demo.upload_fails_auth) = true
  /\ Fs.content
       (st_fs (fl_world (snd (Demo.uploadFlow Demo.upload_fails_auth Demo.hi))))
       Cases.account_backup
     = Some (Utf8.reencode Demo.ho).
Proof.
  apply (imported_version_kept Posix.join Posix.dirname Posix.basename Posix.relative
           Json.stringify Sample.no_project Sample.W Sample.B Demo.upload_fails_auth
           Demo.a_js (Sample.world Demo.a_js Demo.hi)
           (fst (Demo.uploadFlow Demo.upload_fails_auth Demo.hi))).
  - apply surjective_pairing.
  - vm_compute. reflexivity.
  - vm_compute. discriminate.
  - reflexivity.
Defined.

(** The first listing on a file holding 0xFF: the backup and the file
    after the restore hold EF BF BD. *)
Lemma first_listing_roundtrip_witness :
  exists s2,
    Fs.content
      (st_fs (snd (Cases.createBackup1 Demo.a_js local Sample.t1 Sample.t2
                     (Sample.world Demo.a_js Demo.ill_formed))))
      Demo.local_backup
    = Some Demo.replaced
    /\ restoreFile1 Posix.dirname Demo.a_js Demo.local_backup
         (snd (Cases.createBackup1 Demo.a_js local Sample.t1 Sample.t2
                 (Sample.world Demo.a_js Demo.ill_formed)))
       = (Ok tt, s2)
    /\ Fs.content (st_fs s2) Demo.a_js = Some Demo.replaced.
Proof.
  destruct (first_listing_roundtrip Posix.join Posix.dirname Posix.basename
              Posix.relative Cases.stringify1 Sample.no_project Sample.W Sample.B
              Demo.a_js local Sample.t1 Sample.t2
              (Sample.world Demo.a_js Demo.ill_formed) Demo.local_backup
              (snd (Cases.createBackup1 Demo.a_js local Sample.t1 Sample.t2
                      (Sample.world Demo.a_js Demo.ill_formed))))
    as (c & Hc & Hp & Hsafe & Hlive).
  - vm_compute. reflexivity.
  - assert (c = Demo.ill_formed) as -> by (vm_compute in Hc; by injection Hc as <-).
    destruct Hlive as [s2 Hr]; [vm_compute; reflexivity..|].
    exists s2. split; [exact Hp|]. split; [exact Hr|].
    by destruct (Hsafe s2 Hr) as (Hu & _).
Defined.

(** A run of the first listing's command in which all goes well: the
    calls are the upload, the import and the restore. *)
Lemma first_upload_flow_witness :
  fl_trace (snd Cases.uploadFlow1)
  = [EvUpload; EvImport; EvRestore Demo.local_backup].
Proof.
  destruct (first_upload_flow Posix.join Posix.dirname Posix.basename Posix.relative
              Cases.stringify1 Sample.no_project Sample.W Sample.B Cases.all_well None
              Demo.a_js (Sample.world Demo.a_js Demo.hi))
    as (n & st & Hrun & _ & H).
  destruct (H Demo.local_backup
              (snd (Cases.createBackup1 Demo.a_js local Sample.t1 Sample.t2
                      (Sample.world Demo.a_js Demo.hi))))
    as (_ & _ & Hinfo); [vm_compute; reflexivity|].
  assert (Hn : fst Cases.uploadFlow1
               = Ok (Information
                       ("File processed successfully. "
                          +:+ "Differences detected between local and account versions.")))
    by (vm_compute; reflexivity).
  unfold Cases.uploadFlow1 in *. rewrite Hrun in *. cbn [fst snd] in *.
  injection Hn as Hn.
  by destruct (Hinfo _ Hn) as (_ & _ & Htr & _).
Defined.
